(** * BETOFF: the realtime statistics engine and its server, embedded in Rocq

    The client (a React single-page dashboard) normalises the monetary
    result of each bet, filters bets by calendar window, aggregates them
    into win rate / profit / ROI / average odds, detects the current streak
    and keeps its cache in step with the server's push notifications.  The
    server (an Express application) keeps the bet collection in memory,
    persists every change and broadcasts it.

    Part I embeds the functions of the source, one Rocq definition per
    JavaScript function, in the order of the source files, followed by
    the definitions that word the specification and by the sample data.
    Part II states and proves the properties.

    JavaScript numbers are IEEE 754 binary64 values: they are modelled by
    Rocq's primitive floats, whose operations are the same ones.  Time
    values (milliseconds since the epoch) are integers and are modelled in
    [Z].  Strings are Rocq strings, read as UTF-8. *)

From Stdlib Require Import ZArith Floats Lia Ascii String.
From Stdlib Require Uint63.
From stdpp Require Import gmap strings list.

Set Warnings "-inexact-float".

(* ===================================================================== *)
(** * Part I: the embedding                                               *)
(* ===================================================================== *)

(** ** JavaScript numbers *)

Module JS.

(** [ToBoolean] of a Number: [+0], [-0] and [NaN] are falsy. *)
Definition truthy (x : float) : bool :=
  negb ((x =? 0)%float || is_nan x).

(** [x || d] on Numbers. *)
Definition or_else (x d : float) : float :=
  if truthy x then x else d.

(** [Number(v) || 0], the coercion the client applies to every numeric
    field. *)
Definition or_zero (x : float) : float := or_else x 0%float.

(** [Number.isFinite(x) && x > 0]. *)
Definition finite_positive (x : float) : bool :=
  is_finite x && (0 <? x)%float.

(** The Number of an array length. *)
Definition of_nat (n : nat) : float :=
  PrimFloat.of_uint63 (Uint63.of_Z (Z.of_nat n)).

(** The Number of a non-negative integer below 2^63 (exact below 2^53). *)
Definition of_Z_nonneg (n : Z) : float :=
  PrimFloat.of_uint63 (Uint63.of_Z n).

(** [Math.round]: the integral Number closest to [x], ties towards
    [+Infinity]; an integral [x], [NaN] and the infinities are returned
    unchanged, and a result of zero keeps the sign of [x].  For a finite
    [x = (-1)^s * m * 2^e] with [e < 0] the result is
    [floor (x + 1/2) = floor ((2 * (+-m) + 2^(-e)) / 2^(1-e))]. *)
Definition Math_round (x : float) : float :=
  match Prim2SF x with
  | S754_finite s m e =>
      if (0 <=? e)%Z then x
      else
        let sm := if s then Z.neg m else Z.pos m in
        let n := ((2 * sm + 2 ^ (- e)) / 2 ^ (1 - e))%Z in
        if (n =? 0)%Z then (if s then (-0)%float else 0%float)
        else if (0 <? n)%Z then of_Z_nonneg n
        else (- of_Z_nonneg (- n))%float
  | _ => x
  end.

(** Decimal digits of a non-negative integer, most significant first. *)
Fixpoint digits_go (fuel : nat) (n : Z) (acc : string) : string :=
  let acc' := String (Ascii.ascii_of_N (48 + Z.to_N (n mod 10))) acc in
  match fuel with
  | O => acc'
  | S k => if (n <? 10)%Z then acc' else digits_go k (n / 10) acc'
  end.

Definition digits (n : Z) : string :=
  digits_go (Z.to_nat (Z.log2 n)) n "".

(** [String(n)] for an integral Number [n] of magnitude below 10^21. *)
Definition string_of_int (n : Z) : string :=
  if (n <? 0)%Z then "-" +:+ digits (- n) else digits n.

(** [String(n).padStart(2,'0')]. *)
Definition pad2 (n : Z) : string :=
  let s := string_of_int n in
  if (String.length s <? 2)%nat then "0" +:+ s else s.

(** The result of [x.toFixed(f)]: a decimal string, or, for [x >= 10^21],
    [Number::toString(x)], an exponent notation that is kept unexpanded. *)
Inductive fixed : Type :=
  | FixedStr (s : string)
  | FixedSci (x : float).

Fixpoint zeros (k : nat) : string :=
  match k with O => "" | S k' => String "0"%char (zeros k') end.

(** Insert the decimal point [f] digits from the right, padding with
    zeros so that at least one digit stays in front of it. *)
Definition with_point (ds : string) (f : nat) : string :=
  let k := String.length ds in
  let ds' := if (k <=? f)%nat
             then zeros (f + 1 - k) +:+ ds
             else ds in
  let k' := String.length ds' in
  if (f =? 0)%nat then ds'
  else String.substring 0 (k' - f) ds' +:+ "." +:+ String.substring (k' - f) f ds'.

(** [Number.prototype.toFixed]: [n] is the integer nearest to
    [|x| * 10^f], the larger one on a tie. *)
Definition toFixed (x : float) (f : nat) : fixed :=
  match Prim2SF x with
  | S754_nan => FixedStr "NaN"
  | S754_infinity s => FixedStr (if s then "-Infinity" else "Infinity")
  | S754_zero _ => FixedStr (with_point "0" f)
  | S754_finite s m e =>
      if (abs x <? 1e21)%float then
        let p := (10 ^ Z.of_nat f)%Z in
        let n := if (0 <=? e)%Z then (Z.pos m * 2 ^ e * p)%Z
                 else ((2 * Z.pos m * p + 2 ^ (- e)) / 2 ^ (1 - e))%Z in
        FixedStr ((if s then "-" else "") +:+ with_point (digits n) f)
      else FixedSci x
  end.

End JS.

(** ** The client: constants, the bet record, the monetary normaliser

    [unnamed/part_001], lines 8-40. *)

Module Client.

(** [STATUS = { WON: 'Выиграна', LOST: 'Проиграна', PENDING: 'Нерасчитана' }] *)
Definition STATUS_WON : string := "Выиграна".
Definition STATUS_LOST : string := "Проиграна".
Definition STATUS_PENDING : string := "Нерасчитана".

Definition DEFAULT_RUB_RATE : float := 80.78%float.

(** A bet as the statistics engine reads it.  The engine reads the
    numeric fields only through [Number(.)], so each holds that Number
    ([NaN] for a field that is absent or not numeric); it reads the text
    fields only through [||], so an absent one is the empty string.  The
    display-only fields (match, bet, time) are never read by the engine
    and are left out. *)
Record Bet : Type := mkBet {
  id : string;
  status : string;
  stake_value : float;
  stake_currency : string;
  coef : float;
  win_value : float;
  win_currency : string;
  added_date : string
}.

(** [a || b] on strings. *)
Definition str_or (a b : string) : string :=
  if (a =? "")%string then b else a.

(** [const betUnit = (b) => (b.stake_currency || b.win_currency || 'USDT')] *)
Definition betUnit (b : Bet) : string :=
  str_or (str_or (stake_currency b) (win_currency b)) "USDT".

(** [function normalizedWinValue(b)] *)
Definition normalizedWinValue (b : Bet) : float :=
  let win := JS.or_zero (win_value b) in
  let stake := JS.or_zero (stake_value b) in
  if (status b =? STATUS_LOST)%string then
    if (win <? 0)%float then win
    else if JS.truthy stake then (- stake)%float else 0%float
  else if (status b =? STATUS_PENDING)%string then 0%float
  else (win - stake)%float.

(** The divisor [Number(rubRate) || DEFAULT_RUB_RATE] of [toUSDT]. *)
Definition rate_divisor (rubRate : float) : float :=
  JS.or_else rubRate DEFAULT_RUB_RATE.

(** [const toUSDT = (amount, b, rubRate) => ...] *)
Definition toUSDT (amount : float) (b : Bet) (rubRate : float) : float :=
  if (betUnit b =? "RUB")%string then (amount / rate_divisor rubRate)%float
  else amount.

(** [fetchRate], from the response on: [val] is [Number(j?.rubPerUsdt)],
    and [None] stands for a failed request ([!r.ok], or an exception). *)
Definition fetchRate (response : option float) : float :=
  match response with
  | Some val => if JS.finite_positive val then val else DEFAULT_RUB_RATE
  | None => DEFAULT_RUB_RATE
  end.

(** The handler of [rate:update] in [MobileHome]: the held rate changes
    only to a finite positive value. *)
Definition on_rate_update (rubRate : float) (val : float) : float :=
  if JS.finite_positive val then val else rubRate.

(** The rate state of [MobileHome]: [useState(DEFAULT_RUB_RATE)], then the
    result of [fetchRate] and the [rate:update] notifications, in the
    order they arrive. *)
Inductive rate_event : Type :=
  | RateFetched (response : option float)
  | RatePushed (val : float).

Definition rate_step (rubRate : float) (e : rate_event) : float :=
  match e with
  | RateFetched r => fetchRate r
  | RatePushed v => on_rate_update rubRate v
  end.

Definition held_rate (events : list rate_event) : float :=
  fold_left rate_step events DEFAULT_RUB_RATE.

(** *** Statistics: [calcStats], lines 170-182 *)

Definition eligible (bets : list Bet) : list Bet :=
  List.filter (fun b => negb (status b =? STATUS_PENDING)%string) bets.

Definition won_count (elig : list Bet) : nat :=
  length (List.filter (fun b => (status b =? STATUS_WON)%string) elig).

Record Stats : Type := mkStats {
  total : nat;
  winRate : float;
  profitUSDT : float;
  avgOdds : JS.fixed + float;
  roi : JS.fixed
}.

(** The three sums that [calcStats] computes with [reduce]. *)
Definition profit_sum (elig : list Bet) (rubRate : float) : float :=
  fold_left (fun a b => (a + toUSDT (normalizedWinValue b) b rubRate)%float)
            elig 0%float.

Definition stakes_sum (elig : list Bet) (rubRate : float) : float :=
  fold_left (fun a b => (a + toUSDT (JS.or_zero (stake_value b)) b rubRate)%float)
            elig 0%float.

Definition odds_sum (elig : list Bet) : float :=
  fold_left (fun a b => (a + JS.or_zero (coef b))%float) elig 0%float.

(** [Math.round(won/total*100)], or 0 when [total] is 0. *)
Definition win_rate (won total : nat) : float :=
  if (total =? 0)%nat then 0%float
  else JS.Math_round (JS.of_nat won / JS.of_nat total * 100)%float.

Definition calcStats (bets : list Bet) (rubRate : float) : Stats :=
  let eligible := eligible bets in
  let total := length eligible in
  let won := won_count eligible in
  let winRate := win_rate won total in
  let profitUSDT := profit_sum eligible rubRate in
  let sumStakesUSDT := stakes_sum eligible rubRate in
  let roi :=
    if JS.truthy sumStakesUSDT
    then JS.toFixed (profitUSDT / sumStakesUSDT * 100)%float 1
    else JS.FixedStr "0.0" in
  let avgOdds :=
    if (total =? 0)%nat then inr 0%float
    else inl (JS.toFixed (odds_sum eligible / JS.of_nat total)%float 2) in
  mkStats total winRate profitUSDT avgOdds roi.

(** *** Streak: [calcStreak], lines 185-198 *)

Inductive StreakKind : Type :=
  | KindNone      (* 'нет' *)
  | KindWins      (* 'побед' *)
  | KindLosses.   (* 'поражений' *)

Record Streak : Type := mkStreak { kind : StreakKind; count : nat }.

(** [list.findIndex(b => b.status !== STATUS.PENDING)], [None] for -1. *)
Fixpoint findIndex_decided (l : list Bet) : option nat :=
  match l with
  | [] => None
  | b :: l' =>
      if negb (status b =? STATUS_PENDING)%string then Some O
      else option_map S (findIndex_decided l')
  end.

(** The [for] loop of [calcStreak] over the entries from index [i] on:
    [continue] on a pending entry, [break] on the first other status,
    [count++] otherwise. *)
Fixpoint streak_loop (target : string) (rest : list Bet) (count : nat) : nat :=
  match rest with
  | [] => count
  | b :: rest' =>
      if (status b =? STATUS_PENDING)%string then streak_loop target rest' count
      else if negb (status b =? target)%string then count
      else streak_loop target rest' (S count)
  end.

Definition calcStreak (l : list Bet) : Streak :=
  if (length l =? 0)%nat then mkStreak KindNone 0
  else
    match findIndex_decided l with
    | None => mkStreak KindNone 0
    | Some firstIdx =>
        match nth_error l firstIdx with
        | None => mkStreak KindNone 0   (* not reached: firstIdx < length *)
        | Some first =>
            let target := status first in
            let count := streak_loop target (skipn firstIdx l) 0 in
            mkStreak (if (target =? STATUS_WON)%string then KindWins else KindLosses)
                     count
        end
    end.

End Client.

(** ** Dates

    The [Date] object of ECMAScript (sections "Time Values and Time
    Range" to "MakeDate"), as far as the window filter uses it.  A time
    value is the number of milliseconds since the epoch, in UTC.  Local
    time is UTC plus the zone's offset [tz], in milliseconds, which is
    taken to be the same all year (no daylight saving change); [TimeClip],
    the bound of about 275760 years around the epoch, is not modelled. *)

Module JSDate.
Local Open Scope Z_scope.

Definition msPerDay : Z := 86400000.

Definition Day (t : Z) : Z := t / msPerDay.

Definition DayFromYear (y : Z) : Z :=
  365 * (y - 1970) + (y - 1969) / 4 - (y - 1901) / 100 + (y - 1601) / 400.

Definition InLeapYear (y : Z) : Z :=
  if negb (y mod 4 =? 0) then 0
  else if negb (y mod 100 =? 0) then 1
  else if negb (y mod 400 =? 0) then 0
  else 1.

Definition DaysInYear (y : Z) : Z := 365 + InLeapYear y.

(** [YearFromTime]: the largest [y] with [DayFromYear y <= day].  The
    estimate from the mean length of a year is at most one year off. *)
Definition YearFromDay (day : Z) : Z :=
  let y0 := 1970 + (day * 400) / 146097 in
  if day <? DayFromYear y0 then y0 - 1
  else if DayFromYear (y0 + 1) <=? day then y0 + 1
  else y0.

(** Days of the year before month [m] (0 = January, 12 = the next
    January) in a year with [leap] leap days. *)
Definition DaysBeforeMonth (m leap : Z) : Z :=
  if m <=? 0 then 0
  else if m =? 1 then 31
  else if m =? 2 then 59 + leap
  else if m =? 3 then 90 + leap
  else if m =? 4 then 120 + leap
  else if m =? 5 then 151 + leap
  else if m =? 6 then 181 + leap
  else if m =? 7 then 212 + leap
  else if m =? 8 then 243 + leap
  else if m =? 9 then 273 + leap
  else if m =? 10 then 304 + leap
  else if m =? 11 then 334 + leap
  else 365 + leap.

Definition DayWithinYear (day : Z) : Z := day - DayFromYear (YearFromDay day).

(** [MonthFromTime], by the table of the standard. *)
Definition MonthFromDay (day : Z) : Z :=
  let d := DayWithinYear day in
  let leap := InLeapYear (YearFromDay day) in
  if d <? 31 then 0
  else if d <? 59 + leap then 1
  else if d <? 90 + leap then 2
  else if d <? 120 + leap then 3
  else if d <? 151 + leap then 4
  else if d <? 181 + leap then 5
  else if d <? 212 + leap then 6
  else if d <? 243 + leap then 7
  else if d <? 273 + leap then 8
  else if d <? 304 + leap then 9
  else if d <? 334 + leap then 10
  else 11.

Definition DateFromDay (day : Z) : Z :=
  DayWithinYear day
  - DaysBeforeMonth (MonthFromDay day) (InLeapYear (YearFromDay day)) + 1.

(** [MakeDay(year, month, date)]: months beyond 0..11 carry into the
    year, and the date counts on from the first of the month. *)
Definition MakeDay (year month date : Z) : Z :=
  let ym := year + month / 12 in
  let mn := month mod 12 in
  DayFromYear ym + DaysBeforeMonth mn (InLeapYear ym) + date - 1.

(** [new Date(year, monthIndex, date).getTime()]: local midnight of that
    day; a year from 0 to 99 is read as 1900 + year. *)
Definition Date_ymd (tz : Z) (year monthIndex date : Z) : Z :=
  let yr := if (0 <=? year) && (year <=? 99) then 1900 + year else year in
  MakeDay yr monthIndex date * msPerDay - tz.

(** The local-time getters of [new Date(t)]. *)
Definition getFullYear (tz t : Z) : Z := YearFromDay (Day (t + tz)).
Definition getMonth (tz t : Z) : Z := MonthFromDay (Day (t + tz)).
Definition getDate (tz t : Z) : Z := DateFromDay (Day (t + tz)).

(** The wall clock of one evaluation: what [Date.now()] (and so
    [new Date()]) reads, and the zone offset. *)
Record Clock : Type := mkClock { now : Z; tz : Z }.

End JSDate.

(** ** The client: the window filter

    [unnamed/part_001], lines 125-167. *)

Module Window.
Import Client JSDate.
Local Open Scope Z_scope.

(** *** [String.prototype.trim]

    The white space and line terminators of ECMAScript, as UTF-8 byte
    sequences: U+0009..U+000D, U+0020, U+00A0, U+1680, U+2000..U+200A,
    U+2028, U+2029, U+202F, U+205F, U+3000, U+FEFF. *)
Definition bytes (l : list N) : list ascii := List.map ascii_of_N l.

Definition white_space : list (list ascii) :=
  List.map bytes
    [ [9]; [10]; [11]; [12]; [13]; [32]; [194; 160]; [225; 154; 128];
      [226; 128; 128]; [226; 128; 129]; [226; 128; 130]; [226; 128; 131];
      [226; 128; 132]; [226; 128; 133]; [226; 128; 134]; [226; 128; 135];
      [226; 128; 136]; [226; 128; 137]; [226; 128; 138]; [226; 128; 168];
      [226; 128; 169]; [226; 128; 175]; [226; 129; 159]; [227; 128; 128];
      [239; 187; 191] ]%N.

Fixpoint drop_prefix (p l : list ascii) : option (list ascii) :=
  match p, l with
  | [], _ => Some l
  | c :: p', d :: l' => if Ascii.eqb c d then drop_prefix p' l' else None
  | _ :: _, [] => None
  end.

Fixpoint drop_any (ps : list (list ascii)) (l : list ascii) : option (list ascii) :=
  match ps with
  | [] => None
  | p :: ps' => match drop_prefix p l with
                | Some l' => Some l'
                | None => drop_any ps' l
                end
  end.

Fixpoint strip (ps : list (list ascii)) (fuel : nat) (l : list ascii) : list ascii :=
  match fuel with
  | O => l
  | S k => match drop_any ps l with
           | Some l' => strip ps k l'
           | None => l
           end
  end.

Definition trim (s : string) : string :=
  let l := list_ascii_of_string s in
  let l1 := strip white_space (length l) l in
  let l2 := strip (List.map (@rev ascii) white_space) (length l1) (rev l1) in
  string_of_list_ascii (rev l2).

(** *** The pattern [/^(\d{1,2})\/(\d{1,2})\/(\d{4})$/] *)

Definition is_digit (c : ascii) : bool :=
  let n := N_of_ascii c in ((48 <=? n) && (n <=? 57))%N.

Definition digit_val (c : ascii) : Z := Z.of_N (N_of_ascii c) - 48.

(** [(\d{1,2})\/]: one or two digits and the slash after them; the
    Number of the digits and the rest of the input. *)
Definition digits12_slash (s : string) : option (Z * string) :=
  match s with
  | String c1 (String "/" rest) =>
      if is_digit c1 then Some (digit_val c1, rest) else None
  | String c1 (String c2 (String "/" rest)) =>
      if is_digit c1 && is_digit c2
      then Some (10 * digit_val c1 + digit_val c2, rest) else None
  | _ => None
  end.

(** [(\d{4})$]: exactly four digits, then the end of the input. *)
Definition digits4_end (s : string) : option Z :=
  match s with
  | String c1 (String c2 (String c3 (String c4 EmptyString))) =>
      if is_digit c1 && is_digit c2 && is_digit c3 && is_digit c4
      then Some (1000 * digit_val c1 + 100 * digit_val c2
                 + 10 * digit_val c3 + digit_val c4)
      else None
  | _ => None
  end.

(** The match of the pattern: [(Number(m[1]), Number(m[2]), Number(m[3]))]. *)
Definition matchDMY (s : string) : option (Z * Z * Z) :=
  match digits12_slash s with
  | Some (d, s1) =>
      match digits12_slash s1 with
      | Some (mo, s2) =>
          match digits4_end s2 with
          | Some y => Some (d, mo, y)
          | None => None
          end
      | None => None
      end
  | None => None
  end.

(** [function todayDMY()] *)
Definition todayDMY (c : Clock) : string :=
  JS.pad2 (getDate (tz c) (now c)) +:+ "/" +:+
  JS.pad2 (getMonth (tz c) (now c) + 1) +:+ "/" +:+
  JS.string_of_int (getFullYear (tz c) (now c)).

(** [function parseDMYtoMs(dmy)]; [None] is [NaN]. *)
Definition parseDMYtoMs (tz : Z) (dmy : string) : option Z :=
  match matchDMY (trim dmy) with
  | None => None
  | Some (d, mo, y) =>
      let dt := Date_ymd tz y (mo - 1) d in
      if negb (getFullYear tz dt =? y)
         || negb (getMonth tz dt + 1 =? mo)
         || negb (getDate tz dt =? d)
      then None
      else Some dt
  end.

(** [function startOfDayMs(ms)].  With the one offset of the zone, the
    local midnight is a whole number of days after the epoch, less the
    offset; where the offset changes with the season, the midnight of
    the day of a change is an hour off this. *)
Definition startOfDayMs (tz ms : Z) : Z :=
  Date_ymd tz (getFullYear tz ms) (getMonth tz ms)
                  (getDate tz ms).

(** The period, a state that only ever holds one of these three strings
    (the function itself treats any string but the first two as MONTH). *)
Inductive Period : Type := DAY | WEEK | MONTH.

(** The three predicates handed to [bets.filter].  DAY compares strings.
    WEEK compares the parsed midnight with today's midnight less six
    times 24 hours, which is the midnight six days back as long as the
    offset of the zone has not changed in between.  MONTH compares three
    midnights built by [new Date(y, m, d)]. *)
Definition in_day (c : Clock) (b : Bet) : bool :=
  (trim (added_date b) =? todayDMY c)%string.

Definition in_week (c : Clock) (b : Bet) : bool :=
  let todayMs := startOfDayMs (tz c) (now c) in
  let startMs := todayMs - 6 * 24 * 60 * 60 * 1000 in
  let endMs := todayMs + 24 * 60 * 60 * 1000 - 1 in
  match parseDMYtoMs (tz c) (added_date b) with
  | Some t => (startMs <=? t) && (t <=? endMs)
  | None => false
  end.

Definition in_month (c : Clock) (b : Bet) : bool :=
  let y := getFullYear (tz c) (now c) in
  let m := getMonth (tz c) (now c) in
  let startMonthMs := Date_ymd (tz c) y m 1 in
  let startNextMonthMs := Date_ymd (tz c) y (m + 1) 1 in
  match parseDMYtoMs (tz c) (added_date b) with
  | Some t => (startMonthMs <=? t) && (t <? startNextMonthMs)
  | None => false
  end.

(** [function filterBetsByAddedDate(bets, period)].  The source reads
    the clock up to three times in one call ([todayDMY], [Date.now()],
    [new Date()]); the readings are taken to be the same instant. *)
Definition filterBetsByAddedDate (c : Clock) (bets : list Bet) (period : Period)
  : list Bet :=
  match period with
  | DAY => List.filter (in_day c) bets
  | WEEK => List.filter (in_week c) bets
  | MONTH => List.filter (in_month c) bets
  end.

End Window.

(** ** The client: the live state synchroniser

    [useRealtimeBets], [unnamed/part_001] lines 88-123: the handler of
    [bets:update] and the continuation of the [fetchMeta] it starts. *)

Module Sync.
Import Client.

(** A notification payload, decoded the way the handler tests it. *)
Inductive payload : Type :=
  | PArray (items : list Bet)
      (* [Array.isArray(payload)] *)
  | PObject (items : option (list Bet)) (updatedAt : float)
      (* any other non-null object: [items] is [payload.items] when it is
         truthy, [updatedAt] is [Number(payload.updatedAt)] *)
  | POther.
      (* [undefined], [null] or a primitive *)

(** What the hook holds: the bet cache, the marker [lastEventAt], and the
    Number whose String is stored under [betoff_last_update]. *)
Record state : Type := mkState {
  bets : list Bet;
  lastEventAt : float;
  stored : option float
}.

(** The handler of [bets:update]; [now] is what [Date.now()] reads.  The
    array branch does not return, so it runs on into the last three
    lines; it also starts a [fetchMeta], whose answer is [on_meta]. *)
Definition on_bets_update (now : float) (p : payload) (st : state) : state :=
  match p with
  | PArray items =>
      mkState items now (Some now)
  | PObject items updatedAt =>
      let ts := JS.or_else updatedAt now in
      mkState (match items with Some l => l | None => [] end) ts (Some ts)
  | POther =>
      mkState (bets st) now (Some now)
  end.

Definition starts_fetchMeta (p : payload) : bool :=
  match p with PArray _ => true | _ => false end.

(** [fetchMeta().then(ts => { if(ts) setLastEventAt(ts) })]; [ts] is 0
    when the request failed. *)
Definition on_meta (ts : float) (st : state) : state :=
  if JS.truthy ts then mkState (bets st) ts (stored st) else st.

(** One notification together with the answer to the [fetchMeta] it may
    have started. *)
Definition apply_update (now meta : float) (p : payload) (st : state) : state :=
  let st' := on_bets_update now p st in
  if starts_fetchMeta p then on_meta meta st' else st'.

End Sync.

(** ** The server

    [unnamed/part_003]: the in-memory collection, the files, the
    broadcast channel and the five mutating routes. *)

Module Server.
Import JSDate.

(** JSON values, as [express.json()] hands them to the routes. *)
#[warnings="-register-all"]
Inductive json : Type :=
  | JNull
  | JBool (b : bool)
  | JNum (x : float)
  | JStr (s : string)
  | JArr (l : list json)
  | JObj (m : gmap string json).

(** A JavaScript object read as a map from its keys to their values; an
    absent key reads as [undefined], here [None]. *)
Abbreviation record := (gmap string json).

(** [ToBoolean]. *)
Definition truthy (v : option json) : bool :=
  match v with
  | None | Some JNull => false
  | Some (JBool b) => b
  | Some (JNum x) => JS.truthy x
  | Some (JStr s) => negb (s =? "")%string
  | Some (JArr _) | Some (JObj _) => true
  end.

Section Builtins.

(** [Number::toString] of ECMAScript (the shortest decimal that reads
    back as the same Number).  The routes use it only to compare a
    numeric [id] with the id of the request. *)
Variable NumberToString : float -> string.

Definition join (ss : list string) : string :=
  match ss with
  | [] => ""
  | s :: ss' => fold_left (fun acc t => acc +:+ "," +:+ t) ss' s
  end.

(** [String(v)]. An array is joined with commas, [null] elements as the
    empty string. *)
Fixpoint ToString_json (v : json) : string :=
  match v with
  | JNull => "null"
  | JBool b => if b then "true" else "false"
  | JNum x => NumberToString x
  | JStr s => s
  | JArr l =>
      join (List.map (fun e => match e with
                               | JNull => ""
                               | _ => ToString_json e
                               end) l)
  | JObj _ => "[object Object]"
  end.

Definition ToString (v : option json) : string :=
  match v with
  | None => "undefined"
  | Some j => ToString_json j
  end.

End Builtins.

(** [JSON.parse(JSON.stringify(v))]: a value as it is read back once it
    has been written as JSON, to a file, to an answer or to a socket.  A
    Number that is not finite is written [null], and [-0] is written
    [0]; everything else is read back as it was. *)
Fixpoint to_JSON (v : json) : json :=
  match v with
  | JNum x =>
      if is_finite x
      then (if (x =? 0)%float then JNum 0%float else JNum x)
      else JNull
  | JArr l => JArr (List.map to_JSON l)
  | JObj m => JObj (to_JSON <$> m)
  | _ => v
  end.

Definition record_to_JSON (x : record) : record := to_JSON <$> x.

(** The number of constructors of a value, on which the facts about
    [to_JSON] are proved. *)
Fixpoint json_size (v : json) : nat :=
  match v with
  | JArr l => S (list_sum (List.map json_size l))
  | JObj m => S (map_fold (fun _ x n => (json_size x + n)%nat) 0%nat m)
  | _ => 1%nat
  end.

(** [process.env.ADMIN_PASSWORD || 'betoff07'] *)
Definition ADMIN_PASSWORD (env : option string) : string :=
  match env with
  | Some s => if (s =? "")%string then "betoff07" else s
  | None => "betoff07"
  end.

Definition DEFAULT_RUB_RATE : float := 80.78%float.

(** The content of [rate.json], and of [rateCache]. *)
Record rate : Type := mkRate { rubPerUsdt : float; rate_updatedAt : option Z }.

(** The files: [bets.json], the [backups] directory (one file per time
    stamp) and [rate.json]; each file is its content as [JSON.parse]
    reads it. *)
Record files : Type := mkFiles {
  bets_file : option (list record);
  backups : gmap Z (list record);
  rate_file : option rate
}.

(** What [io.emit] sent, as it is read at the other end of the socket. *)
Inductive broadcast : Type :=
  | BetsUpdate (items : list record) (updatedAt : Z)
  | RateUpdate (rubPerUsdt : float).

Record state : Type := mkState {
  cache : list record;
  rateCache : rate;
  disk : files;
  emitted : list broadcast
}.

(** A request to one of the mutating routes, once [express.json()] has
    parsed its body.  The collection is one of bet records: its elements,
    the elements of the array of a PUT and the bodies of POST and PATCH
    are JSON objects.  (PUT itself stores whatever elements the array
    has; an element that is not an object is left undated by it, and on a
    [null] element PATCH and DELETE throw.  Such collections are not
    described here.)  The [id] of PATCH and DELETE is the segment of the
    path that [/api/bets/:id] has matched, which is never empty. *)
Inductive route : Type :=
  | PutRate (body_rubPerUsdt : float)       (* [Number(body.rubPerUsdt)] *)
  | PutBets (body : option (list record))   (* [None]: not an array *)
  | PostBet (body : record)
  | PatchBet (id : string) (body : record)
  | DeleteBet (id : string).

Record request : Type := mkRequest {
  x_admin_password : option string;   (* the header, if sent *)
  target : route
}.

Inductive response : Type :=
  | Ok
  | OkRate (rubPerUsdt : float)
  | OkId (id : option json)
  | Error (status : Z) (error : string).

(** [function formatDMY(d = new Date())] *)
Definition formatDMY (c : Clock) : string :=
  JS.pad2 (getDate (tz c) (now c)) +:+ "/" +:+
  JS.pad2 (getMonth (tz c) (now c) + 1) +:+ "/" +:+
  JS.string_of_int (getFullYear (tz c) (now c)).

(** [function writeBets(list, doBackup)], always called with a backup:
    both files get [JSON.stringify(list)], and the backup is named by the
    clock as [new Date()] reads it, to the millisecond. *)
Definition writeBets (c : Clock) (l : list record) (d : files) : files :=
  mkFiles (Some (record_to_JSON <$> l))
          (<[now c := record_to_JSON <$> l]> (backups d)) (rate_file d).

(** [function writeRate(val)] *)
Definition writeRate (c : Clock) (val : float) (d : files) : rate * files :=
  let obj := mkRate (if JS.finite_positive val then val else DEFAULT_RUB_RATE)
                    (Some (now c)) in
  (obj, mkFiles (bets_file d) (backups d) (Some obj)).

(** The own enumerable properties of an array, which [{ ...arr }]
    copies: its elements under their indices. *)
Definition spread_array (l : list json) : record :=
  list_to_map (imap (fun i v => (JS.string_of_int (Z.of_nat i), v)) l).

(** [function ensureAddedDateOnArray(arr)], on any array.  The test
    [item && typeof item === 'object'] holds of objects and of arrays,
    and an array has no [added_date]. *)
Definition ensureAddedDateOnArray_json (c : Clock) (arr : list json)
  : list json :=
  let today := formatDMY c in
  List.map (fun item =>
              match item with
              | JObj m =>
                  if negb (truthy (m !! "added_date"))
                  then JObj (<["added_date" := JStr today]> m)
                  else item
              | JArr l => JObj (<["added_date" := JStr today]> (spread_array l))
              | _ => item
              end) arr.

(** The same on an array of JSON objects, which is what PUT is given
    here: what is left of the condition is [!item.added_date]. *)
Definition ensureAddedDateOnArray (c : Clock) (arr : list record) : list record :=
  let today := formatDMY c in
  List.map (fun item : record =>
              if negb (truthy (item !! "added_date"))
              then <["added_date" := JStr today]> item
              else item) arr.

(** [function readBets()] and [function readRate()], which fill [cache]
    and [rateCache] when the server starts. *)
Definition readBets (d : files) : list record :=
  match bets_file d with Some l => l | None => [] end.

Definition readRate (d : files) : rate :=
  match rate_file d with
  | Some r => if JS.finite_positive (rubPerUsdt r)
              then mkRate (rubPerUsdt r) None
              else mkRate DEFAULT_RUB_RATE None
  | None => mkRate DEFAULT_RUB_RATE None
  end.

Definition boot (d : files) : state :=
  mkState (readBets d) (readRate d) d [].

(** The test every mutating route starts with:
    [String(req.headers['x-admin-password'] || '') !== String(ADMIN_PASSWORD)];
    [pw] is the header, if sent. *)
Definition authorized (env : option string) (pw : option string) : bool :=
  (match pw with Some s => s | None => "" end =? ADMIN_PASSWORD env)%string.

Section Routes.
Variable NumberToString : float -> string.
Variable env : option string.   (* [process.env.ADMIN_PASSWORD] *)

(** [cache.findIndex(x => String(x.id) === id)] *)
Fixpoint findIndex_id (id : string) (l : list record) : option nat :=
  match l with
  | [] => None
  | x :: l' =>
      if (ToString NumberToString (x !! "id") =? id)%string then Some O
      else option_map S (findIndex_id id l')
  end.

(** The merge of PATCH: [{ ...cache[idx], ...patch }], then the guard on
    [added_date]. *)
Definition merge_patch (c : Clock) (old patch : record) : record :=
  let merged : record := patch ∪ old in
  if negb (truthy (merged !! "added_date"))
  then <["added_date" := JStr (formatDMY c)]> merged
  else merged.

(** The three steps that end every change of the collection:
    [cache = ...; writeBets(cache, true); io.emit('bets:update', ...)].
    The clock is read once more for the name of the backup and once more
    for the [updatedAt] of the broadcast; a request is taken to be served
    within one reading of the clock, so that both are [now c]. *)
Definition committed (c : Clock) (st : state) (cache' : list record) : state :=
  mkState cache' (rateCache st) (writeBets c cache' (disk st))
          (emitted st ++ [BetsUpdate (record_to_JSON <$> cache') (now c)]).

(** [app.put('/api/rate', ...)]; [val] is [Number(body.rubPerUsdt)]. *)
Definition put_api_rate (c : Clock) (st : state) (pw : option string)
    (val : float) : state * response :=
  if negb (authorized env pw) then (st, Error 401 "auth")
  else if negb (JS.finite_positive val) then (st, Error 400 "invalid rate")
  else
    let '(obj, d) := writeRate c val (disk st) in
    (mkState (cache st) obj d (emitted st ++ [RateUpdate (rubPerUsdt obj)]),
     OkRate (rubPerUsdt obj)).

(** [app.put('/api/bets', ...)]; a [body] of [None] is not an array. *)
Definition put_api_bets (c : Clock) (st : state) (pw : option string)
    (body : option (list record)) : state * response :=
  if negb (authorized env pw) then (st, Error 401 "auth")
  else
    match body with
    | None => (st, Error 400 "array required")
    | Some arr => (committed c st (ensureAddedDateOnArray c arr), Ok)
    end.

(** [app.post('/api/bets', ...)] *)
Definition post_api_bets (c : Clock) (st : state) (pw : option string)
    (body : record) : state * response :=
  if negb (authorized env pw) then (st, Error 401 "auth")
  else
    let obj : record :=
      if negb (truthy (body !! "id"))
      then <["id" := JStr (JS.string_of_int (now c))]> body else body in
    let obj : record :=
      if negb (truthy (obj !! "added_date"))
      then <["added_date" := JStr (formatDMY c)]> obj else obj in
    (committed c st (obj :: cache st), OkId (obj !! "id")).

(** [app.patch('/api/bets/:id', ...)] *)
Definition patch_api_bets_id (c : Clock) (st : state) (pw : option string)
    (id : string) (patch : record) : state * response :=
  if negb (authorized env pw) then (st, Error 401 "auth")
  else
    match findIndex_id id (cache st) with
    | None => (st, Error 404 "not found")
    | Some idx =>
        match cache st !! idx with
        | None => (st, Error 404 "not found")   (* not reached *)
        | Some old =>
            (committed c st (<[idx := merge_patch c old patch]> (cache st)), Ok)
        end
    end.

(** [app.delete('/api/bets/:id', ...)]: the collection is filtered
    before the lengths are compared. *)
Definition delete_api_bets_id (c : Clock) (st : state) (pw : option string)
    (id : string) : state * response :=
  if negb (authorized env pw) then (st, Error 401 "auth")
  else
    let cache' :=
      List.filter (fun x : record =>
                     negb (ToString NumberToString (x !! "id") =? id)%string)
                  (cache st) in
    if (length cache' =? length (cache st))%nat
    then (mkState cache' (rateCache st) (disk st) (emitted st),
          Error 404 "not found")
    else (committed c st cache', Ok).

(** The router. *)
Definition handle (c : Clock) (st : state) (r : request) : state * response :=
  let pw := x_admin_password r in
  match target r with
  | PutRate val => put_api_rate c st pw val
  | PutBets body => put_api_bets c st pw body
  | PostBet body => post_api_bets c st pw body
  | PatchBet id patch => patch_api_bets_id c st pw id patch
  | DeleteBet id => delete_api_bets_id c st pw id
  end.

End Routes.

(** *** The reading routes and the life of the server

    [app.get('/api/auth/check')], [app.get('/api/rate')],
    [app.get('/api/bets')] and the callback of [server.listen],
    [unnamed/part_003] lines 92-114 and 204-210. *)

Section Life.
Variable NumberToString : float -> string.
Variable env : option string.

(** [app.get('/api/auth/check', ...)]: the status of the answer. *)
Definition get_api_auth_check (pw : option string) : Z :=
  if (match pw with Some s => s | None => "" end =? ADMIN_PASSWORD env)%string
  then 200%Z else 401%Z.

(** [app.get('/api/rate', ...)]: the file is read again into [rateCache]
    before the answer is sent. *)
Definition get_api_rate (st : state) : state * response :=
  let r := readRate (disk st) in
  (mkState (cache st) r (disk st) (emitted st), OkRate (rubPerUsdt r)).

(** [app.get('/api/bets', ...)]: the body of the answer, as the client
    reads it. *)
Definition get_api_bets (st : state) : list record :=
  record_to_JSON <$> cache st.

(** The start: the module is loaded, which fills [cache] and
    [rateCache], and the callback of [server.listen] writes [rate.json]
    when it does not exist. *)
Definition listen (d : files) : state :=
  let st := boot d in
  match rate_file d with
  | Some _ => st
  | None =>
      mkState (cache st) (rateCache st)
              (mkFiles (bets_file d) (backups d)
                       (Some (mkRate DEFAULT_RUB_RATE (Some 0%Z))))
              (emitted st)
  end.

(** The calls that change what the server holds, in the order they are
    served; each mutating request comes with the clock it is served at. *)
Inductive call : Type :=
  | Mutate (c : Clock) (r : request)
  | GetRate.

Definition serve (st : state) (k : call) : state :=
  match k with
  | Mutate c r => fst (handle NumberToString env c st r)
  | GetRate => fst (get_api_rate st)
  end.

Definition run (d : files) (calls : list call) : state :=
  fold_left serve calls (listen d).

End Life.

End Server.

(** ** The client: the admin page

    [AdminPage], [unnamed/part_001] lines 549-745: the quick status
    buttons, the import of a JSON file, the handler of [bets:update] and
    the guard on the rate that is typed in. *)

Module Admin.
Import Client JSDate.

(** [const round2 = (n) => Math.round((Number(n)||0) * 100) / 100],
    line 19. *)
Definition round2 (n : float) : float :=
  (JS.Math_round (JS.or_zero n * 100) / 100)%float.

(** The patch that [quickStatus] builds; [patch_stake_currency] is [None]
    when the patch has no such field. *)
Record Patch : Type := mkPatch {
  patch_status : string;
  patch_win_value : float;
  patch_win_currency : string;
  patch_stake_currency : option string
}.

(** [const quickStatus = async (b, to) => ...], up to the request. *)
Definition quickStatus (b : Bet) (to : string) : Patch :=
  let stake := JS.or_zero (stake_value b) in
  let coef := JS.or_zero (coef b) in
  let currency := str_or (str_or (win_currency b) (stake_currency b)) "USDT" in
  let stake_currency :=
    if (stake_currency b =? "")%string then Some "USDT" else None in
  if (to =? STATUS_WON)%string then
    mkPatch STATUS_WON (round2 (stake * coef)) currency stake_currency
  else if (to =? STATUS_LOST)%string then
    mkPatch STATUS_LOST (- abs stake) currency stake_currency
  else
    mkPatch STATUS_PENDING 0 currency stake_currency.

(** A Number written by [JSON.stringify] and read back by the engine
    through [Number(.)]: [NaN] and the infinities are written [null],
    which reads as 0, and [-0] is written [0]. *)
Definition through_JSON (x : float) : float :=
  if is_finite x then (if (x =? 0)%float then 0%float else x) else 0%float.

(** The bet [b] as the engine reads it once the server has merged the
    patch into it: the fields of the patch replace those of the bet, and
    the guard of the server dates a bet that has no date. *)
Definition patched (c : Clock) (b : Bet) (p : Patch) : Bet :=
  mkBet (id b) (patch_status p) (stake_value b)
        (match patch_stake_currency p with
         | Some s => s
         | None => stake_currency b
         end)
        (coef b) (through_JSON (patch_win_value p)) (patch_win_currency p)
        (if (added_date b =? "")%string then Server.formatDMY c
         else added_date b).

(** [[STATUS.WON, STATUS.LOST, STATUS.PENDING].includes(s)] *)
Definition known_status (s : string) : bool :=
  (s =? STATUS_WON)%string || (s =? STATUS_LOST)%string
  || (s =? STATUS_PENDING)%string.

(** [function normalizeImportedBet(b)], on the fields the engine reads.
    [raw_id] is [b.id] as the file has it, any JSON value or none, which
    is tested for truthiness before [String] is applied to it (the field
    [id b] is not read); [now] is what [Date.now()] reads and [random]
    is [Math.random().toString(16).slice(2)].  The object returned has
    no [added_date]. *)
Definition normalizeImportedBet (NumberToString : float -> string)
    (raw_id : option Server.json) (now : Z) (random : string) (b : Bet) : Bet :=
  let status := if known_status (status b) then status b else STATUS_PENDING in
  let stake := JS.or_zero (stake_value b) in
  let coef := JS.or_zero (coef b) in
  let win := win_value b in
  let win :=
    if is_nan win then
      if (status =? STATUS_WON)%string then round2 (stake * coef)
      else if (status =? STATUS_LOST)%string then (- abs stake)%float
      else 0%float
    else win in
  let stake_currency := str_or (stake_currency b) "USDT" in
  let win_currency := str_or (win_currency b) stake_currency in
  mkBet (Server.ToString NumberToString
           (if Server.truthy raw_id then raw_id
            else Some (Server.JStr (JS.string_of_int now +:+ random))))
        status stake stake_currency coef win win_currency "".

(** What the admin page holds of the collection and of the editor. *)
Record state : Type := mkState {
  bets : list Bet;
  jsonText : string;
  editingId : string
}.

(** The handler of [bets:update] of the admin page, lines 719-723. *)
Definition on_bets_update (data : Sync.payload) (st : state) : state :=
  let items := match data with
               | Sync.PArray items => items
               | Sync.PObject (Some items) _ => items
               | _ => []
               end in
  mkState items
          (if (editingId st =? "")%string then "" else jsonText st)
          (editingId st).

(** The guard of [saveRubRate]: the request is sent unless
    [!isFinite(val) || val <= 0]. *)
Definition saveRubRate_sends (val : float) : bool :=
  negb (negb (is_finite val) || (val <=? 0)%float).

End Admin.

(** ** The older copies

    [client/src/App.jsx] and [server/server.js] hold an older version of
    the same functions, before currencies and calendar windows: the
    normaliser returns the payout of a won bet as it is stored, the streak
    looks at the first fifteen entries only, and PATCH has no guard on
    [added_date]. *)

Module Legacy.
Import Client.

(** [function normalizedWinValue(b)], [client/src/App.jsx] lines 17-27. *)
Definition normalizedWinValue (b : Bet) : float :=
  let win := JS.or_zero (win_value b) in
  let stake := JS.or_zero (stake_value b) in
  if (status b =? STATUS_LOST)%string then
    if (win <? 0)%float then win
    else if JS.truthy stake then (- stake)%float else 0%float
  else if (status b =? STATUS_PENDING)%string then 0%float
  else win.

(** [function calcStreak(all)], [client/src/App.jsx] lines 120-133. *)
Definition calcStreak (all : list Bet) : Streak :=
  let slice := firstn 15 all in
  match findIndex_decided slice with
  | None => mkStreak KindNone 0
  | Some firstIdx =>
      match nth_error slice firstIdx with
      | None => mkStreak KindNone 0
      | Some first =>
          let target := status first in
          mkStreak (if (target =? STATUS_WON)%string then KindWins else KindLosses)
                   (streak_loop target (skipn firstIdx slice) 0)
      end
  end.

(** The merge of PATCH in [server/server.js], lines 95-106. *)
Definition merge_patch (old patch : Server.record) : Server.record :=
  patch ∪ old.

(** [app.patch('/api/bets/:id', ...)] of [server/server.js], lines
    95-106.  The older server holds no rate; the state is that of the
    current server, whose rate it never reads or writes. *)
Definition patch_api_bets_id (NumberToString : float -> string)
    (env : option string) (c : JSDate.Clock) (st : Server.state)
    (pw : option string) (id : string) (patch : Server.record)
  : Server.state * Server.response :=
  if negb (Server.authorized env pw) then (st, Server.Error 401 "auth")
  else
    match Server.findIndex_id NumberToString id (Server.cache st) with
    | None => (st, Server.Error 404 "not found")
    | Some idx =>
        match Server.cache st !! idx with
        | None => (st, Server.Error 404 "not found")   (* not reached *)
        | Some old =>
            (Server.committed c st
               (<[idx := merge_patch old patch]> (Server.cache st)),
             Server.Ok)
        end
    end.

End Legacy.

(** ** The specification in its own words

    Definitions that follow the wording of the specification, against
    which the functions of the source are compared in Part II. *)

Module Spec.
Import Client.

(** The streak as the specification words it: over the entries that are
    not PENDING, in order, the target is the status of the first one and
    the length is that of the longest prefix whose entries all have the
    target's status. *)
Definition decided (l : list Bet) : list Bet :=
  List.filter (fun b => negb (status b =? STATUS_PENDING)%string) l.

Fixpoint run_length (target : string) (decided : list Bet) : nat :=
  match decided with
  | [] => 0
  | b :: rest =>
      if (status b =? target)%string then S (run_length target rest) else 0
  end.

Definition currentStreak_spec (l : list Bet) : Streak :=
  match decided l with
  | [] => mkStreak KindNone 0
  | first :: _ =>
      mkStreak (if (status first =? STATUS_WON)%string then KindWins else KindLosses)
               (run_length (status first) (decided l))
  end.

(** The cache after a notification, read off the payload alone: a full
    replacement for an array or an object, no change otherwise. *)
Definition cache_of (p : Sync.payload) (before : list Bet) : list Bet :=
  match p with
  | Sync.PArray items => items
  | Sync.PObject (Some items) _ => items
  | Sync.PObject None _ => []
  | Sync.POther => before
  end.

(** The days of month [m] (1 = January) in a year with [leap] leap days:
    thirty days have September, April, June and November. *)
Definition DaysInMonth (m leap : Z) : Z :=
  (if m =? 2 then 28 + leap
   else if (m =? 4) || (m =? 6) || (m =? 9) || (m =? 11) then 30
   else 31)%Z.

(** A date of the calendar: a month from 1 to 12 and a day that the
    month has. *)
Definition valid_date (y mo d : Z) : Prop :=
  (1 <= mo <= 12 /\ 1 <= d <= DaysInMonth mo (JSDate.InLeapYear y))%Z.

End Spec.

(** ** Sample data

    The bets, clocks and server states of the examples in Part II. *)

Module Samples.
Import Client JSDate.

Definition won_100_200 : Bet :=
  mkBet "1" STATUS_WON 100 "USDT" 2 200 "USDT" "01/01/2024".

Definition lost_50_0 : Bet :=
  mkBet "2" STATUS_LOST 50 "USDT" 2 0 "USDT" "01/01/2024".

Definition lost_negative_stake : Bet :=
  mkBet "3" STATUS_LOST (-5) "USDT" 2 0 "USDT" "01/01/2024".

Definition rub_bet : Bet :=
  mkBet "4" STATUS_WON 1000 "RUB" 2 2000 "RUB" "01/01/2024".

Definition pending_bet : Bet :=
  mkBet "5" STATUS_PENDING 70 "USDT" 3 0 "USDT" "01/01/2024".

(** A status outside the three of [STATUS], and a stake that is not a
    number. *)
Definition refunded_bet : Bet :=
  mkBet "6" "Возврат" nan "USDT" 2 30 "USDT" "01/01/2024".

Definition with_status (s : string) : Bet :=
  mkBet "7" s 10 "USDT" 2 20 "USDT" "01/01/2024".

Definition dated (s : string) : Bet :=
  mkBet "8" STATUS_WON 10 "USDT" 2 20 "USDT" s.

(** A bet with no currency of the stake, and a win in RUB. *)
Definition rub_win_only : Bet :=
  mkBet "9" STATUS_PENDING 1000 "" 2 0 "RUB" "01/01/2024".

(** Midday of 2 March 2024, three hours east of Greenwich: the day that
    a date built from day 31 of month 2 of 2024 would fall on. *)
Definition clock_2024_03_02 : Clock := mkClock 1709370000000 10800000.

(** One in the afternoon of 3 November 2026, three hours east. *)
Definition clock_2026_11_03 : Clock := mkClock 1793700000000 10800000.

(** The first instant of the year 10000, in UTC. *)
Definition clock_10000 : Clock := mkClock 253402300800000 0.

(** A stand-in for [Number::toString] in the examples, where no id is a
    Number. *)
Definition NaN_string (x : float) : string := "NaN".

Definition record_7 : Server.record :=
  {[ "id" := Server.JStr "7"; "status" := Server.JStr STATUS_PENDING;
     "stake_value" := Server.JNum 10; "coef" := Server.JNum 2;
     "added_date" := Server.JStr "01/01/2024" ]}.

Definition record_8 : Server.record :=
  {[ "id" := Server.JStr "8"; "status" := Server.JStr STATUS_LOST;
     "stake_value" := Server.JNum 5 ]}.

(** The server started on a file of two bets. *)
Definition state_0 : Server.state :=
  Server.boot (Server.mkFiles (Some [record_8; record_7]) ∅ None).

Definition patch_won : Server.record :=
  {[ "status" := Server.JStr STATUS_WON; "win_value" := Server.JNum 20 ]}.

Definition patch_coef : Server.record := {[ "coef" := Server.JNum 3 ]}.

(** The state after the bet of id 7 has been patched to won. *)
Definition state_patched : Server.state :=
  fst (Server.handle NaN_string None clock_2026_11_03 state_0
         (Server.mkRequest (Some "betoff07") (Server.PatchBet "7" patch_won))).

End Samples.

(* ===================================================================== *)
(** * Part II: properties                                                 *)
(* ===================================================================== *)

(** ** Facts about Numbers *)

Module JSFacts.
Import JS.

Lemma truthy_not_nan (x : float) : truthy x = true -> is_nan x = false.
Proof.
  unfold truthy. intros H.
  apply negb_true_iff, orb_false_iff in H. tauto.
Qed.

Lemma truthy_not_zero (x : float) : truthy x = true -> (x =? 0)%float = false.
Proof.
  unfold truthy. intros H.
  apply negb_true_iff, orb_false_iff in H. tauto.
Qed.

(** A coerced field is never [NaN]. *)
Lemma or_zero_not_nan (x : float) : is_nan (or_zero x) = false.
Proof.
  unfold or_zero, or_else.
  destruct (truthy x) eqn:E.
  - now apply truthy_not_nan.
  - reflexivity.
Qed.

(** On a coerced field, being truthy is being different from zero. *)
Lemma truthy_or_zero (x : float) :
  truthy (or_zero x) = negb (or_zero x =? 0)%float.
Proof.
  unfold truthy at 1. now rewrite or_zero_not_nan, orb_false_r.
Qed.

Lemma or_zero_of_nan (x : float) : is_nan x = true -> or_zero x = 0%float.
Proof.
  intros H. unfold or_zero, or_else, truthy.
  now rewrite H, orb_true_r.
Qed.

Lemma or_else_falsy (x d : float) : truthy x = false -> or_else x d = d.
Proof. unfold or_else. now intros ->. Qed.

Lemma or_else_truthy (x d : float) : truthy x = true -> or_else x d = x.
Proof. unfold or_else. now intros ->. Qed.

(** The comparisons of a Number with zero, read on its IEEE 754 form. *)
Lemma zero_cases (x : float) :
  is_nan x = false -> (x <? 0)%float = false ->
  (x =? 0)%float = negb (0 <? x)%float.
Proof.
  unfold is_nan.
  rewrite !FloatAxioms.ltb_spec, !FloatAxioms.eqb_spec.
  change (Prim2SF 0) with (S754_zero false).
  destruct (Prim2SF x) as [s|s| |s m e]; cbn; try destruct s; cbn;
    try reflexivity; discriminate.
Qed.

(** A finite positive Number is truthy. *)
Lemma finite_positive_truthy (x : float) :
  finite_positive x = true -> truthy x = true.
Proof.
  unfold finite_positive, truthy, is_nan. intros H.
  apply andb_true_iff in H as [_ H].
  revert H.
  rewrite !FloatAxioms.ltb_spec, !FloatAxioms.eqb_spec.
  change (Prim2SF 0) with (S754_zero false).
  destruct (Prim2SF x) as [s|s| |s m e]; cbn; try destruct s; cbn;
    try reflexivity; try discriminate.
  all: intros _; unfold SFeqb, SFcompare;
    rewrite ?Z.compare_refl, ?Pos.compare_cont_refl; reflexivity.
Qed.

End JSFacts.

(** ** The monetary normaliser and the currency conversion *)

Module NormalizerFacts.
Import JS JSFacts Client Samples.

Lemma status_eqb_refl (s : string) : (s =? s)%string = true.
Proof. apply String.eqb_refl. Qed.

Lemma WON_not_LOST : (STATUS_WON =? STATUS_LOST)%string = false.
Proof. reflexivity. Qed.

Lemma WON_not_PENDING : (STATUS_WON =? STATUS_PENDING)%string = false.
Proof. reflexivity. Qed.

Lemma LOST_not_PENDING : (STATUS_LOST =? STATUS_PENDING)%string = false.
Proof. reflexivity. Qed.

Lemma LOST_not_PENDING_sym : (STATUS_PENDING =? STATUS_LOST)%string = false.
Proof. reflexivity. Qed.

(** Every status that is neither LOST nor PENDING takes the last branch. *)
Lemma normalizedWinValue_other (b : Bet) :
  status b <> STATUS_LOST -> status b <> STATUS_PENDING ->
  normalizedWinValue b
  = (or_zero (win_value b) - or_zero (stake_value b))%float.
Proof.
  intros HL HP. unfold normalizedWinValue.
  apply String.eqb_neq in HL, HP. now rewrite HL, HP.
Qed.

Lemma normalizedWinValue_pending (b : Bet) :
  status b = STATUS_PENDING -> normalizedWinValue b = 0%float.
Proof.
  intros H. unfold normalizedWinValue. rewrite H.
  now rewrite status_eqb_refl.
Qed.

Lemma normalizedWinValue_lost (b : Bet) :
  status b = STATUS_LOST ->
  normalizedWinValue b
  = (let win := or_zero (win_value b) in
     let stake := or_zero (stake_value b) in
     if (win <? 0)%float then win
     else if (stake =? 0)%float then 0%float else (- stake)%float).
Proof.
  intros H. unfold normalizedWinValue. rewrite H, status_eqb_refl. cbv zeta.
  destruct (or_zero (win_value b) <? 0)%float; [reflexivity|].
  rewrite truthy_or_zero.
  now destruct (or_zero (stake_value b) =? 0)%float.
Qed.

(** Both copies of the normaliser read the fields through
    [Number(.) || 0] and test the stake for being truthy. *)
Lemma legacy_normalizedWinValue_lost (b : Bet) :
  status b = STATUS_LOST ->
  Legacy.normalizedWinValue b = normalizedWinValue b.
Proof.
  intros H. unfold Legacy.normalizedWinValue, normalizedWinValue.
  now rewrite H, status_eqb_refl.
Qed.

(** C1 (as amended): for a bet of the data model, whose stake is not
    negative, on the numeric fields coerced by [Number(.) || 0].  The
    normaliser of [unnamed/part_001] yields [win - stake] for a WON bet;
    for a LOST bet [win] when [win < 0], else [-stake] when [stake > 0],
    else 0; and 0 for a PENDING bet.  The older copy in
    [client/src/App.jsx] yields the same for LOST and for PENDING, and
    [win], with no stake taken off, for a WON bet. *)
Theorem normalizedWinValue_contract (b : Bet) :
  (or_zero (stake_value b) <? 0)%float = false ->
  (status b = STATUS_WON ->
   normalizedWinValue b
   = (or_zero (win_value b) - or_zero (stake_value b))%float
   /\ Legacy.normalizedWinValue b = or_zero (win_value b))
  /\ (status b = STATUS_LOST ->
      normalizedWinValue b
      = (if (or_zero (win_value b) <? 0)%float then or_zero (win_value b)
         else if (0 <? or_zero (stake_value b))%float
              then (- or_zero (stake_value b))%float else 0%float)
      /\ Legacy.normalizedWinValue b
         = (if (or_zero (win_value b) <? 0)%float then or_zero (win_value b)
            else if (0 <? or_zero (stake_value b))%float
                 then (- or_zero (stake_value b))%float else 0%float))
  /\ (status b = STATUS_PENDING ->
      normalizedWinValue b = 0%float
      /\ Legacy.normalizedWinValue b = 0%float).
Proof.
  intros Hneg.
  assert (L : status b = STATUS_LOST ->
              normalizedWinValue b
              = (if (or_zero (win_value b) <? 0)%float
                 then or_zero (win_value b)
                 else if (0 <? or_zero (stake_value b))%float
                      then (- or_zero (stake_value b))%float else 0%float)).
  { intros H. rewrite (normalizedWinValue_lost b H). cbv zeta.
    rewrite (zero_cases _ (or_zero_not_nan (stake_value b)) Hneg).
    now destruct (0 <? or_zero (stake_value b))%float. }
  split; [|split].
  - intros H. split.
    + apply normalizedWinValue_other; rewrite H; apply String.eqb_neq.
      * exact WON_not_LOST.
      * exact WON_not_PENDING.
    + unfold Legacy.normalizedWinValue.
      now rewrite H, WON_not_LOST, WON_not_PENDING.
  - intros H. split; [now apply L|].
    rewrite (legacy_normalizedWinValue_lost b H). now apply L.
  - intros H. split; [now apply normalizedWinValue_pending|].
    unfold Legacy.normalizedWinValue.
    now rewrite H, LOST_not_PENDING_sym, status_eqb_refl.
Qed.

(** The two scenarios of the specification: a won bet of stake 100 paid
    200 nets 100 (200 in the older copy), a lost bet of stake 50 nets
    -50 in both. *)
Lemma normalizedWinValue_contract_witness :
  normalizedWinValue won_100_200 = 100%float
  /\ Legacy.normalizedWinValue won_100_200 = 200%float
  /\ normalizedWinValue lost_50_0 = (-50)%float
  /\ Legacy.normalizedWinValue lost_50_0 = (-50)%float.
Proof.
  destruct (normalizedWinValue_contract won_100_200 eq_refl) as (W & _).
  destruct (normalizedWinValue_contract lost_50_0 eq_refl) as (_ & L & _).
  destruct (W eq_refl) as [W1 W2]. destruct (L eq_refl) as [L1 L2].
  rewrite W1, W2, L1, L2. repeat split.
Defined.

(** C1, as the specification words it, fails on the older copy: for the
    won bet of stake 100 paid 200 it returns 200, which is not
    [win_value - stake_value]. *)
Lemma legacy_won_not_net :
  status won_100_200 = STATUS_WON
  /\ (stake_value won_100_200 <? 0)%float = false
  /\ (win_value won_100_200 - stake_value won_100_200)%float = 100%float
  /\ Legacy.normalizedWinValue won_100_200 = 200%float
  /\ Legacy.normalizedWinValue won_100_200
     <> (win_value won_100_200 - stake_value won_100_200)%float.
Proof.
  repeat split.
  intros H. apply (f_equal (fun x => (x =? 100)%float)) in H.
  vm_compute in H. discriminate.
Qed.

(** The normaliser tests the stake for being truthy, not for being above
    zero: on a lost bet with a negative stake, which the data model does
    not have, it returns the stake with its sign changed. *)
Lemma normalizedWinValue_negative_stake :
  status lost_negative_stake = STATUS_LOST
  /\ (win_value lost_negative_stake <? 0)%float = false
  /\ (0 <? stake_value lost_negative_stake)%float = false
  /\ normalizedWinValue lost_negative_stake = 5%float
  /\ normalizedWinValue lost_negative_stake <> 0%float.
Proof.
  repeat split.
  intros H. apply (f_equal (fun x => (x =? 0)%float)) in H.
  vm_compute in H. discriminate.
Qed.

(** *** Currency conversion *)

Lemma DEFAULT_RUB_RATE_ok : finite_positive DEFAULT_RUB_RATE = true.
Proof. reflexivity. Qed.

Lemma fetchRate_ok (response : option float) :
  finite_positive (fetchRate response) = true.
Proof.
  unfold fetchRate. destruct response as [val|]; [|reflexivity].
  destruct (finite_positive val) eqn:E; [exact E|reflexivity].
Qed.

Lemma rate_step_ok (rubRate : float) (e : rate_event) :
  finite_positive rubRate = true -> finite_positive (rate_step rubRate e) = true.
Proof.
  intros H. destruct e as [r|v]; cbn.
  - apply fetchRate_ok.
  - unfold on_rate_update. destruct (finite_positive v) eqn:E; assumption.
Qed.

(** The rate that [MobileHome] holds is finite and positive at all times. *)
Lemma held_rate_ok (events : list rate_event) :
  finite_positive (held_rate events) = true.
Proof.
  unfold held_rate.
  generalize DEFAULT_RUB_RATE, DEFAULT_RUB_RATE_ok.
  induction events as [|e events IH]; intros r Hr; cbn.
  - exact Hr.
  - apply IH. now apply rate_step_ok.
Qed.

Lemma rate_divisor_ok (rubRate : float) :
  finite_positive rubRate = true -> rate_divisor rubRate = rubRate.
Proof.
  intros H. unfold rate_divisor.
  apply or_else_truthy. now apply finite_positive_truthy.
Qed.

(** C7 (as amended): a bet in any unit but RUB passes through unchanged,
    whatever the rate.  For a bet in RUB, [toUSDT] divides by 80.78 when
    the rate it is given is zero or not a number, and by the rate itself
    otherwise.  The rate it is given in the application is finite and
    positive: [fetchRate] answers 80.78 to every response that is not,
    and so is the rate held after any sequence of fetches and pushes,
    which is then the divisor. *)
Theorem toUSDT_rate_guard (amount : float) (b : Bet) (rubRate : float) :
  (betUnit b <> "RUB" -> toUSDT amount b rubRate = amount)
  /\ (betUnit b = "RUB" -> truthy rubRate = false ->
      toUSDT amount b rubRate = (amount / DEFAULT_RUB_RATE)%float)
  /\ (betUnit b = "RUB" -> truthy rubRate = true ->
      toUSDT amount b rubRate = (amount / rubRate)%float)
  /\ (forall val, finite_positive val = false ->
      fetchRate (Some val) = DEFAULT_RUB_RATE)
  /\ fetchRate None = DEFAULT_RUB_RATE
  /\ (forall events,
      finite_positive (held_rate events) = true
      /\ (betUnit b = "RUB" ->
          toUSDT amount b (held_rate events)
          = (amount / held_rate events)%float)).
Proof.
  repeat split.
  - intros H. unfold toUSDT. apply String.eqb_neq in H. now rewrite H.
  - intros H Hr. unfold toUSDT, rate_divisor.
    now rewrite H, (or_else_falsy _ _ Hr).
  - intros H Hr. unfold toUSDT, rate_divisor.
    now rewrite H, (or_else_truthy _ _ Hr).
  - intros val H. cbn. now rewrite H.
  - apply held_rate_ok.
  - intros H. unfold toUSDT. rewrite H. cbn.
    now rewrite (rate_divisor_ok _ (held_rate_ok events)).
Qed.

(** A rate of zero and a missing response both end at 80.78. *)
Lemma toUSDT_rate_guard_witness :
  toUSDT 8078 rub_bet 0 = 100%float
  /\ toUSDT 8078 rub_bet (held_rate [RateFetched None]) = 100%float.
Proof.
  split.
  - rewrite (proj1 (proj2 (toUSDT_rate_guard 8078 rub_bet 0)) eq_refl eq_refl).
    reflexivity.
  - destruct (toUSDT_rate_guard 8078 rub_bet 0) as (_ & _ & _ & _ & _ & H).
    rewrite (proj2 (H [RateFetched None]) eq_refl).
    reflexivity.
Defined.

(** C7, as the specification words it, fails on [toUSDT] alone: a
    negative rate is not a finite positive number, and the conversion
    divides by it, not by 80.78. *)
Lemma toUSDT_negative_rate :
  betUnit rub_bet = "RUB"
  /\ finite_positive (-5) = false
  /\ toUSDT 100 rub_bet (-5) = (-20)%float
  /\ toUSDT 100 rub_bet (-5) <> (100 / DEFAULT_RUB_RATE)%float.
Proof.
  repeat split.
  intros H. apply (f_equal (fun x => (x <? 0)%float)) in H.
  vm_compute in H. discriminate.
Qed.

End NormalizerFacts.

(** ** The statistics aggregator *)

Module AggregatorFacts.
Import JS JSFacts Client NormalizerFacts Samples.

Lemma eligible_app (l1 l2 : list Bet) :
  eligible (l1 ++ l2) = eligible l1 ++ eligible l2.
Proof. apply List.filter_app. Qed.

Lemma eligible_cons_pending (b : Bet) (l : list Bet) :
  status b = STATUS_PENDING -> eligible (b :: l) = eligible l.
Proof.
  intros H. unfold eligible. cbn. now rewrite H, status_eqb_refl.
Qed.

Lemma eligible_cons_decided (b : Bet) (l : list Bet) :
  status b <> STATUS_PENDING -> eligible (b :: l) = b :: eligible l.
Proof.
  intros H. unfold eligible. cbn. apply String.eqb_neq in H. now rewrite H.
Qed.

Lemma eligible_insert_pending (b : Bet) (l1 l2 : list Bet) :
  status b = STATUS_PENDING -> eligible (l1 ++ b :: l2) = eligible (l1 ++ l2).
Proof.
  intros H. now rewrite !eligible_app, eligible_cons_pending.
Qed.

Lemma eligible_decided (bets : list Bet) :
  List.Forall (fun b => status b <> STATUS_PENDING) (eligible bets).
Proof.
  apply List.Forall_forall. intros b Hb.
  apply List.filter_In in Hb as [_ Hb].
  apply negb_true_iff in Hb. now apply String.eqb_neq.
Qed.

Lemma eligible_idempotent (bets : list Bet) :
  eligible (eligible bets) = eligible bets.
Proof.
  induction bets as [|b bets IH]; [reflexivity|].
  destruct (String.eqb_spec (status b) STATUS_PENDING) as [E|E].
  - now rewrite (eligible_cons_pending b bets E).
  - rewrite (eligible_cons_decided b bets E), (eligible_cons_decided _ _ E).
    now rewrite IH.
Qed.

(** [calcStats] reads its argument through [eligible] only. *)
Lemma calcStats_eligible (l l' : list Bet) (rubRate : float) :
  eligible l = eligible l' -> calcStats l rubRate = calcStats l' rubRate.
Proof. intros H. unfold calcStats. now rewrite H. Qed.

(** C2: a PENDING bet is normalised to 0, and no metric sees it: the
    eligible list, from which [total], [winRate] (numerator and
    denominator), [profitUSDT], the sum of stakes behind [roi] and the
    sum of odds behind [avgOdds] are all computed, holds no PENDING bet,
    and putting a PENDING bet anywhere into the list changes neither that
    list nor any of the five metrics. *)
Theorem pending_excluded (bets : list Bet) (rubRate : float) :
  (forall b, status b = STATUS_PENDING -> normalizedWinValue b = 0%float)
  /\ List.Forall (fun b => status b <> STATUS_PENDING) (eligible bets)
  /\ calcStats bets rubRate = calcStats (eligible bets) rubRate
  /\ (forall b l1 l2, status b = STATUS_PENDING -> bets = l1 ++ b :: l2 ->
      eligible bets = eligible (l1 ++ l2)
      /\ calcStats bets rubRate = calcStats (l1 ++ l2) rubRate)
  /\ total (calcStats bets rubRate) = length (eligible bets)
  /\ winRate (calcStats bets rubRate)
     = win_rate (won_count (eligible bets)) (length (eligible bets))
  /\ profitUSDT (calcStats bets rubRate) = profit_sum (eligible bets) rubRate
  /\ roi (calcStats bets rubRate)
     = (if truthy (stakes_sum (eligible bets) rubRate)
        then toFixed (profit_sum (eligible bets) rubRate
                      / stakes_sum (eligible bets) rubRate * 100)%float 1
        else FixedStr "0.0")
  /\ avgOdds (calcStats bets rubRate)
     = (if (length (eligible bets) =? 0)%nat then inr 0%float
        else inl (toFixed (odds_sum (eligible bets)
                           / of_nat (length (eligible bets)))%float 2)).
Proof.
  split; [exact normalizedWinValue_pending|].
  split; [apply eligible_decided|].
  split; [apply calcStats_eligible; symmetry; apply eligible_idempotent|].
  split; [|repeat split].
  intros b l1 l2 Hb ->.
  pose proof (eligible_insert_pending b l1 l2 Hb) as E.
  split; [exact E|now apply calcStats_eligible].
Qed.

(** With and without a PENDING bet between them, a won and a lost bet
    give one decided out of two: total 2, win rate 50. *)
Lemma pending_excluded_witness :
  calcStats [won_100_200; pending_bet; lost_50_0] DEFAULT_RUB_RATE
  = calcStats [won_100_200; lost_50_0] DEFAULT_RUB_RATE
  /\ total (calcStats [won_100_200; pending_bet; lost_50_0] DEFAULT_RUB_RATE) = 2
  /\ winRate (calcStats [won_100_200; pending_bet; lost_50_0] DEFAULT_RUB_RATE)
     = 50%float.
Proof.
  destruct (pending_excluded [won_100_200; pending_bet; lost_50_0]
                             DEFAULT_RUB_RATE) as (_ & _ & _ & H & _).
  destruct (H pending_bet [won_100_200] [lost_50_0] eq_refl eq_refl) as [_ E].
  rewrite E. repeat split.
Defined.

(** *** Statuses outside the three known ones *)

Lemma won_count_cons (b : Bet) (l : list Bet) :
  won_count (b :: l)
  = ((if (status b =? STATUS_WON)%string then 1 else 0) + won_count l)%nat.
Proof.
  unfold won_count. cbn. now destruct (status b =? STATUS_WON)%string.
Qed.

Lemma won_count_app (l1 l2 : list Bet) :
  won_count (l1 ++ l2) = (won_count l1 + won_count l2)%nat.
Proof.
  unfold won_count. now rewrite List.filter_app, List.length_app.
Qed.

(** C10: a bet whose status is neither LOST nor PENDING, whatever the
    string, is normalised as [win - stake] on the coerced fields (a field
    that is not a number counts as 0); it is eligible, so it adds one to
    [total], the denominator of [winRate]; and it adds nothing to the
    numerator unless its status is WON, when it adds one. *)
Theorem other_status_is_decided (b : Bet) :
  status b <> STATUS_LOST -> status b <> STATUS_PENDING ->
  normalizedWinValue b
  = (or_zero (win_value b) - or_zero (stake_value b))%float
  /\ (is_nan (win_value b) = true -> or_zero (win_value b) = 0%float)
  /\ (is_nan (stake_value b) = true -> or_zero (stake_value b) = 0%float)
  /\ (forall l1 l2 rubRate,
      eligible (l1 ++ b :: l2) = eligible l1 ++ b :: eligible l2
      /\ total (calcStats (l1 ++ b :: l2) rubRate)
         = S (total (calcStats (l1 ++ l2) rubRate))
      /\ (status b <> STATUS_WON ->
          won_count (eligible (l1 ++ b :: l2)) = won_count (eligible (l1 ++ l2)))
      /\ (status b = STATUS_WON ->
          won_count (eligible (l1 ++ b :: l2))
          = S (won_count (eligible (l1 ++ l2))))
      /\ winRate (calcStats (l1 ++ b :: l2) rubRate)
         = win_rate (won_count (eligible (l1 ++ b :: l2)))
                    (S (length (eligible (l1 ++ l2))))).
Proof.
  intros HL HP.
  split; [now apply normalizedWinValue_other|].
  split; [apply or_zero_of_nan|].
  split; [apply or_zero_of_nan|].
  intros l1 l2 rubRate.
  assert (E : eligible (l1 ++ b :: l2) = eligible l1 ++ b :: eligible l2)
    by now rewrite eligible_app, eligible_cons_decided.
  assert (T : length (eligible (l1 ++ b :: l2))
              = S (length (eligible (l1 ++ l2)))).
  { rewrite E, eligible_app, !List.length_app. cbn. lia. }
  split; [exact E|].
  split; [exact T|].
  split; [|split].
  - intros HW. rewrite E, eligible_app, !won_count_app, won_count_cons.
    apply String.eqb_neq in HW. now rewrite HW.
  - intros HW. rewrite E, eligible_app, !won_count_app, won_count_cons.
    rewrite HW, String.eqb_refl. lia.
  - cbn. now rewrite T.
Qed.

(** A bet marked with a status of its own, and with no numeric stake, is
    normalised as 30 - 0 and halves the win rate of a single won bet. *)
Lemma other_status_is_decided_witness :
  normalizedWinValue refunded_bet = 30%float
  /\ total (calcStats [won_100_200; refunded_bet] DEFAULT_RUB_RATE) = 2
  /\ winRate (calcStats [won_100_200; refunded_bet] DEFAULT_RUB_RATE) = 50%float.
Proof.
  assert (HL : status refunded_bet <> STATUS_LOST) by discriminate.
  assert (HP : status refunded_bet <> STATUS_PENDING) by discriminate.
  destruct (other_status_is_decided refunded_bet HL HP) as (E & _ & _ & H).
  destruct (H [won_100_200] [] DEFAULT_RUB_RATE) as (_ & T & _ & _ & W).
  change [won_100_200; refunded_bet] with ([won_100_200] ++ refunded_bet :: []).
  split; [rewrite E; reflexivity|].
  split; [rewrite T; reflexivity|rewrite W; reflexivity].
Defined.

End AggregatorFacts.

(** ** The streak detector *)

Module StreakFacts.
Import Client Spec Samples.

(** The loop counts the run of the decided entries, on top of what it
    has counted so far. *)
Lemma streak_loop_run (target : string) (rest : list Bet) (n : nat) :
  streak_loop target rest n = (n + run_length target (decided rest))%nat.
Proof.
  unfold decided.
  revert n. induction rest as [|b rest IH]; intros n; cbn.
  - lia.
  - destruct (status b =? STATUS_PENDING)%string eqn:P; cbn.
    + apply IH.
    + destruct (status b =? target)%string eqn:T; cbn.
      * rewrite IH. lia.
      * lia.
Qed.

(** [findIndex] skips exactly the PENDING prefix: what is before the
    index has no decided entry, and the entry at the index is the first
    decided one. *)
Lemma findIndex_decided_Some (l : list Bet) (i : nat) :
  findIndex_decided l = Some i ->
  exists first, nth_error l i = Some first
                /\ decided l = decided (skipn i l)
                /\ decided (skipn i l) = first :: decided (skipn (S i) l).
Proof.
  revert i. induction l as [|b l IH]; intros i; cbn; [discriminate|].
  destruct (status b =? STATUS_PENDING)%string eqn:P; cbn.
  - destruct (findIndex_decided l) as [j|] eqn:F; cbn; [|discriminate].
    intros [= <-]. destruct (IH j eq_refl) as (first & Hn & Hd & Hs).
    exists first. cbn. repeat split; assumption.
  - intros [= <-]. exists b. cbn. rewrite P. cbn. repeat split.
Qed.

Lemma findIndex_decided_None (l : list Bet) :
  findIndex_decided l = None -> decided l = [].
Proof.
  induction l as [|b l IH]; cbn; [reflexivity|].
  destruct (status b =? STATUS_PENDING)%string eqn:P; cbn; [|discriminate].
  destruct (findIndex_decided l); cbn; [discriminate|]. intros _. now apply IH.
Qed.

(** [calcStreak] computes the streak of the specification. *)
Lemma calcStreak_spec (l : list Bet) : calcStreak l = currentStreak_spec l.
Proof.
  unfold calcStreak, currentStreak_spec.
  destruct l as [|b0 l0]; [reflexivity|].
  change (length (b0 :: l0) =? 0)%nat with false. cbv iota.
  set (l := b0 :: l0).
  destruct (findIndex_decided l) as [i|] eqn:F.
  - destruct (findIndex_decided_Some l i F) as (first & Hn & Hd & Hs).
    rewrite Hn, streak_loop_run, Hd, Hs. reflexivity.
  - now rewrite (findIndex_decided_None l F).
Qed.

(** The older copy is the current function on the first fifteen
    entries. *)
Lemma legacy_calcStreak_firstn (all : list Bet) :
  Legacy.calcStreak all = currentStreak_spec (firstn 15 all).
Proof.
  rewrite <- calcStreak_spec. unfold Legacy.calcStreak, calcStreak.
  destruct (firstn 15 all) as [|b l] eqn:E; reflexivity.
Qed.

(** C5 (as amended): the streak detector of [unnamed/part_001] returns
    the streak of the specification (PENDING entries skipped, the first
    decided entry gives the target, the count stops at the first decided
    entry that differs); a list with no decided entry has length 0; and
    the statuses PENDING, WON, WON, LOST, WON give a streak of 2 wins.
    The older copy in [client/src/App.jsx] does the same on the first
    fifteen entries of the list, and looks at no entry after them; on a
    list of at most fifteen entries the two agree. *)
Theorem calcStreak_correct :
  (forall l, calcStreak l = currentStreak_spec l)
  /\ (forall l, decided l = [] -> calcStreak l = mkStreak KindNone 0)
  /\ (forall pending first rest,
      decided pending = [] -> status first <> STATUS_PENDING ->
      calcStreak (pending ++ first :: rest)
      = mkStreak (if (status first =? STATUS_WON)%string
                  then KindWins else KindLosses)
                 (S (run_length (status first) (decided rest))))
  /\ calcStreak (List.map with_status
                   [STATUS_PENDING; STATUS_WON; STATUS_WON; STATUS_LOST; STATUS_WON])
     = mkStreak KindWins 2
  /\ (forall l, Legacy.calcStreak l = currentStreak_spec (firstn 15 l))
  /\ (forall l, (length l <= 15)%nat ->
      Legacy.calcStreak l = currentStreak_spec l)
  /\ (forall l more, length l = 15%nat ->
      Legacy.calcStreak (l ++ more) = Legacy.calcStreak l)
  /\ Legacy.calcStreak
       (List.map with_status
          [STATUS_PENDING; STATUS_WON; STATUS_WON; STATUS_LOST; STATUS_WON])
     = mkStreak KindWins 2.
Proof.
  split; [exact calcStreak_spec|].
  split.
  { intros l H. rewrite calcStreak_spec. unfold currentStreak_spec.
    now rewrite H. }
  split.
  { intros pending first rest Hp Hf.
    rewrite calcStreak_spec. unfold currentStreak_spec.
    assert (E : decided (pending ++ first :: rest) = first :: decided rest).
    { unfold decided in *. rewrite List.filter_app, Hp. cbn.
      apply String.eqb_neq in Hf. now rewrite Hf. }
    rewrite E. cbn. now rewrite String.eqb_refl. }
  split; [reflexivity|].
  split; [exact legacy_calcStreak_firstn|].
  split.
  { intros l H. rewrite legacy_calcStreak_firstn.
    now rewrite List.firstn_all2. }
  split; [|reflexivity].
  intros l more L.
  rewrite !legacy_calcStreak_firstn.
  rewrite List.firstn_app, L, Nat.sub_diag. cbn [firstn].
  now rewrite List.app_nil_r.
Qed.

(** C5, as the specification words it, fails on the older copy: after
    fifteen pending bets a won bet is not seen, where the specification
    skips the pending bets and counts it; and of seventeen won bets
    fifteen are counted. *)
Lemma legacy_calcStreak_fifteen :
  Legacy.calcStreak (repeat pending_bet 15 ++ [won_100_200])
  = mkStreak KindNone 0
  /\ currentStreak_spec (repeat pending_bet 15 ++ [won_100_200])
     = mkStreak KindWins 1
  /\ Legacy.calcStreak (repeat won_100_200 17) = mkStreak KindWins 15
  /\ currentStreak_spec (repeat won_100_200 17) = mkStreak KindWins 17
  /\ Legacy.calcStreak (repeat pending_bet 15 ++ [won_100_200])
     <> currentStreak_spec (repeat pending_bet 15 ++ [won_100_200]).
Proof.
  repeat split. discriminate.
Qed.

End StreakFacts.

(** ** The statistics and the streak of one list *)

Module CountFacts.
Import JS JSFacts Client NormalizerFacts AggregatorFacts Spec Samples StreakFacts.

(** *** Counts and currencies *)

Lemma eligible_length (bets : list Bet) :
  (length (eligible bets)
   + length (List.filter (fun b => (status b =? STATUS_PENDING)%string) bets)
   = length bets)%nat.
Proof.
  induction bets as [|b bets IH]; [reflexivity|].
  unfold eligible in *. cbn.
  destruct (status b =? STATUS_PENDING)%string; cbn; lia.
Qed.

Lemma won_count_le (l : list Bet) : (won_count l <= length l)%nat.
Proof. unfold won_count. apply List.filter_length_le. Qed.

(** [total] and the bets left out add up to the length of the list, the
    won bets are among those counted, and a list in which nothing is
    counted has every metric at its zero: no division takes place. *)
Theorem calcStats_counts (bets : list Bet) (rubRate : float) :
  (total (calcStats bets rubRate)
   + length (List.filter (fun b => (status b =? STATUS_PENDING)%string) bets)
   = length bets)%nat
  /\ (won_count (eligible bets) <= total (calcStats bets rubRate))%nat
  /\ (total (calcStats bets rubRate) = 0%nat <->
      forall b, In b bets -> status b = STATUS_PENDING)
  /\ (total (calcStats bets rubRate) = 0%nat ->
      calcStats bets rubRate
      = mkStats 0 0%float 0%float (inr 0%float) (FixedStr "0.0")).
Proof.
  change (total (calcStats bets rubRate)) with (length (eligible bets)).
  split; [apply eligible_length|].
  split; [apply won_count_le|].
  split.
  - split.
    + intros H b I.
      destruct (String.eqb_spec (status b) STATUS_PENDING) as [E|E]; [exact E|].
      assert (J : In b (eligible bets)).
      { apply List.filter_In. split; [exact I|].
        apply negb_true_iff. now apply String.eqb_neq. }
      destruct (eligible bets); [destruct J|discriminate].
    + intros H. destruct (eligible bets) as [|b l] eqn:E; [reflexivity|].
      assert (J : In b (eligible bets)) by (rewrite E; now left).
      apply List.filter_In in J as [I P].
      rewrite (H b I), status_eqb_refl in P. discriminate.
  - intros H. unfold calcStats.
    destruct (eligible bets); [reflexivity|discriminate].
Qed.

Lemma fold_left_ext_in {A B : Type} (f g : A -> B -> A) (l : list B) (a : A) :
  (forall x b, In b l -> f x b = g x b) ->
  fold_left f l a = fold_left g l a.
Proof.
  revert a. induction l as [|b l IH]; intros a H; [reflexivity|].
  cbn. rewrite (H a b) by now left.
  apply IH. intros x c I. apply H. now right.
Qed.

(** The rate is read for bets in RUB only: when no bet that is counted
    is in RUB, the statistics are the same at every rate. *)
Theorem calcStats_rate_unused (bets : list Bet) (r1 r2 : float) :
  (forall b, In b bets -> status b <> STATUS_PENDING -> betUnit b <> "RUB") ->
  calcStats bets r1 = calcStats bets r2.
Proof.
  intros H.
  assert (U : forall b, In b (eligible bets) ->
                        forall a, toUSDT a b r1 = toUSDT a b r2).
  { intros b I a. apply List.filter_In in I as [I P].
    apply negb_true_iff, String.eqb_neq in P.
    unfold toUSDT. specialize (H b I P). apply String.eqb_neq in H.
    now rewrite H. }
  assert (P : profit_sum (eligible bets) r1 = profit_sum (eligible bets) r2).
  { unfold profit_sum. apply fold_left_ext_in. intros x b I. now rewrite U. }
  assert (S : stakes_sum (eligible bets) r1 = stakes_sum (eligible bets) r2).
  { unfold stakes_sum. apply fold_left_ext_in. intros x b I. now rewrite U. }
  unfold calcStats. now rewrite P, S.
Qed.

Lemma calcStats_rate_unused_witness :
  calcStats [won_100_200; lost_50_0; pending_bet] 1%float
  = calcStats [won_100_200; lost_50_0; pending_bet] DEFAULT_RUB_RATE.
Proof.
  apply calcStats_rate_unused.
  intros b [<-|[<-|[<-|[]]]] _; discriminate.
Defined.

(** *** The streak against the statistics *)

Lemma decided_eligible (l : list Bet) : decided l = eligible l.
Proof. reflexivity. Qed.

Lemma run_length_le (target : string) (l : list Bet) :
  (run_length target l <= length l)%nat.
Proof.
  induction l as [|b l IH]; cbn; [lia|].
  destruct (status b =? target)%string; lia.
Qed.

Lemma run_length_won (l : list Bet) :
  (run_length STATUS_WON l <= won_count l)%nat.
Proof.
  induction l as [|b l IH]; [cbn; lia|].
  rewrite won_count_cons. cbn [run_length].
  destruct (status b =? STATUS_WON)%string; lia.
Qed.

(** The streak reads its list through the decided entries only: a
    PENDING bet put anywhere into the list changes neither the kind nor
    the length of the streak. *)
Theorem streak_ignores_pending (b : Bet) (l1 l2 : list Bet) :
  status b = STATUS_PENDING ->
  calcStreak (l1 ++ b :: l2) = calcStreak (l1 ++ l2)
  /\ calcStreak (l1 ++ b :: l2) = calcStreak (eligible (l1 ++ b :: l2)).
Proof.
  intros H. rewrite !calcStreak_spec. unfold currentStreak_spec.
  rewrite !decided_eligible, eligible_idempotent.
  now rewrite (eligible_insert_pending b l1 l2 H).
Qed.

Lemma streak_ignores_pending_witness :
  calcStreak [pending_bet; won_100_200; pending_bet; won_100_200; lost_50_0]
  = calcStreak [pending_bet; won_100_200; won_100_200; lost_50_0]
  /\ calcStreak [pending_bet; won_100_200; won_100_200; lost_50_0]
     = mkStreak KindWins 2.
Proof.
  split; [|reflexivity].
  exact (proj1 (streak_ignores_pending pending_bet [pending_bet; won_100_200]
                  [won_100_200; lost_50_0] eq_refl)).
Defined.

(** The streak and the statistics of one list agree: there is no streak
    exactly when no bet is counted; a streak has at least one bet and
    never more than the bets counted; a streak of wins is never longer
    than the number of won bets; and a streak of any other status, known
    or not, is shown as one of losses. *)
Theorem streak_within_stats (l : list Bet) (rubRate : float) :
  (kind (calcStreak l) = KindNone <-> total (calcStats l rubRate) = 0%nat)
  /\ (count (calcStreak l) = 0%nat <-> total (calcStats l rubRate) = 0%nat)
  /\ (count (calcStreak l) <= total (calcStats l rubRate))%nat
  /\ (kind (calcStreak l) = KindWins ->
      (count (calcStreak l) <= won_count (eligible l))%nat)
  /\ (forall first rest, eligible l = first :: rest ->
      (kind (calcStreak l) = KindWins <-> status first = STATUS_WON)
      /\ (kind (calcStreak l) = KindLosses <-> status first <> STATUS_WON)).
Proof.
  rewrite calcStreak_spec. unfold currentStreak_spec.
  rewrite decided_eligible. change (total (calcStats l rubRate))
    with (length (eligible l)).
  destruct (eligible l) as [|first rest] eqn:E.
  - cbn. repeat split; try discriminate; try lia.
    all: intros first rest [=].
  - cbn [kind count run_length length]. rewrite String.eqb_refl.
    pose proof (run_length_le (status first) rest) as L.
    split; [split; [|discriminate]|].
    { destruct (status first =? STATUS_WON)%string; discriminate. }
    split; [split; discriminate|].
    split; [lia|].
    split.
    + destruct (String.eqb_spec (status first) STATUS_WON) as [W|W];
        [|discriminate].
      intros _. rewrite W, won_count_cons, W, String.eqb_refl.
      pose proof (run_length_won rest). lia.
    + intros f r [= <- <-].
      destruct (String.eqb_spec (status first) STATUS_WON) as [W|W];
        repeat split; try congruence; try discriminate.
      all: intros; try congruence.
Qed.

End CountFacts.

(** ** The calendar *)

Module DateFacts.
Import JSDate Spec.
Local Open Scope Z_scope.

Lemma Day_of_midnight (d tz : Z) : Day (d * msPerDay - tz + tz) = d.
Proof.
  unfold Day. replace (d * msPerDay - tz + tz) with (d * msPerDay) by lia.
  now apply Z.div_mul.
Qed.

(** One year on, [DayFromYear] has advanced by the length of the year. *)
Lemma DayFromYear_succ (y : Z) :
  DayFromYear (y + 1) = DayFromYear y + DaysInYear y.
Proof.
  unfold DaysInYear, InLeapYear, DayFromYear.
  destruct (Z.eqb_spec (y mod 4) 0), (Z.eqb_spec (y mod 100) 0),
    (Z.eqb_spec (y mod 400) 0); cbn [negb]; Z.div_mod_to_equations; lia.
Qed.

Lemma InLeapYear_01 (y : Z) : InLeapYear y = 0 \/ InLeapYear y = 1.
Proof.
  unfold InLeapYear.
  destruct (y mod 4 =? 0), (y mod 100 =? 0), (y mod 400 =? 0); cbn; auto.
Qed.

(** [YearFromDay day] is the year whose days include [day]. *)
Lemma year_bracket (day : Z) :
  DayFromYear (YearFromDay day) <= day < DayFromYear (YearFromDay day + 1).
Proof.
  unfold YearFromDay.
  set (y0 := 1970 + day * 400 / 146097).
  assert (Hy0 : 146097 * (y0 - 1970) <= day * 400 < 146097 * (y0 - 1970) + 146097).
  { unfold y0. Z.div_mod_to_equations. lia. }
  clearbody y0.
  destruct (Z.ltb_spec day (DayFromYear y0)) as [H1|H1].
  - replace (y0 - 1 + 1) with y0 by lia. split; [|exact H1].
    unfold DayFromYear in *. Z.div_mod_to_equations. lia.
  - destruct (Z.leb_spec (DayFromYear (y0 + 1)) day) as [H2|H2].
    + split; [exact H2|].
      unfold DayFromYear in *. Z.div_mod_to_equations. lia.
    + split; assumption.
Qed.

Lemma DayWithinYear_range (day : Z) :
  0 <= DayWithinYear day < DaysInYear (YearFromDay day).
Proof.
  unfold DayWithinYear.
  pose proof (year_bracket day) as H.
  rewrite DayFromYear_succ in H. lia.
Qed.

(** Evaluate [DaysBeforeMonth] at a month given as [3 + 1] or [3 - 1]. *)
Ltac calc_months :=
  repeat match goal with
    | H : context [DaysBeforeMonth (Zpos ?a + Zpos ?b) _] |- _ =>
        let v := eval compute in (Zpos a + Zpos b) in
        change (Zpos a + Zpos b) with v in H
    | H : context [DaysBeforeMonth (0 + Zpos ?b) _] |- _ =>
        change (0 + Zpos b) with (Zpos b) in H
    | H : context [DaysBeforeMonth (Zpos ?a - Zpos ?b) _] |- _ =>
        let v := eval compute in (Zpos a - Zpos b) in
        change (Zpos a - Zpos b) with v in H
    | |- context [DaysBeforeMonth (Zpos ?a + Zpos ?b) _] =>
        let v := eval compute in (Zpos a + Zpos b) in
        change (Zpos a + Zpos b) with v
    | |- context [DaysBeforeMonth (0 + Zpos ?b) _] =>
        change (0 + Zpos b) with (Zpos b)
    | |- context [DaysBeforeMonth (Zpos ?a - Zpos ?b) _] =>
        let v := eval compute in (Zpos a - Zpos b) in
        change (Zpos a - Zpos b) with v
    end;
  cbn in *.

(** [MonthFromDay day] is the month whose days include [day]. *)
Lemma month_bracket (day : Z) :
  let leap := InLeapYear (YearFromDay day) in
  let m := MonthFromDay day in
  0 <= m <= 11
  /\ DaysBeforeMonth m leap <= DayWithinYear day < DaysBeforeMonth (m + 1) leap.
Proof.
  cbv zeta. unfold MonthFromDay.
  pose proof (DayWithinYear_range day) as R. unfold DaysInYear in R.
  set (d := DayWithinYear day) in *.
  set (leap := InLeapYear (YearFromDay day)) in *.
  clearbody d leap.
  repeat match goal with
         | |- context [?a <? ?b] => destruct (Z.ltb_spec a b)
         end; calc_months; lia.
Qed.

Lemma DateFromDay_range (day : Z) : 1 <= DateFromDay day <= 31.
Proof.
  unfold DateFromDay.
  pose proof (month_bracket day) as [Hm H]. cbv zeta in *.
  pose proof (InLeapYear_01 (YearFromDay day)) as L.
  set (leap := InLeapYear (YearFromDay day)) in *.
  set (m := MonthFromDay day) in *.
  set (d := DayWithinYear day) in *.
  clearbody leap m d.
  assert (Hc : m = 0 \/ m = 1 \/ m = 2 \/ m = 3 \/ m = 4 \/ m = 5 \/ m = 6
               \/ m = 7 \/ m = 8 \/ m = 9 \/ m = 10 \/ m = 11) by lia.
  repeat destruct Hc as [->|Hc]; try subst m; calc_months; lia.
Qed.

Lemma MakeDay_in_year (y m date : Z) :
  0 <= m <= 11 ->
  MakeDay y m date = DayFromYear y + DaysBeforeMonth m (InLeapYear y) + date - 1.
Proof.
  intros Hm. unfold MakeDay.
  rewrite (Z.div_small m 12), (Z.mod_small m 12) by lia.
  now rewrite Z.add_0_r.
Qed.

(** The first of the month after December is the first of January. *)
Lemma MakeDay_next_month (y m : Z) :
  0 <= m <= 11 ->
  MakeDay y (m + 1) 1 = DayFromYear y + DaysBeforeMonth (m + 1) (InLeapYear y).
Proof.
  intros Hm. destruct (Z.eq_dec m 11) as [->|Hne].
  - unfold MakeDay. change ((11 + 1) / 12) with 1. change ((11 + 1) mod 12) with 0.
    rewrite DayFromYear_succ. unfold DaysInYear. calc_months. lia.
  - rewrite MakeDay_in_year by lia. lia.
Qed.

(** Building the day back from its year, month and date gives the day. *)
Lemma MakeDay_components (day : Z) :
  MakeDay (YearFromDay day) (MonthFromDay day) (DateFromDay day) = day.
Proof.
  pose proof (month_bracket day) as [Hm _]. cbv zeta in Hm.
  rewrite MakeDay_in_year by exact Hm.
  unfold DateFromDay, DayWithinYear. lia.
Qed.

(** The days of a month lie between its first day and the first day of
    the next month. *)
Lemma month_window (day : Z) :
  MakeDay (YearFromDay day) (MonthFromDay day) 1 <= day
  < MakeDay (YearFromDay day) (MonthFromDay day + 1) 1.
Proof.
  pose proof (month_bracket day) as [Hm H]. cbv zeta in *.
  rewrite MakeDay_in_year, MakeDay_next_month by exact Hm.
  unfold DayWithinYear in H. lia.
Qed.

Lemma DayFromYear_mono (y1 y2 : Z) :
  y1 <= y2 -> DayFromYear y1 <= DayFromYear y2.
Proof.
  intros H. unfold DayFromYear. Z.div_mod_to_equations. lia.
Qed.

(** The bracket of [year_bracket] determines the year. *)
Lemma YearFromDay_unique (y day : Z) :
  DayFromYear y <= day < DayFromYear (y + 1) -> YearFromDay day = y.
Proof.
  intros H. pose proof (year_bracket day) as B.
  set (Y := YearFromDay day) in *. clearbody Y.
  destruct (Z.lt_trichotomy Y y) as [Hlt|[->|Hgt]]; [|reflexivity|].
  - pose proof (DayFromYear_mono (Y + 1) y ltac:(lia)). lia.
  - pose proof (DayFromYear_mono (y + 1) Y ltac:(lia)). lia.
Qed.

(** The length of a month is the difference of the table of
    [DaysBeforeMonth]. *)
Lemma DaysInMonth_table (m leap : Z) :
  1 <= m <= 12 ->
  DaysInMonth m leap = DaysBeforeMonth m leap - DaysBeforeMonth (m - 1) leap.
Proof.
  intros Hm.
  assert (Hc : m = 1 \/ m = 2 \/ m = 3 \/ m = 4 \/ m = 5 \/ m = 6
               \/ m = 7 \/ m = 8 \/ m = 9 \/ m = 10 \/ m = 11 \/ m = 12)
    by lia.
  repeat destruct Hc as [->|Hc]; try subst m; unfold DaysInMonth;
    calc_months; lia.
Qed.

(** The year, month and date of the day made from a date of the
    calendar are that date. *)
Lemma components_of_MakeDay (y mo d : Z) :
  valid_date y mo d ->
  let day := MakeDay y (mo - 1) d in
  YearFromDay day = y /\ MonthFromDay day + 1 = mo /\ DateFromDay day = d.
Proof.
  intros [Hmo Hd]. cbv zeta. rewrite DaysInMonth_table in Hd by exact Hmo.
  pose proof (InLeapYear_01 y) as L.
  rewrite MakeDay_in_year by lia.
  set (leap := InLeapYear y) in *.
  assert (Hrange : 0 <= DaysBeforeMonth (mo - 1) leap + d - 1 < 365 + leap).
  { clearbody leap.
    assert (Hc : mo = 1 \/ mo = 2 \/ mo = 3 \/ mo = 4 \/ mo = 5 \/ mo = 6
                 \/ mo = 7 \/ mo = 8 \/ mo = 9 \/ mo = 10 \/ mo = 11 \/ mo = 12)
      by lia.
    repeat destruct Hc as [->|Hc]; try subst mo; calc_months; lia. }
  assert (HY : YearFromDay (DayFromYear y + DaysBeforeMonth (mo - 1) leap + d - 1) = y).
  { apply YearFromDay_unique. rewrite DayFromYear_succ. unfold DaysInYear.
    fold leap. lia. }
  split; [exact HY|].
  unfold DateFromDay, MonthFromDay, DayWithinYear. rewrite HY. fold leap.
  replace (DayFromYear y + DaysBeforeMonth (mo - 1) leap + d - 1 - DayFromYear y)
    with (DaysBeforeMonth (mo - 1) leap + d - 1) by lia.
  clearbody leap. clear HY Hrange.
  assert (Hc : mo = 1 \/ mo = 2 \/ mo = 3 \/ mo = 4 \/ mo = 5 \/ mo = 6
               \/ mo = 7 \/ mo = 8 \/ mo = 9 \/ mo = 10 \/ mo = 11 \/ mo = 12)
    by lia.
  repeat destruct Hc as [->|Hc]; try subst mo; calc_months;
    repeat match goal with
           | |- context [?a <? ?b] => destruct (Z.ltb_spec a b); try lia
           end; cbn; lia.
Qed.

(** Conversely, the year, month and date of any day are a date of the
    calendar. *)
Lemma components_valid (day : Z) :
  valid_date (YearFromDay day) (MonthFromDay day + 1) (DateFromDay day).
Proof.
  unfold valid_date, DateFromDay.
  pose proof (month_bracket day) as [Hm H]. cbv zeta in *.
  rewrite DaysInMonth_table by lia.
  replace (MonthFromDay day + 1 - 1) with (MonthFromDay day) by lia.
  lia.
Qed.

End DateFacts.

(** ** The window filter *)

Module WindowFacts.
Import JS JSDate DateFacts Client Window Spec Samples.
Local Open Scope Z_scope.

(** *** The date string of today parses back *)

Lemma pad2_two_digits (n : Z) :
  0 <= n <= 99 ->
  exists a b, pad2 n = String a (String b "")
              /\ is_digit a = true /\ is_digit b = true
              /\ 10 * digit_val a + digit_val b = n.
Proof.
  intros H.
  assert (A : forallb (fun k => match pad2 (Z.of_nat k) with
                                | String a (String b EmptyString) =>
                                    is_digit a && is_digit b
                                    && (10 * digit_val a + digit_val b =? Z.of_nat k)
                                | _ => false
                                end) (seq 0 100) = true)
    by (vm_compute; reflexivity).
  rewrite forallb_forall in A.
  specialize (A (Z.to_nat n)). rewrite Z2Nat.id in A by lia.
  assert (I : In (Z.to_nat n) (seq 0 100)) by (apply in_seq; lia).
  specialize (A I).
  destruct (pad2 n) as [|a [|b [|]]]; try discriminate.
  apply andb_true_iff in A as [A E]. apply andb_true_iff in A as [Ha Hb].
  apply Z.eqb_eq in E. now exists a, b.
Qed.

Lemma digits12_slash_two (a b : ascii) (rest : string) :
  is_digit a = true -> is_digit b = true ->
  digits12_slash (String a (String b (String "/" rest)))
  = Some (10 * digit_val a + digit_val b, rest).
Proof.
  intros Ha Hb. unfold digits12_slash.
  destruct b as [[] [] [] [] [] [] [] []]; try discriminate Hb;
    rewrite Ha; reflexivity.
Qed.

Lemma year_four_digits (y : Z) :
  1000 <= y <= 9999 -> digits4_end (string_of_int y) = Some y.
Proof.
  intros H.
  assert (A : forallb (fun k => match digits4_end (string_of_int k) with
                                | Some y' => y' =? k
                                | None => false
                                end) (seqZ 1000 9000) = true)
    by (vm_compute; reflexivity).
  rewrite forallb_forall in A.
  assert (I : In y (seqZ 1000 9000)).
  { apply list_elem_of_In, elem_of_seqZ. lia. }
  specialize (A y I).
  destruct (digits4_end (string_of_int y)) as [y'|]; [|discriminate].
  apply Z.eqb_eq in A. now subst.
Qed.

Lemma append_two (a b : ascii) (r : string) :
  String a (String b "") +:+ "/" +:+ r = String a (String b (String "/" r)).
Proof. reflexivity. Qed.

Lemma matchDMY_formatted (d mo y : Z) :
  0 <= d <= 99 -> 0 <= mo <= 99 -> 1000 <= y <= 9999 ->
  matchDMY (pad2 d +:+ "/" +:+ pad2 mo +:+ "/" +:+ string_of_int y)
  = Some (d, mo, y).
Proof.
  intros Hd Hmo Hy.
  destruct (pad2_two_digits d Hd) as (a & b & -> & Ha & Hb & Ed).
  destruct (pad2_two_digits mo Hmo) as (a' & b' & -> & Ha' & Hb' & Emo).
  unfold matchDMY. rewrite !append_two.
  rewrite (digits12_slash_two a b _ Ha Hb).
  rewrite (digits12_slash_two a' b' _ Ha' Hb').
  rewrite (year_four_digits y Hy). now rewrite Ed, Emo.
Qed.

(** *** Parsing *)

Lemma month_bracket_nonneg (m leap : Z) :
  0 <= leap -> 0 <= DaysBeforeMonth m leap.
Proof.
  intros H. unfold DaysBeforeMonth.
  repeat match goal with
         | |- context [if ?c then _ else _] => destruct c
         end; lia.
Qed.

(** What [parseDMYtoMs] returns, it has rebuilt to the same components. *)
Lemma parseDMYtoMs_Some (tz : Z) (s : string) (t : Z) :
  parseDMYtoMs tz s = Some t ->
  exists d mo y,
    matchDMY (trim s) = Some (d, mo, y)
    /\ t = Date_ymd tz y (mo - 1) d
    /\ getFullYear tz t = y /\ getMonth tz t + 1 = mo /\ getDate tz t = d.
Proof.
  unfold parseDMYtoMs.
  destruct (matchDMY (trim s)) as [[[d mo] y]|]; [|discriminate].
  set (dt := Date_ymd tz y (mo - 1) d).
  destruct (Z.eqb_spec (getFullYear tz dt) y) as [Ey|]; [|discriminate].
  destruct (Z.eqb_spec (getMonth tz dt + 1) mo) as [Em|]; [|discriminate].
  destruct (Z.eqb_spec (getDate tz dt) d) as [Ed|]; [|discriminate].
  cbn. intros [= <-]. now exists d, mo, y.
Qed.

(** What rebuilds to other components, [parseDMYtoMs] refuses. *)
Lemma parseDMYtoMs_mismatch (tz : Z) (s : string) (d mo y : Z) :
  matchDMY (trim s) = Some (d, mo, y) ->
  (getFullYear tz (Date_ymd tz y (mo - 1) d),
   getMonth tz (Date_ymd tz y (mo - 1) d) + 1,
   getDate tz (Date_ymd tz y (mo - 1) d)) <> (y, mo, d) ->
  parseDMYtoMs tz s = None.
Proof.
  intros Hm Hne. unfold parseDMYtoMs. rewrite Hm.
  set (dt := Date_ymd tz y (mo - 1) d) in *.
  destruct (Z.eqb_spec (getFullYear tz dt) y) as [Ey|]; [|reflexivity].
  destruct (Z.eqb_spec (getMonth tz dt + 1) mo) as [Em|]; [|reflexivity].
  destruct (Z.eqb_spec (getDate tz dt) d) as [Ed|]; [|reflexivity].
  exfalso. apply Hne. now rewrite Ey, Em, Ed.
Qed.

(** A year from 0 to 99 never rebuilds to itself. *)
Lemma two_digit_year_mismatch (y m d : Z) :
  0 <= y <= 99 -> YearFromDay (MakeDay (1900 + y) m d) = y ->
  MonthFromDay (MakeDay (1900 + y) m d) = m ->
  DateFromDay (MakeDay (1900 + y) m d) = d -> False.
Proof.
  intros Hy Ey Em Ed.
  pose proof (year_bracket (MakeDay (1900 + y) m d)) as B. rewrite Ey in B.
  pose proof (month_bracket (MakeDay (1900 + y) m d)) as [Hm _].
  cbv zeta in Hm. rewrite Em in Hm.
  pose proof (DateFromDay_range (MakeDay (1900 + y) m d)) as Hd.
  rewrite Ed in Hd.
  rewrite MakeDay_in_year in B by exact Hm.
  pose proof (DayFromYear_mono (y + 1) (1900 + y) ltac:(lia)).
  pose proof (InLeapYear_01 (1900 + y)) as L.
  pose proof (month_bracket_nonneg m (InLeapYear (1900 + y)) ltac:(lia)).
  lia.
Qed.

Lemma Date_ymd_eq (tz y m d : Z) :
  ~ (0 <= y <= 99) -> Date_ymd tz y m d = MakeDay y m d * msPerDay - tz.
Proof.
  intros H. unfold Date_ymd.
  destruct ((0 <=? y) && (y <=? 99)) eqn:C; [|reflexivity].
  apply andb_true_iff in C as [C1 C2]. apply Z.leb_le in C1, C2. lia.
Qed.

(** The getters of [new Date(y, m, d)] read the day it was made from. *)
Lemma getters_of_Date_ymd (tz y m d : Z) :
  let day := MakeDay (if (0 <=? y) && (y <=? 99) then 1900 + y else y) m d in
  getFullYear tz (Date_ymd tz y m d) = YearFromDay day
  /\ getMonth tz (Date_ymd tz y m d) = MonthFromDay day
  /\ getDate tz (Date_ymd tz y m d) = DateFromDay day.
Proof.
  cbv zeta. unfold getFullYear, getMonth, getDate, Date_ymd.
  now rewrite Day_of_midnight.
Qed.

Lemma rebuilt_year_not_19xx (tz y mo d : Z) :
  getFullYear tz (Date_ymd tz y (mo - 1) d) = y ->
  getMonth tz (Date_ymd tz y (mo - 1) d) + 1 = mo ->
  getDate tz (Date_ymd tz y (mo - 1) d) = d ->
  ~ (0 <= y <= 99).
Proof.
  destruct (getters_of_Date_ymd tz y (mo - 1) d) as (-> & -> & ->).
  intros Hy Hmo Hd C.
  destruct C as [C1 C2]. pose proof C1 as C1'. pose proof C2 as C2'.
  apply Z.leb_le in C1', C2'. rewrite C1', C2' in *. cbn [andb] in *.
  apply (two_digit_year_mismatch y (mo - 1) d (conj C1 C2) Hy); [lia|exact Hd].
Qed.

Lemma rebuilt_date_valid (tz y mo d : Z) :
  getFullYear tz (Date_ymd tz y (mo - 1) d) = y ->
  getMonth tz (Date_ymd tz y (mo - 1) d) + 1 = mo ->
  getDate tz (Date_ymd tz y (mo - 1) d) = d ->
  ~ (0 <= y <= 99) -> valid_date y mo d.
Proof.
  destruct (getters_of_Date_ymd tz y (mo - 1) d) as (-> & -> & ->).
  intros Hy Hmo Hd Hn.
  assert (E : (0 <=? y) && (y <=? 99) = false).
  { apply andb_false_iff. rewrite !Z.leb_gt. lia. }
  rewrite E in *.
  pose proof (components_valid (MakeDay y (mo - 1) d)) as V.
  rewrite Hy, Hmo, Hd in V. exact V.
Qed.

(** What [parseDMYtoMs] accepts is a date of the calendar, in a year
    that [new Date] does not read as 19xx. *)
Lemma parseDMYtoMs_sound (tz : Z) (s : string) (t : Z) :
  parseDMYtoMs tz s = Some t ->
  exists d mo y,
    matchDMY (trim s) = Some (d, mo, y)
    /\ ~ (0 <= y <= 99) /\ valid_date y mo d
    /\ t = MakeDay y (mo - 1) d * msPerDay - tz.
Proof.
  intros H.
  apply parseDMYtoMs_Some in H as (d & mo & y & Hm & Et & Hy & Hmo & Hd).
  subst t.
  pose proof (rebuilt_year_not_19xx tz y mo d Hy Hmo Hd) as Hn.
  exists d, mo, y.
  split; [exact Hm|]. split; [exact Hn|].
  split; [exact (rebuilt_date_valid tz y mo d Hy Hmo Hd Hn)|].
  apply Date_ymd_eq, Hn.
Qed.

(** Every date of the calendar is accepted, as its local midnight. *)
Lemma parseDMYtoMs_complete (tz : Z) (s : string) (d mo y : Z) :
  matchDMY (trim s) = Some (d, mo, y) ->
  ~ (0 <= y <= 99) -> valid_date y mo d ->
  parseDMYtoMs tz s = Some (MakeDay y (mo - 1) d * msPerDay - tz).
Proof.
  intros Hm Hn Hv. unfold parseDMYtoMs. rewrite Hm.
  rewrite (Date_ymd_eq tz y _ _ Hn).
  unfold getFullYear, getMonth, getDate. rewrite Day_of_midnight.
  destruct (components_of_MakeDay y mo d Hv) as (Ey & Emo & Ed).
  now rewrite Ey, Emo, Ed, !Z.eqb_refl.
Qed.

(** [parseDMYtoMs] accepts exactly the strings that, trimmed, match the
    pattern and name a date of the calendar in a year that [new Date]
    does not read as 19xx (the pattern leaves the years 0100 to 9999),
    and it returns the local midnight of that date. *)
Theorem parseDMYtoMs_calendar (tz : Z) (s : string) (t : Z) :
  parseDMYtoMs tz s = Some t <->
  exists d mo y,
    matchDMY (trim s) = Some (d, mo, y)
    /\ ~ (0 <= y <= 99) /\ valid_date y mo d
    /\ t = MakeDay y (mo - 1) d * msPerDay - tz.
Proof.
  split.
  - apply parseDMYtoMs_sound.
  - intros (d & mo & y & Hm & Hn & Hv & ->).
    now apply parseDMYtoMs_complete.
Qed.

(** *** The filters *)

Lemma in_filter (c : Clock) (bets : list Bet) (b : Bet) (p : Period) :
  In b (filterBetsByAddedDate c bets p) <->
  In b bets /\ match p with
               | DAY => in_day c b
               | WEEK => in_week c b
               | MONTH => in_month c b
               end = true.
Proof. destruct p; apply List.filter_In. Qed.

Lemma unparsable_not_in_week (c : Clock) (b : Bet) :
  parseDMYtoMs (tz c) (added_date b) = None -> in_week c b = false.
Proof. intros H. unfold in_week. now rewrite H. Qed.

Lemma unparsable_not_in_month (c : Clock) (b : Bet) :
  parseDMYtoMs (tz c) (added_date b) = None -> in_month c b = false.
Proof. intros H. unfold in_month. now rewrite H. Qed.

(** C3: [parseDMYtoMs] returns a time only when the date rebuilt from
    the parsed day, month and year has those same components, and
    refuses every string for which it has not; these are exactly the
    strings that do not name a date of the calendar, such as
    31/02/2024; and a bet whose [added_date] is refused is in neither
    the WEEK nor the MONTH selection, whatever the list and the clock. *)
Theorem unparsable_dates_excluded :
  (forall tz s t, parseDMYtoMs tz s = Some t ->
     exists d mo y, matchDMY (trim s) = Some (d, mo, y)
       /\ t = Date_ymd tz y (mo - 1) d
       /\ getFullYear tz t = y /\ getMonth tz t + 1 = mo /\ getDate tz t = d)
  /\ (forall tz s d mo y,
       matchDMY (trim s) = Some (d, mo, y) ->
       (getFullYear tz (Date_ymd tz y (mo - 1) d),
        getMonth tz (Date_ymd tz y (mo - 1) d) + 1,
        getDate tz (Date_ymd tz y (mo - 1) d)) <> (y, mo, d) ->
       parseDMYtoMs tz s = None)
  /\ (forall tz s d mo y,
       matchDMY (trim s) = Some (d, mo, y) -> ~ valid_date y mo d ->
       parseDMYtoMs tz s = None)
  /\ (forall tz, parseDMYtoMs tz "31/02/2024" = None)
  /\ (forall c bets b,
       parseDMYtoMs (tz c) (added_date b) = None ->
       ~ In b (filterBetsByAddedDate c bets WEEK)
       /\ ~ In b (filterBetsByAddedDate c bets MONTH)).
Proof.
  split; [exact parseDMYtoMs_Some|].
  split; [exact parseDMYtoMs_mismatch|].
  assert (V : forall tz s d mo y,
             matchDMY (trim s) = Some (d, mo, y) -> ~ valid_date y mo d ->
             parseDMYtoMs tz s = None).
  { intros tz s d mo y Hm Hv.
    destruct (parseDMYtoMs tz s) as [t|] eqn:P; [|reflexivity].
    apply parseDMYtoMs_sound in P as (d' & mo' & y' & Hm' & _ & Hv' & _).
    rewrite Hm in Hm'. injection Hm' as <- <- <-. contradiction. }
  split; [exact V|].
  split.
  - intros tz. apply (V tz _ 31 2 2024); [vm_compute; reflexivity|].
    intros [_ [_ H]]. vm_compute in H. now apply H.
  - intros c bets b H. split; intros I; apply in_filter in I as [_ I].
    + now rewrite (unparsable_not_in_week c b H) in I.
    + now rewrite (unparsable_not_in_month c b H) in I.
Qed.

(** A bet dated 31/02/2024 is in neither window on 2 March 2024. *)
Lemma unparsable_dates_excluded_witness :
  parseDMYtoMs (tz clock_2024_03_02) "31/02/2024" = None
  /\ ~ In (dated "31/02/2024")
         (filterBetsByAddedDate clock_2024_03_02
            [dated "02/03/2024"; dated "31/02/2024"] WEEK)
  /\ ~ In (dated "31/02/2024")
         (filterBetsByAddedDate clock_2024_03_02
            [dated "02/03/2024"; dated "31/02/2024"] MONTH).
Proof.
  destruct unparsable_dates_excluded as (_ & _ & _ & E & F).
  split; [apply E|]. apply F, E.
Defined.

(** Each filter returns a subsequence of the list it is given: the
    selected bets, in their order. *)
Theorem filter_is_subsequence (c : Clock) (bets : list Bet) (p : Period) :
  sublist (filterBetsByAddedDate c bets p) bets.
Proof.
  assert (S : forall f : Bet -> bool, sublist (List.filter f bets) bets).
  { intros f. induction bets as [|b l IH]; cbn; [constructor|].
    destruct (f b); [now apply sublist_skip|now apply sublist_cons]. }
  destruct p; apply S.
Qed.

(** *** Nesting of the windows *)

(** The start of today is the local midnight of the day of [now]. *)
Lemma startOfDayMs_today (c : Clock) :
  ~ (0 <= getFullYear (tz c) (now c) <= 99) ->
  startOfDayMs (tz c) (now c) = Day (now c + tz c) * msPerDay - tz c.
Proof.
  intros Hn. unfold startOfDayMs. rewrite Date_ymd_eq by exact Hn.
  unfold getFullYear, getMonth, getDate. now rewrite MakeDay_components.
Qed.

(** In a year of four digits, the string of today parses to the start
    of today. *)
Lemma parse_today (c : Clock) (s : string) :
  1000 <= getFullYear (tz c) (now c) <= 9999 ->
  trim s = todayDMY c ->
  parseDMYtoMs (tz c) s = Some (startOfDayMs (tz c) (now c)).
Proof.
  intros HY Hs.
  assert (Hn : ~ (0 <= getFullYear (tz c) (now c) <= 99)) by lia.
  rewrite (startOfDayMs_today c Hn).
  unfold getFullYear in *.
  set (day := Day (now c + tz c)) in *.
  pose proof (month_bracket day) as [HM _]. cbv zeta in HM.
  pose proof (DateFromDay_range day) as HD.
  rewrite (parseDMYtoMs_complete (tz c) s (DateFromDay day)
             (MonthFromDay day + 1) (YearFromDay day)).
  - replace (MonthFromDay day + 1 - 1) with (MonthFromDay day) by lia.
    now rewrite MakeDay_components.
  - rewrite Hs. unfold todayDMY, getDate, getMonth, getFullYear. fold day.
    apply matchDMY_formatted; lia.
  - exact Hn.
  - apply components_valid.
Qed.

(** A time lies between the first day of its month and the first day
    of the next. *)
Lemma time_in_its_month (tz0 t : Z) :
  ~ (0 <= getFullYear tz0 t <= 99) ->
  Date_ymd tz0 (getFullYear tz0 t) (getMonth tz0 t) 1 <= t
  < Date_ymd tz0 (getFullYear tz0 t) (getMonth tz0 t + 1) 1.
Proof.
  intros Hn. rewrite !Date_ymd_eq by exact Hn.
  unfold getFullYear, getMonth.
  pose proof (month_window (Day (t + tz0))) as W.
  set (lo := MakeDay _ _ 1) in *. set (hi := MakeDay _ _ 1) in *.
  clearbody lo hi. unfold Day, msPerDay in *.
  Z.div_mod_to_equations. lia.
Qed.

Lemma same_month_in_month (c : Clock) (b : Bet) (t : Z) :
  ~ (0 <= getFullYear (tz c) (now c) <= 99) ->
  parseDMYtoMs (tz c) (added_date b) = Some t ->
  getFullYear (tz c) t = getFullYear (tz c) (now c) ->
  getMonth (tz c) t = getMonth (tz c) (now c) ->
  in_month c b = true.
Proof.
  intros Hn Hp Ey Em. unfold in_month. rewrite Hp, <- Ey, <- Em.
  rewrite <- Ey in Hn.
  pose proof (time_in_its_month (tz c) t Hn) as [H1 H2].
  apply andb_true_iff. split; [now apply Z.leb_le|now apply Z.ltb_lt].
Qed.

Lemma startOfDayMs_components (c : Clock) :
  ~ (0 <= getFullYear (tz c) (now c) <= 99) ->
  getFullYear (tz c) (startOfDayMs (tz c) (now c)) = getFullYear (tz c) (now c)
  /\ getMonth (tz c) (startOfDayMs (tz c) (now c)) = getMonth (tz c) (now c).
Proof.
  intros Hn. rewrite (startOfDayMs_today c Hn).
  unfold getFullYear, getMonth. now rewrite Day_of_midnight.
Qed.

(** C4 (as amended): when the local year of [now] has four digits, every
    bet that DAY selects is selected by WEEK and by MONTH, and every bet
    that WEEK selects and whose date lies in the calendar month of [now]
    is selected by MONTH. *)
Theorem window_filters_nested (c : Clock) (bets : list Bet) (b : Bet) :
  1000 <= getFullYear (tz c) (now c) <= 9999 ->
  (In b (filterBetsByAddedDate c bets DAY) ->
   In b (filterBetsByAddedDate c bets WEEK))
  /\ (In b (filterBetsByAddedDate c bets WEEK) ->
      (exists t, parseDMYtoMs (tz c) (added_date b) = Some t
                 /\ getFullYear (tz c) t = getFullYear (tz c) (now c)
                 /\ getMonth (tz c) t = getMonth (tz c) (now c)) ->
      In b (filterBetsByAddedDate c bets MONTH))
  /\ (In b (filterBetsByAddedDate c bets DAY) ->
      In b (filterBetsByAddedDate c bets MONTH)).
Proof.
  intros HY.
  assert (Hn : ~ (0 <= getFullYear (tz c) (now c) <= 99)) by lia.
  assert (Hday : In b (filterBetsByAddedDate c bets DAY) ->
                 In b bets
                 /\ parseDMYtoMs (tz c) (added_date b)
                    = Some (startOfDayMs (tz c) (now c))).
  { intros I. apply in_filter in I as [I D]. split; [exact I|].
    apply parse_today; [exact HY|]. now apply String.eqb_eq. }
  repeat split.
  - intros I. apply Hday in I as [I P]. apply in_filter. split; [exact I|].
    unfold in_week. rewrite P.
    apply andb_true_iff. split; apply Z.leb_le; lia.
  - intros I (t & P & Ey & Em). apply in_filter in I as [I _].
    apply in_filter. split; [exact I|].
    exact (same_month_in_month c b t Hn P Ey Em).
  - intros I. apply Hday in I as [I P]. apply in_filter. split; [exact I|].
    destruct (startOfDayMs_components c Hn) as [Ey Em].
    exact (same_month_in_month c b _ Hn P Ey Em).
Qed.

Lemma window_filters_nested_witness :
  In (dated "03/11/2026")
     (filterBetsByAddedDate clock_2026_11_03
        [dated "28/10/2026"; dated "03/11/2026"] WEEK)
  /\ In (dated "03/11/2026")
        (filterBetsByAddedDate clock_2026_11_03
           [dated "28/10/2026"; dated "03/11/2026"] MONTH).
Proof.
  assert (HY : 1000 <= getFullYear (tz clock_2026_11_03) (now clock_2026_11_03)
               <= 9999) by (vm_compute; split; discriminate).
  assert (I : In (dated "03/11/2026")
                 (filterBetsByAddedDate clock_2026_11_03
                    [dated "28/10/2026"; dated "03/11/2026"] DAY))
    by (vm_compute; left; reflexivity).
  destruct (window_filters_nested clock_2026_11_03
              [dated "28/10/2026"; dated "03/11/2026"]
              (dated "03/11/2026") HY) as (H1 & _ & H3).
  split; [exact (H1 I)|exact (H3 I)].
Defined.

(** C4, as the specification words it, fails when the year of [now] has
    five digits: the string of today is 01/01/10000, DAY selects the bet
    that carries it, and WEEK, whose pattern wants a year of four digits,
    does not. *)
Lemma window_filters_year_10000 :
  todayDMY clock_10000 = "01/01/10000"
  /\ In (dated "01/01/10000")
        (filterBetsByAddedDate clock_10000 [dated "01/01/10000"] DAY)
  /\ ~ In (dated "01/01/10000")
          (filterBetsByAddedDate clock_10000 [dated "01/01/10000"] WEEK).
Proof.
  split; [vm_compute; reflexivity|].
  split; [vm_compute; left; reflexivity|].
  vm_compute. intros [].
Qed.

End WindowFacts.

(** ** The windows, day by day *)

Module CalendarWindowFacts.
Import JS JSDate DateFacts Client Window Spec Samples WindowFacts.
Local Open Scope Z_scope.

(** *** The start of the day *)

(** In a zone whose offset is the same all year, [startOfDayMs] returns
    the last local midnight that is not after its argument: it is less
    than a day back, it is a midnight of the zone, it is its own start
    of day, and it falls in the same year, month and day.  (Where the
    offset changes with the season, the day of a change is an hour
    longer or shorter, and the start of day is up to 25 hours back.)
    The argument is taken outside the years 0 to 99. *)
Theorem startOfDayMs_is_midnight (tz0 ms : Z) :
  ~ (0 <= getFullYear tz0 ms <= 99) ->
  startOfDayMs tz0 ms <= ms < startOfDayMs tz0 ms + msPerDay
  /\ (startOfDayMs tz0 ms + tz0) mod msPerDay = 0
  /\ startOfDayMs tz0 (startOfDayMs tz0 ms) = startOfDayMs tz0 ms
  /\ getFullYear tz0 (startOfDayMs tz0 ms) = getFullYear tz0 ms
  /\ getMonth tz0 (startOfDayMs tz0 ms) = getMonth tz0 ms
  /\ getDate tz0 (startOfDayMs tz0 ms) = getDate tz0 ms.
Proof.
  intros Hn.
  pose proof (startOfDayMs_today (mkClock ms tz0) Hn) as E.
  cbn [now tz] in E.
  assert (G : Day (startOfDayMs tz0 ms + tz0) = Day (ms + tz0))
    by (rewrite E; apply Day_of_midnight).
  assert (Y : getFullYear tz0 (startOfDayMs tz0 ms) = getFullYear tz0 ms)
    by (unfold getFullYear; now rewrite G).
  split; [|split; [|split; [|split; [|split]]]].
  - rewrite E. unfold Day, msPerDay. Z.div_mod_to_equations. lia.
  - rewrite E. replace (Day (ms + tz0) * msPerDay - tz0 + tz0)
      with (Day (ms + tz0) * msPerDay) by lia.
    apply Z.mod_mul. unfold msPerDay. lia.
  - assert (Hn' : ~ (0 <= getFullYear tz0 (startOfDayMs tz0 ms) <= 99))
      by now rewrite Y.
    pose proof (startOfDayMs_today (mkClock (startOfDayMs tz0 ms) tz0) Hn')
      as E'.
    cbn [now tz] in E'. rewrite E', G. now symmetry.
  - exact Y.
  - unfold getMonth. now rewrite G.
  - unfold getDate. now rewrite G.
Qed.

Lemma startOfDayMs_is_midnight_witness :
  startOfDayMs 10800000 1793700000000 = 1793653200000
  /\ startOfDayMs 10800000 1793653200000 = 1793653200000.
Proof.
  assert (Hn : ~ (0 <= getFullYear 10800000 1793700000000 <= 99))
    by (vm_compute; intros [_ H]; now apply H).
  destruct (startOfDayMs_is_midnight 10800000 1793700000000 Hn)
    as (_ & _ & I & _).
  assert (E : startOfDayMs 10800000 1793700000000 = 1793653200000)
    by (vm_compute; reflexivity).
  split; [exact E|]. now rewrite E in I.
Defined.

(** *** WEEK and MONTH *)

(** The days from the first of a month to the first of the next are the
    days of that month. *)
Lemma month_window_inverse (y m day : Z) :
  0 <= m <= 11 ->
  MakeDay y m 1 <= day < MakeDay y (m + 1) 1 ->
  YearFromDay day = y /\ MonthFromDay day = m.
Proof.
  intros Hm [H1 H2].
  rewrite (MakeDay_in_year y m 1 Hm) in H1.
  rewrite (MakeDay_next_month y m Hm) in H2.
  set (d := day - (DayFromYear y + DaysBeforeMonth m (InLeapYear y)) + 1).
  assert (V : valid_date y (m + 1) d).
  { split; [lia|]. rewrite DaysInMonth_table by lia.
    replace (m + 1 - 1) with m by lia. unfold d. lia. }
  pose proof (components_of_MakeDay y (m + 1) d V) as C. cbv zeta in C.
  replace (m + 1 - 1) with m in C by lia.
  rewrite (MakeDay_in_year y m d Hm) in C.
  replace (DayFromYear y + DaysBeforeMonth m (InLeapYear y) + d - 1)
    with day in C by (unfold d; lia).
  destruct C as (Cy & Cm & _). split; [exact Cy|lia].
Qed.

(** In a zone whose offset is the same all year, WEEK selects exactly the
    bets dated today or on one of the six days before: the date names a
    day of the calendar, in a year that is not read as 19xx, and that
    day is at most six days back and not after today.  (Where the offset
    changes within the week, the midnights are an hour apart from the
    multiples of 24 hours that the filter counts with, and the sixth day
    back can fall out.)  [now] is taken outside the years 0 to 99. *)
Theorem week_is_seven_days (c : Clock) (b : Bet) :
  ~ (0 <= getFullYear (tz c) (now c) <= 99) ->
  in_week c b = true <->
  exists d mo y,
    matchDMY (trim (added_date b)) = Some (d, mo, y)
    /\ ~ (0 <= y <= 99) /\ valid_date y mo d
    /\ Day (now c + tz c) - 6 <= MakeDay y (mo - 1) d <= Day (now c + tz c).
Proof.
  intros Hn. unfold in_week. rewrite (startOfDayMs_today c Hn).
  set (today := Day (now c + tz c)).
  change (24 * 60 * 60 * 1000) with msPerDay.
  change (6 * 24 * 60 * 60 * 1000) with (6 * msPerDay).
  split.
  - destruct (parseDMYtoMs (tz c) (added_date b)) as [t|] eqn:P; [|discriminate].
    destruct (parseDMYtoMs_sound _ _ _ P) as (d & mo & y & M & Hy & V & ->).
    intros H. apply andb_true_iff in H as [H1 H2].
    apply Z.leb_le in H1. apply Z.leb_le in H2.
    exists d, mo, y. repeat split; try assumption; try apply V.
    all: unfold msPerDay in *; lia.
  - intros (d & mo & y & M & Hy & V & H1 & H2).
    rewrite (parseDMYtoMs_complete (tz c) (added_date b) d mo y M Hy V).
    apply andb_true_iff. split; apply Z.leb_le; unfold msPerDay; lia.
Qed.

Lemma week_is_seven_days_witness :
  in_week clock_2026_11_03 (dated "28/10/2026") = true
  /\ in_week clock_2026_11_03 (dated "27/10/2026") <> true
  /\ in_week clock_2026_11_03 (dated "04/11/2026") <> true.
Proof.
  assert (Hn : ~ (0 <= getFullYear (tz clock_2026_11_03) (now clock_2026_11_03)
                  <= 99)) by (vm_compute; intros [_ H]; now apply H).
  split; [|split].
  - apply (week_is_seven_days clock_2026_11_03 (dated "28/10/2026") Hn).
    exists 28, 10, 2026.
    split; [vm_compute; reflexivity|].
    split; [lia|].
    split; [vm_compute; repeat split; discriminate|].
    vm_compute; split; discriminate.
  - intros H.
    apply (week_is_seven_days clock_2026_11_03 (dated "27/10/2026") Hn) in H.
    destruct H as (d & mo & y & M & _ & _ & H & _).
    vm_compute in M. injection M as <- <- <-. vm_compute in H. now apply H.
  - intros H.
    apply (week_is_seven_days clock_2026_11_03 (dated "04/11/2026") Hn) in H.
    destruct H as (d & mo & y & M & _ & _ & _ & H).
    vm_compute in M. injection M as <- <- <-. vm_compute in H. now apply H.
Defined.

(** MONTH selects exactly the bets whose date names a day of the calendar
    month of [now], days still to come included.  [now] is taken outside
    the years 0 to 99. *)
Theorem month_is_calendar_month (c : Clock) (b : Bet) :
  ~ (0 <= getFullYear (tz c) (now c) <= 99) ->
  in_month c b = true <->
  exists d mo y,
    matchDMY (trim (added_date b)) = Some (d, mo, y)
    /\ valid_date y mo d
    /\ y = getFullYear (tz c) (now c)
    /\ mo = getMonth (tz c) (now c) + 1.
Proof.
  intros Hn. unfold in_month. rewrite !Date_ymd_eq by exact Hn.
  set (Y := getFullYear (tz c) (now c)) in *.
  set (M := getMonth (tz c) (now c)).
  assert (HM : 0 <= M <= 11).
  { pose proof (month_bracket (Day (now c + tz c))) as [H _]. exact H. }
  split.
  - destruct (parseDMYtoMs (tz c) (added_date b)) as [t|] eqn:P; [|discriminate].
    destruct (parseDMYtoMs_sound _ _ _ P) as (d & mo & y & Hm & Hy & V & ->).
    intros H. apply andb_true_iff in H as [H1 H2].
    apply Z.leb_le in H1. apply Z.ltb_lt in H2.
    assert (W : MakeDay Y M 1 <= MakeDay y (mo - 1) d < MakeDay Y (M + 1) 1)
      by (unfold msPerDay in *; lia).
    destruct (month_window_inverse Y M _ HM W) as [Ey Em].
    pose proof (components_of_MakeDay y mo d V) as C. cbv zeta in C.
    destruct C as (Cy & Cm & _).
    exists d, mo, y. repeat split; try assumption; try apply V; lia.
  - intros (d & mo & y & Hm & V & -> & ->).
    rewrite (parseDMYtoMs_complete (tz c) (added_date b) d (M + 1) Y Hm Hn V).
    destruct V as [_ V]. rewrite DaysInMonth_table in V by lia.
    replace (M + 1 - 1) with M in * by lia.
    rewrite (MakeDay_in_year Y M d HM), (MakeDay_in_year Y M 1 HM),
            (MakeDay_next_month Y M HM).
    apply andb_true_iff.
    split; [apply Z.leb_le|apply Z.ltb_lt]; unfold msPerDay; lia.
Qed.

Lemma month_is_calendar_month_witness :
  in_month clock_2026_11_03 (dated "30/11/2026") = true
  /\ in_month clock_2026_11_03 (dated "31/10/2026") <> true.
Proof.
  assert (Hn : ~ (0 <= getFullYear (tz clock_2026_11_03) (now clock_2026_11_03)
                  <= 99)) by (vm_compute; intros [_ H]; now apply H).
  split.
  - apply (month_is_calendar_month clock_2026_11_03 (dated "30/11/2026") Hn).
    exists 30, 11, 2026.
    split; [vm_compute; reflexivity|].
    split; [vm_compute; repeat split; discriminate|].
    split; vm_compute; reflexivity.
  - intros H.
    apply (month_is_calendar_month clock_2026_11_03 (dated "31/10/2026") Hn) in H.
    destruct H as (d & mo & y & M & _ & _ & H).
    vm_compute in M. injection M as <- <- <-. vm_compute in H. discriminate H.
Defined.

(** *** DAY compares strings *)

Lemma digit_val_range (a : ascii) : is_digit a = true -> 0 <= digit_val a <= 9.
Proof.
  unfold is_digit, digit_val. intros H.
  apply andb_true_iff in H as [H1 H2].
  apply N.leb_le in H1. apply N.leb_le in H2. lia.
Qed.

Lemma digit_val_inj (a b : ascii) : digit_val a = digit_val b -> a = b.
Proof.
  unfold digit_val. intros H.
  assert (E : N_of_ascii a = N_of_ascii b) by lia.
  rewrite <- (ascii_N_embedding a), <- (ascii_N_embedding b). now rewrite E.
Qed.

Lemma slash_then_inv {T : Type} (s : string) (f : string -> option T) (r : T) :
  match s with
  | String "/" rest => f rest
  | _ => None
  end = Some r ->
  exists rest, s = String "/" rest /\ f rest = Some r.
Proof.
  destruct s as [|c rest]; [discriminate|].
  destruct c as [[] [] [] [] [] [] [] []]; try discriminate.
  intros H. now exists rest.
Qed.

(** What the pattern [(\d{1,2})\/] has matched. *)
Lemma digits12_slash_inv (s : string) (v : Z) (rest : string) :
  digits12_slash s = Some (v, rest) ->
  (exists a, s = String a (String "/" rest)
             /\ is_digit a = true /\ v = digit_val a)
  \/ (exists a b, s = String a (String b (String "/" rest))
                  /\ is_digit a = true /\ is_digit b = true
                  /\ v = 10 * digit_val a + digit_val b).
Proof.
  destruct s as [|a [|b s2]]; try discriminate.
  unfold digits12_slash.
  destruct (Ascii.eqb_spec b "/") as [->|N].
  - destruct (is_digit a) eqn:Da; [|discriminate].
    intros [= <- <-]. left. now exists a.
  - intros H. right.
    assert (H' : match s2 with
                 | String "/" rest' =>
                     if is_digit a && is_digit b
                     then Some (10 * digit_val a + digit_val b, rest')
                     else None
                 | _ => None
                 end = Some (v, rest)).
    { destruct b as [[] [] [] [] [] [] [] []]; try exact H.
      now contradiction N. }
    apply slash_then_inv in H' as (rest' & -> & H').
    destruct (is_digit a) eqn:Da; [|discriminate].
    destruct (is_digit b) eqn:Db; [|discriminate].
    injection H' as <- <-. now exists a, b.
Qed.

Lemma digits4_end_inv (s : string) (y : Z) :
  digits4_end s = Some y ->
  exists e f g h,
    s = String e (String f (String g (String h "")))
    /\ is_digit e = true /\ is_digit f = true
    /\ is_digit g = true /\ is_digit h = true
    /\ y = 1000 * digit_val e + 100 * digit_val f + 10 * digit_val g + digit_val h.
Proof.
  destruct s as [|e [|f [|g [|h [|]]]]]; try discriminate.
  unfold digits4_end.
  destruct (is_digit e) eqn:De; [|discriminate].
  destruct (is_digit f) eqn:Df; [|discriminate].
  destruct (is_digit g) eqn:Dg; [|discriminate].
  destruct (is_digit h) eqn:Dh; [|discriminate].
  intros [= <-]. now exists e, f, g, h.
Qed.

Lemma year_as_four_digits (y : Z) :
  1000 <= y <= 9999 ->
  exists e f g h,
    string_of_int y = String e (String f (String g (String h "")))
    /\ is_digit e = true /\ is_digit f = true
    /\ is_digit g = true /\ is_digit h = true
    /\ y = 1000 * digit_val e + 100 * digit_val f + 10 * digit_val g + digit_val h.
Proof.
  intros H. apply digits4_end_inv. now apply year_four_digits.
Qed.

(** A string of ten characters that matches the pattern as the numbers
    [d], [mo] and [y] is those numbers written with two, two and four
    digits. *)
Lemma matchDMY_ten (s : string) (d mo y : Z) :
  0 <= d <= 99 -> 0 <= mo <= 99 -> 1000 <= y <= 9999 ->
  matchDMY s = Some (d, mo, y) -> String.length s = 10%nat ->
  s = pad2 d +:+ "/" +:+ pad2 mo +:+ "/" +:+ string_of_int y.
Proof.
  intros Hd Hmo Hy M L. unfold matchDMY in M.
  destruct (digits12_slash s) as [[d' s1]|] eqn:E1; [|discriminate].
  destruct (digits12_slash s1) as [[mo' s2]|] eqn:E2; [|discriminate].
  destruct (digits4_end s2) as [y'|] eqn:E3; [|discriminate].
  injection M as -> -> ->.
  apply digits4_end_inv in E3 as (e & f & g & h & -> & De & Df & Dg & Dh & Ey).
  apply digits12_slash_inv in E1
    as [(a & -> & Da & Ed)|(a & b & -> & Da & Db & Ed)];
    apply digits12_slash_inv in E2
      as [(a' & -> & Da' & Emo)|(a' & b' & -> & Da' & Db' & Emo)];
    try discriminate L.
  destruct (pad2_two_digits d Hd) as (p & q & -> & Dp & Dq & Ep).
  destruct (pad2_two_digits mo Hmo) as (p' & q' & -> & Dp' & Dq' & Ep').
  destruct (year_as_four_digits y Hy)
    as (e' & f' & g' & h' & -> & De' & Df' & Dg' & Dh' & Ey').
  rewrite !append_two.
  repeat match goal with
         | D : is_digit ?c = true |- _ => apply digit_val_range in D
         end.
  assert (a = p /\ b = q /\ a' = p' /\ b' = q'
          /\ e = e' /\ f = f' /\ g = g' /\ h = h')
    as (-> & -> & -> & -> & -> & -> & -> & ->)
    by (repeat split; apply digit_val_inj; lia).
  reflexivity.
Qed.

(** DAY selects exactly the bets whose date, trimmed, names today and is
    written in full: ten characters, day and month with two digits.  A
    date that names today with a single digit matches the pattern of
    WEEK and MONTH and is not in DAY.  [now] is taken in a year of four
    digits. *)
Theorem day_is_today_in_full (c : Clock) (b : Bet) :
  1000 <= getFullYear (tz c) (now c) <= 9999 ->
  in_day c b = true <->
  matchDMY (trim (added_date b))
  = Some (getDate (tz c) (now c), getMonth (tz c) (now c) + 1,
          getFullYear (tz c) (now c))
  /\ String.length (trim (added_date b)) = 10%nat.
Proof.
  intros HY. unfold in_day.
  pose proof (DateFromDay_range (Day (now c + tz c))) as HD.
  pose proof (month_bracket (Day (now c + tz c))) as [HM _]. cbv zeta in HM.
  fold (getDate (tz c) (now c)) in HD. fold (getMonth (tz c) (now c)) in HM.
  split.
  - intros E. apply String.eqb_eq in E. rewrite E. unfold todayDMY.
    split; [apply matchDMY_formatted; lia|].
    destruct (pad2_two_digits (getDate (tz c) (now c)))
      as (p & q & -> & _); [lia|].
    destruct (pad2_two_digits (getMonth (tz c) (now c) + 1))
      as (p' & q' & -> & _); [lia|].
    destruct (year_as_four_digits _ HY) as (e & f & g & h & -> & _).
    reflexivity.
  - intros [M L]. apply String.eqb_eq. unfold todayDMY.
    apply matchDMY_ten; try assumption; lia.
Qed.

Lemma day_is_today_in_full_witness :
  in_day clock_2026_11_03 (dated " 03/11/2026 ") = true
  /\ in_day clock_2026_11_03 (dated "3/11/2026") <> true
  /\ in_week clock_2026_11_03 (dated "3/11/2026") = true.
Proof.
  assert (HY : 1000 <= getFullYear (tz clock_2026_11_03) (now clock_2026_11_03)
               <= 9999) by (vm_compute; split; discriminate).
  split; [|split].
  - apply (day_is_today_in_full clock_2026_11_03 (dated " 03/11/2026 ") HY).
    split; vm_compute; reflexivity.
  - intros H.
    apply (day_is_today_in_full clock_2026_11_03 (dated "3/11/2026") HY) in H.
    destruct H as [_ H]. vm_compute in H. discriminate H.
  - vm_compute. reflexivity.
Defined.

(** *** From the date the server writes to the windows *)

(** No white space starts with a digit, and none ends with one. *)
Lemma digit_not_space (a : ascii) (l : list ascii) :
  is_digit a = true ->
  drop_any white_space (a :: l) = None
  /\ drop_any (List.map (@rev ascii) white_space) (a :: l) = None.
Proof.
  destruct a as [[] [] [] [] [] [] [] []]; try discriminate; intros _;
    split; reflexivity.
Qed.

(** A date written in full has nothing to trim. *)
Lemma trim_full_date (a b c d e f g h : ascii) :
  is_digit a = true -> is_digit h = true ->
  let s := String a (String b (String "/" (String c (String d (String "/"
             (String e (String f (String g (String h ""))))))))) in
  trim s = s.
Proof.
  intros Da Dh. cbv zeta. unfold trim.
  cbn [list_ascii_of_string length strip].
  rewrite (proj1 (digit_not_space a _ Da)).
  cbn [rev app length strip].
  rewrite (proj2 (digit_not_space h _ Dh)).
  reflexivity.
Qed.

Lemma trim_todayDMY (c : Clock) :
  1000 <= getFullYear (tz c) (now c) <= 9999 ->
  trim (todayDMY c) = todayDMY c.
Proof.
  intros HY. unfold todayDMY.
  pose proof (DateFromDay_range (Day (now c + tz c))) as HD.
  pose proof (month_bracket (Day (now c + tz c))) as [HM _]. cbv zeta in HM.
  destruct (pad2_two_digits (getDate (tz c) (now c)))
    as (p & q & -> & Dp & _); [unfold getDate; lia|].
  destruct (pad2_two_digits (getMonth (tz c) (now c) + 1))
    as (p' & q' & -> & _); [unfold getMonth; lia|].
  destruct (year_as_four_digits _ HY) as (e & f & g & h & -> & _ & _ & _ & Dh & _).
  rewrite !append_two. now apply trim_full_date.
Qed.

(** A bet that the server has dated is in the three windows of every
    client that reads the clock on the same day in the same zone: the
    string the server writes is the string DAY compares with, and it
    parses to the start of that day.  The year is taken to have four
    digits. *)
Theorem dated_by_server_is_shown (server client : Clock) (b : Bet) :
  1000 <= getFullYear (tz server) (now server) <= 9999 ->
  tz client = tz server ->
  Day (now client + tz client) = Day (now server + tz server) ->
  added_date b = Server.formatDMY server ->
  todayDMY client = Server.formatDMY server
  /\ in_day client b = true
  /\ in_week client b = true
  /\ in_month client b = true.
Proof.
  intros HY Z D A.
  assert (T : todayDMY client = Server.formatDMY server).
  { unfold todayDMY, Server.formatDMY, getDate, getMonth, getFullYear.
    now rewrite D. }
  assert (HY' : 1000 <= getFullYear (tz client) (now client) <= 9999).
  { unfold getFullYear in *. now rewrite D. }
  assert (Hn : ~ (0 <= getFullYear (tz client) (now client) <= 99)) by lia.
  assert (E : trim (added_date b) = todayDMY client).
  { rewrite A, <- T. now apply trim_todayDMY. }
  pose proof (parse_today client (added_date b) HY' E) as P.
  split; [exact T|]. split; [|split].
  - unfold in_day. now apply String.eqb_eq.
  - unfold in_week. rewrite P.
    apply andb_true_iff. split; apply Z.leb_le; lia.
  - destruct (startOfDayMs_components client Hn) as [Ey Em].
    exact (same_month_in_month client b _ Hn P Ey Em).
Qed.

(** A bet dated at one in the afternoon is shown at a quarter to
    midnight of the same day. *)
Lemma dated_by_server_is_shown_witness :
  Server.formatDMY clock_2026_11_03 = "03/11/2026"
  /\ in_day (mkClock 1793738700000 10800000) (dated "03/11/2026") = true
  /\ in_week (mkClock 1793738700000 10800000) (dated "03/11/2026") = true
  /\ in_month (mkClock 1793738700000 10800000) (dated "03/11/2026") = true.
Proof.
  assert (HY : 1000 <= getFullYear (tz clock_2026_11_03) (now clock_2026_11_03)
               <= 9999) by (vm_compute; split; discriminate).
  assert (F : Server.formatDMY clock_2026_11_03 = "03/11/2026")
    by (vm_compute; reflexivity).
  destruct (dated_by_server_is_shown clock_2026_11_03
              (mkClock 1793738700000 10800000) (dated "03/11/2026")
              HY eq_refl eq_refl F) as (_ & H).
  split; [exact F|exact H].
Defined.

End CalendarWindowFacts.

(** ** The live state synchroniser *)

Module SyncFacts.
Import JS JSFacts Client Sync Spec Samples.

Lemma bets_on_bets_update (now : float) (p : payload) (st : state) :
  bets (on_bets_update now p st) = cache_of p (bets st).
Proof. destruct p as [items|[items|] u|]; reflexivity. Qed.

Lemma bets_on_meta (ts : float) (st : state) : bets (on_meta ts st) = bets st.
Proof. unfold on_meta. now destruct (truthy ts). Qed.

Lemma bets_apply_update (now meta : float) (p : payload) (st : state) :
  bets (apply_update now meta p st) = cache_of p (bets st).
Proof.
  unfold apply_update.
  destruct (starts_fetchMeta p); rewrite ?bets_on_meta;
    apply bets_on_bets_update.
Qed.

Lemma cache_of_idempotent (p : payload) (before : list Bet) :
  cache_of p (cache_of p before) = cache_of p before.
Proof. destruct p as [items|[items|] u|]; reflexivity. Qed.

(** C6 (as amended), on the handler together with the answer to the
    [fetchMeta] that a bare array starts: a second application with the
    same payload leaves the bet cache as the first application left it.
    It leaves the marker and its stored copy as they were as well when
    the payload is an object that carries a usable [updatedAt] (the
    shape the server sends), or when the second application reads the
    same clock value as the first and, for a bare array, gets the same
    answer from [fetchMeta].  Otherwise the stored copy moves to the
    time of the second application, and so does the marker, except that
    for a bare array a usable answer of [fetchMeta] to the second
    application becomes the marker.  For a payload that is not an array
    no [fetchMeta] is started, and the handler alone does all this. *)
Theorem bets_update_twice (p : payload) (st : state)
    (now1 now2 meta1 meta2 : float) :
  bets (apply_update now2 meta2 p (apply_update now1 meta1 p st))
  = bets (apply_update now1 meta1 p st)
  /\ (forall items updatedAt,
      p = PObject items updatedAt -> truthy updatedAt = true ->
      apply_update now2 meta2 p (apply_update now1 meta1 p st)
      = apply_update now1 meta1 p st
      /\ lastEventAt (apply_update now1 meta1 p st) = updatedAt)
  /\ (now2 = now1 -> meta2 = meta1 ->
      apply_update now2 meta2 p (apply_update now1 meta1 p st)
      = apply_update now1 meta1 p st)
  /\ (p = POther
      \/ (exists items updatedAt,
            p = PObject items updatedAt /\ truthy updatedAt = false) ->
      lastEventAt (apply_update now2 meta2 p (apply_update now1 meta1 p st))
      = now2
      /\ stored (apply_update now2 meta2 p (apply_update now1 meta1 p st))
         = Some now2)
  /\ (forall items, p = PArray items ->
      lastEventAt (apply_update now2 meta2 p (apply_update now1 meta1 p st))
      = or_else meta2 now2
      /\ stored (apply_update now2 meta2 p (apply_update now1 meta1 p st))
         = Some now2)
  /\ ((forall items, p <> PArray items) ->
      apply_update now1 meta1 p st = on_bets_update now1 p st).
Proof.
  split; [|split; [|split; [|split; [|split]]]].
  - now rewrite !bets_apply_update, cache_of_idempotent.
  - intros items updatedAt -> Hu. unfold apply_update. cbn.
    now rewrite (or_else_truthy _ now1 Hu), (or_else_truthy _ now2 Hu).
  - intros -> ->. destruct p as [items|[items|] u|]; reflexivity.
  - intros [->|(items & u & -> & Hu)]; [split; reflexivity|].
    unfold apply_update. cbn.
    now rewrite (or_else_falsy _ now2 Hu).
  - intros items ->. unfold apply_update. cbn. unfold on_meta, or_else.
    destruct (truthy meta2); split; reflexivity.
  - intros H. destruct p as [items|items u|]; [|reflexivity|reflexivity].
    now contradiction (H items).
Qed.

(** The notification the server sends after a change, applied twice. *)
Lemma bets_update_twice_witness :
  apply_update 2000 0 (PObject (Some [pending_bet]) 1500)
    (apply_update 1000 0 (PObject (Some [pending_bet]) 1500)
       (mkState [] 0 None))
  = mkState [pending_bet] 1500 (Some 1500%float).
Proof.
  destruct (bets_update_twice (PObject (Some [pending_bet]) 1500)
              (mkState [] 0 None) 1000 2000 0 0) as (_ & H & _).
  destruct (H _ _ eq_refl eq_refl) as [E _].
  rewrite E. reflexivity.
Defined.

(** C6, as the specification words it, fails on a bare array: applied
    at time 1000 and again at time 2000, with no answer from
    [fetchMeta], the same payload leaves the marker at 1000 after the
    first application and at 2000 after the second. *)
Lemma bets_update_twice_array :
  lastEventAt (apply_update 1000 0 (PArray []) (mkState [] 0 None)) = 1000%float
  /\ lastEventAt (apply_update 2000 0 (PArray [])
                   (apply_update 1000 0 (PArray []) (mkState [] 0 None)))
     = 2000%float
  /\ apply_update 2000 0 (PArray [])
       (apply_update 1000 0 (PArray []) (mkState [] 0 None))
     <> apply_update 1000 0 (PArray []) (mkState [] 0 None).
Proof.
  repeat split.
  intros H. apply (f_equal (fun s => (lastEventAt s =? 1000)%float)) in H.
  vm_compute in H. discriminate.
Qed.

End SyncFacts.

(** ** The server *)

Module ServerFacts.
Import JSDate Server Spec.

Section WithBuiltins.
Variable NumberToString : float -> string.
Variable env : option string.

Local Abbreviation handle := (Server.handle NumberToString env).
Local Abbreviation findIndex_id := (Server.findIndex_id NumberToString).

(** The password is never the empty string. *)
Lemma ADMIN_PASSWORD_nonempty : ADMIN_PASSWORD env <> "".
Proof.
  unfold ADMIN_PASSWORD. destruct env as [s|]; [|discriminate].
  destruct (String.eqb_spec s ""); [discriminate|assumption].
Qed.

Lemma missing_password_unauthorized : authorized env None = false.
Proof.
  unfold authorized.
  apply String.eqb_neq. intros E. now apply ADMIN_PASSWORD_nonempty.
Qed.

Lemma wrong_password_unauthorized (pw : string) :
  pw <> ADMIN_PASSWORD env -> authorized env (Some pw) = false.
Proof. intros Hne. unfold authorized. now apply String.eqb_neq. Qed.

(** Each route answers 401 to a request that is not authorized, and
    returns the state it was given. *)
Lemma unauthorized_route (c : Clock) (st : state) (r : request) :
  authorized env (x_admin_password r) = false ->
  handle c st r = (st, Error 401 "auth").
Proof.
  intros A. unfold Server.handle. cbv zeta.
  destruct (target r);
    [unfold put_api_rate|unfold put_api_bets|unfold post_api_bets
    |unfold patch_api_bets_id|unfold delete_api_bets_id];
    now rewrite A.
Qed.

(** C8: a request to any of the five mutating routes (set the rate,
    replace the collection, add, patch, delete) whose password header is
    missing or is not the password is answered 401, and the state after
    it is the state before it: the collection, the files, the rate and
    the broadcasts sent are all unchanged. *)
Theorem unauthorized_changes_nothing (c : Clock) (st : state) (r : request) :
  x_admin_password r = None
  \/ (exists pw, x_admin_password r = Some pw /\ pw <> ADMIN_PASSWORD env) ->
  handle c st r = (st, Error 401 "auth")
  /\ cache (fst (handle c st r)) = cache st
  /\ disk (fst (handle c st r)) = disk st
  /\ rateCache (fst (handle c st r)) = rateCache st
  /\ emitted (fst (handle c st r)) = emitted st.
Proof.
  intros H.
  assert (A : authorized env (x_admin_password r) = false).
  { destruct H as [->|(pw & -> & Hne)].
    - apply missing_password_unauthorized.
    - now apply wrong_password_unauthorized. }
  rewrite (unauthorized_route c st r A). repeat split.
Qed.

(** *** PATCH *)

Lemma pad2_nonempty (n : Z) : exists a r, JS.pad2 n = String a r.
Proof.
  unfold JS.pad2.
  destruct (String.length (JS.string_of_int n) <? 2)%nat eqn:E.
  - now exists "0"%char, (JS.string_of_int n).
  - destruct (JS.string_of_int n) as [|a r]; [discriminate|]. now exists a, r.
Qed.

Lemma formatDMY_truthy (c : Clock) : truthy (Some (JStr (formatDMY c))) = true.
Proof.
  unfold formatDMY.
  destruct (pad2_nonempty (getDate (tz c) (now c))) as (a & r & ->).
  reflexivity.
Qed.

Lemma findIndex_id_Some (id : string) (l : list record) (i : nat) :
  findIndex_id id l = Some i ->
  exists x, l !! i = Some x /\ ToString NumberToString (x !! "id") = id.
Proof.
  revert i. induction l as [|x l IH]; intros i; cbn; [discriminate|].
  destruct (String.eqb_spec (ToString NumberToString (x !! "id")) id) as [E|_].
  - intros [= <-]. now exists x.
  - destruct (Server.findIndex_id NumberToString id l) as [j|]; cbn; [|discriminate].
    intros [= <-]. apply (IH j eq_refl).
Qed.

(** What the merge leaves, takes and guarantees. *)
Lemma merge_patch_spec (c : Clock) (old patch : record) :
  let new := merge_patch c old patch in
  (forall k, patch !! k = None ->
     (k = "added_date" -> truthy (old !! k) = true) -> new !! k = old !! k)
  /\ (forall k v, patch !! k = Some v ->
      (k = "added_date" -> truthy (Some v) = true) -> new !! k = Some v)
  /\ truthy (new !! "added_date") = true.
Proof.
  cbv zeta. unfold merge_patch.
  destruct (truthy ((patch ∪ old) !! "added_date")) eqn:T; cbn [negb].
  - split; [|split].
    + intros k Hk _. now apply lookup_union_r.
    + intros k v Hk _. now apply lookup_union_Some_l.
    + exact T.
  - split; [|split].
    + intros k Hk Hd. destruct (decide (k = "added_date")) as [->|Hne].
      * rewrite (lookup_union_r _ _ _ Hk) in T.
        rewrite (Hd eq_refl) in T. discriminate.
      * rewrite lookup_insert_ne by congruence. now apply lookup_union_r.
    + intros k v Hk Hd. destruct (decide (k = "added_date")) as [->|Hne].
      * rewrite (lookup_union_Some_l _ _ _ _ Hk) in T.
        rewrite (Hd eq_refl) in T. discriminate.
      * rewrite lookup_insert_ne by congruence. now apply lookup_union_Some_l.
    + rewrite lookup_insert_eq. apply formatDMY_truthy.
Qed.

(** The current server: a PATCH that succeeds has found the record with
    the requested id and replaced it, in place, by the merge. *)
Lemma patch_current (c : Clock) (st st' : state)
    (pw : option string) (id : string) (patch : record) :
  handle c st (mkRequest pw (PatchBet id patch)) = (st', Ok) ->
  exists idx old new,
    findIndex_id id (cache st) = Some idx
    /\ cache st !! idx = Some old
    /\ ToString NumberToString (old !! "id") = id
    /\ st' = committed c st (<[idx := new]> (cache st))
    /\ cache st' !! idx = Some new
    /\ (forall k, k <> "added_date" -> patch !! k = None ->
        new !! k = old !! k)
    /\ (patch !! "added_date" = None ->
        truthy (old !! "added_date") = true ->
        new !! "added_date" = old !! "added_date")
    /\ (forall k v, patch !! k = Some v ->
        (k = "added_date" -> truthy (Some v) = true) -> new !! k = Some v)
    /\ truthy (new !! "added_date") = true
    /\ (forall j, j <> idx -> cache st' !! j = cache st !! j)
    /\ length (cache st') = length (cache st).
Proof.
  unfold Server.handle, patch_api_bets_id. cbn [target x_admin_password].
  destruct (authorized env pw); cbn [negb]; [|discriminate].
  destruct (Server.findIndex_id NumberToString id (cache st)) as [idx|] eqn:F;
    [|discriminate].
  destruct (findIndex_id_Some id (cache st) idx F) as (old & Hold & Hid).
  rewrite Hold. intros [= <-].
  destruct (merge_patch_spec c old patch) as (Hkeep & Htake & Hdate).
  exists idx, old, (merge_patch c old patch).
  assert (Hlt : (idx < length (cache st))%nat) by now apply lookup_lt_Some in Hold.
  repeat split; try assumption.
  - cbn. now apply list_lookup_insert_eq.
  - intros k Hne Hk. apply Hkeep; [exact Hk|]. intros E. now contradiction Hne.
  - intros Hk Ht. apply Hkeep; [exact Hk|]. intros _. exact Ht.
  - intros j Hj. cbn. now apply list_lookup_insert_ne.
  - cbn. apply length_insert.
Qed.

(** The older server: the same, with no guard on [added_date]. *)
Lemma patch_legacy (c : Clock) (st st' : state)
    (pw : option string) (id : string) (patch : record) :
  Legacy.patch_api_bets_id NumberToString env c st pw id patch = (st', Ok) ->
  exists idx old new,
    findIndex_id id (cache st) = Some idx
    /\ cache st !! idx = Some old
    /\ ToString NumberToString (old !! "id") = id
    /\ st' = committed c st (<[idx := new]> (cache st))
    /\ cache st' !! idx = Some new
    /\ (forall k, patch !! k = None -> new !! k = old !! k)
    /\ (forall k v, patch !! k = Some v -> new !! k = Some v)
    /\ (forall j, j <> idx -> cache st' !! j = cache st !! j)
    /\ length (cache st') = length (cache st).
Proof.
  unfold Legacy.patch_api_bets_id.
  destruct (authorized env pw); cbn [negb]; [|discriminate].
  destruct (Server.findIndex_id NumberToString id (cache st)) as [idx|] eqn:F;
    [|discriminate].
  destruct (findIndex_id_Some id (cache st) idx F) as (old & Hold & Hid).
  rewrite Hold. intros [= <-].
  exists idx, old, (Legacy.merge_patch old patch).
  assert (Hlt : (idx < length (cache st))%nat) by now apply lookup_lt_Some in Hold.
  repeat split; try assumption.
  - cbn. now apply list_lookup_insert_eq.
  - intros k Hk. now apply lookup_union_r.
  - intros k v Hk. now apply lookup_union_Some_l.
  - intros j Hj. cbn. now apply list_lookup_insert_ne.
  - cbn. apply length_insert.
Qed.

(** C9 (as amended): in both servers a PATCH that succeeds has found the
    record with the requested id and replaced it, in place, by the
    merge: a field that the patch names takes the value of the patch, a
    field that it does not name keeps the value it had ([added_date]
    included, once it is set), and every other record of the collection
    is unchanged.  In [unnamed/part_003], when the merge leaves
    [added_date] unset (absent or falsy) it becomes the date of today, so
    that it is set afterwards in every case.  The older
    [server/server.js] has no such guard: there [added_date] is
    afterwards what the merge left, unset when neither the record nor
    the patch had it set. *)
Theorem patch_merges_fields :
  (forall (c : Clock) (st st' : state) (pw : option string) (id : string)
          (patch : record),
      handle c st (mkRequest pw (PatchBet id patch)) = (st', Ok) ->
      exists idx old new,
        findIndex_id id (cache st) = Some idx
        /\ cache st !! idx = Some old
        /\ ToString NumberToString (old !! "id") = id
        /\ st' = committed c st (<[idx := new]> (cache st))
        /\ cache st' !! idx = Some new
        /\ (forall k, k <> "added_date" -> patch !! k = None ->
            new !! k = old !! k)
        /\ (patch !! "added_date" = None ->
            truthy (old !! "added_date") = true ->
            new !! "added_date" = old !! "added_date")
        /\ (forall k v, patch !! k = Some v ->
            (k = "added_date" -> truthy (Some v) = true) -> new !! k = Some v)
        /\ truthy (new !! "added_date") = true
        /\ (forall j, j <> idx -> cache st' !! j = cache st !! j)
        /\ length (cache st') = length (cache st))
  /\ (forall (c : Clock) (st st' : state) (pw : option string) (id : string)
             (patch : record),
      Legacy.patch_api_bets_id NumberToString env c st pw id patch = (st', Ok) ->
      exists idx old new,
        findIndex_id id (cache st) = Some idx
        /\ cache st !! idx = Some old
        /\ ToString NumberToString (old !! "id") = id
        /\ st' = committed c st (<[idx := new]> (cache st))
        /\ cache st' !! idx = Some new
        /\ (forall k, patch !! k = None -> new !! k = old !! k)
        /\ (forall k v, patch !! k = Some v -> new !! k = Some v)
        /\ (patch !! "added_date" = None ->
            truthy (old !! "added_date") = false ->
            truthy (new !! "added_date") = false)
        /\ (forall j, j <> idx -> cache st' !! j = cache st !! j)
        /\ length (cache st') = length (cache st)).
Proof.
  split.
  - exact patch_current.
  - intros c st st' pw id patch H.
    destruct (patch_legacy c st st' pw id patch H)
      as (idx & old & new & F & Ho & Hid & E & Hn & Hkeep & Htake & Hrest & L).
    exists idx, old, new. repeat split; try assumption.
    intros Hp Hd. now rewrite (Hkeep _ Hp).
Qed.

(** *** Errors, persistence and broadcast *)

Lemma filter_same_length {A : Type} (f : A -> bool) (l : list A) :
  length (List.filter f l) = length l -> List.filter f l = l.
Proof.
  induction l as [|x l IH]; cbn; [reflexivity|].
  destruct (f x); cbn; intros H.
  - f_equal. apply IH. lia.
  - pose proof (List.filter_length_le f l). lia.
Qed.

(** Whatever the route, an error answer (400, 401 or 404) leaves the
    state as it was. *)
Theorem error_changes_nothing (c : Clock) (st st' : state) (r : request)
    (code : Z) (msg : string) :
  handle c st r = (st', Error code msg) -> st' = st.
Proof.
  unfold Server.handle. cbv zeta.
  destruct (target r) as [val|[body|]|body|id patch|id];
    [unfold put_api_rate|unfold put_api_bets|unfold put_api_bets
    |unfold post_api_bets|unfold patch_api_bets_id|unfold delete_api_bets_id];
    (destruct (authorized env (x_admin_password r)); cbn [negb];
     [|now intros [= <-]]).
  - destruct (JS.finite_positive val); cbn [negb]; [|now intros [= <-]].
    destruct (writeRate c val (disk st)). discriminate.
  - discriminate.
  - now intros [= <-].
  - discriminate.
  - destruct (Server.findIndex_id NumberToString id (cache st)) as [idx|];
      [|now intros [= <-]].
    destruct (cache st !! idx); [discriminate|now intros [= <-]].
  - destruct (Nat.eqb_spec
                (length (List.filter
                   (fun x : record =>
                      negb (ToString NumberToString (x !! "id") =? id)%string)
                   (cache st)))
                (length (cache st))) as [E|_]; [|discriminate].
    intros [= <-]. rewrite (filter_same_length _ _ E). now destruct st.
Qed.

(** A change of the collection is persisted and then broadcast: after a
    request to one of the four bets routes that is answered without an
    error, [bets.json] and a backup hold the new collection as
    [JSON.stringify] writes it, the rate and its file are as they were,
    and one broadcast has been added, which carries the new collection,
    written the same way. *)
Theorem change_persisted_and_broadcast (c : Clock) (st st' : state)
    (r : request) (resp : response) :
  (forall val, target r <> PutRate val) ->
  (forall code msg, resp <> Error code msg) ->
  handle c st r = (st', resp) ->
  bets_file (disk st') = Some (record_to_JSON <$> cache st')
  /\ (exists t, backups (disk st') !! t = Some (record_to_JSON <$> cache st'))
  /\ rate_file (disk st') = rate_file (disk st)
  /\ rateCache st' = rateCache st
  /\ (exists t,
        emitted st'
        = emitted st ++ [BetsUpdate (record_to_JSON <$> cache st') t]).
Proof.
  intros Hroute Hresp. unfold Server.handle.
  assert (K : forall l,
              bets_file (disk (committed c st l))
              = Some (record_to_JSON <$> cache (committed c st l))
              /\ (exists t, backups (disk (committed c st l)) !! t
                            = Some (record_to_JSON <$> cache (committed c st l)))
              /\ rate_file (disk (committed c st l)) = rate_file (disk st)
              /\ rateCache (committed c st l) = rateCache st
              /\ (exists t,
                    emitted (committed c st l)
                    = emitted st
                      ++ [BetsUpdate (record_to_JSON <$> cache (committed c st l))
                            t])).
  { intros l. cbn. split; [reflexivity|]. split.
    - exists (now c). apply lookup_insert_eq.
    - repeat split. now exists (now c). }
  cbv zeta.
  destruct (target r) as [val|[body|]|body|id patch|id];
    [unfold put_api_rate|unfold put_api_bets|unfold put_api_bets
    |unfold post_api_bets|unfold patch_api_bets_id|unfold delete_api_bets_id];
    (destruct (authorized env (x_admin_password r)); cbn [negb];
     [|intros [= <- <-]; now contradiction (Hresp 401%Z "auth")]).
  - now contradiction (Hroute val).
  - intros [= <- <-]. apply K.
  - intros [= <- <-]. now contradiction (Hresp 400%Z "array required").
  - intros [= <- <-]. apply K.
  - destruct (Server.findIndex_id NumberToString id (cache st)) as [idx|];
      [|intros [= <- <-]; now contradiction (Hresp 404%Z "not found")].
    destruct (cache st !! idx);
      [|intros [= <- <-]; now contradiction (Hresp 404%Z "not found")].
    intros [= <- <-]. apply K.
  - destruct (_ =? _)%nat;
      [intros [= <- <-]; now contradiction (Hresp 404%Z "not found")|].
    intros [= <- <-]. apply K.
Qed.

(** [ensureAddedDateOnArray] keeps the length and the order of the
    array.  It dates, with the date of today, the objects that have no
    [added_date] set, and the arrays, which become objects of their
    elements; it leaves as they are the objects that have a date, and
    [null], Booleans, Numbers and Strings, which stay undated.  On an
    array of objects it is the function that PUT is described with; so,
    after the collection has been replaced by an array of JSON objects,
    the collection has the length of the body, every record has its
    [added_date] set, and a record of the body that had one is kept as it
    was, at its place. *)
Theorem put_sets_added_date :
  (forall (c : Clock) (arr : list json),
      length (ensureAddedDateOnArray_json c arr) = length arr
      /\ (forall i m, arr !! i = Some (JObj m) ->
          truthy (m !! "added_date") = true ->
          ensureAddedDateOnArray_json c arr !! i = Some (JObj m))
      /\ (forall i m, arr !! i = Some (JObj m) ->
          truthy (m !! "added_date") = false ->
          ensureAddedDateOnArray_json c arr !! i
          = Some (JObj (<["added_date" := JStr (formatDMY c)]> m)))
      /\ (forall i l, arr !! i = Some (JArr l) ->
          ensureAddedDateOnArray_json c arr !! i
          = Some (JObj (<["added_date" := JStr (formatDMY c)]>
                          (spread_array l))))
      /\ (forall i v, arr !! i = Some v ->
          (forall m, v <> JObj m) -> (forall l, v <> JArr l) ->
          ensureAddedDateOnArray_json c arr !! i = Some v))
  /\ (forall (c : Clock) (body : list record),
      ensureAddedDateOnArray_json c (JObj <$> body)
      = JObj <$> ensureAddedDateOnArray c body)
  /\ (forall (c : Clock) (st st' : state) (pw : option string)
             (body : list record),
      handle c st (mkRequest pw (PutBets (Some body))) = (st', Ok) ->
      length (cache st') = length body
      /\ (forall i x, cache st' !! i = Some x ->
          truthy (x !! "added_date") = true)
      /\ (forall i x, body !! i = Some x ->
          truthy (x !! "added_date") = true ->
          cache st' !! i = Some x)).
Proof.
  split; [|split].
  - intros c arr. unfold ensureAddedDateOnArray_json.
    change (List.map ?f arr) with (f <$> arr).
    split; [apply length_fmap|].
    repeat split.
    + intros i m H T. rewrite list_lookup_fmap, H. cbn. now rewrite T.
    + intros i m H T. rewrite list_lookup_fmap, H. cbn. now rewrite T.
    + intros i l H. now rewrite list_lookup_fmap, H.
    + intros i v H Ho Ha. rewrite list_lookup_fmap, H. cbn.
      destruct v as [|b|x|s0|l|m]; try reflexivity.
      * now contradiction (Ha l).
      * now contradiction (Ho m).
  - intros c body. unfold ensureAddedDateOnArray_json, ensureAddedDateOnArray.
    change (List.map ?f (JObj <$> body)) with (f <$> (JObj <$> body)).
    change (List.map ?f body) with (f <$> body).
    rewrite <- !list_fmap_compose. apply list_fmap_ext. intros _ x _. cbn.
    now destruct (truthy (x !! "added_date")).
  - intros c st st' pw body.
    unfold Server.handle, put_api_bets. cbn [target x_admin_password].
    destruct (authorized env pw); cbn [negb]; [|discriminate].
    intros [= <-]. cbn [cache committed]. unfold ensureAddedDateOnArray.
    split; [apply List.length_map|]. split.
    + intros i x Hx. change (List.map ?f body) with (f <$> body) in Hx.
      rewrite list_lookup_fmap in Hx.
      destruct (body !! i) as [y|]; [|discriminate]. cbn in Hx.
      injection Hx as <-.
      destruct (truthy (y !! "added_date")) eqn:T; cbn [negb]; [exact T|].
      rewrite lookup_insert_eq. apply formatDMY_truthy.
    + intros i x Hx T. change (List.map ?f body) with (f <$> body).
      rewrite list_lookup_fmap, Hx. cbn. now rewrite T.
Qed.

End WithBuiltins.

Import Samples.

(** Without the header, and with a wrong password, nothing happens. *)
Lemma unauthorized_changes_nothing_witness :
  Server.handle NaN_string None clock_2026_11_03 state_0
    (mkRequest None (DeleteBet "7"))
  = (state_0, Error 401 "auth")
  /\ Server.handle NaN_string None clock_2026_11_03 state_0
       (mkRequest (Some "guess") (PutBets (Some [])))
     = (state_0, Error 401 "auth").
Proof.
  split.
  - apply (unauthorized_changes_nothing NaN_string None clock_2026_11_03 state_0).
    left. reflexivity.
  - apply (unauthorized_changes_nothing NaN_string None clock_2026_11_03 state_0).
    right. exists "guess". split; [reflexivity|discriminate].
Defined.

Lemma patch_merges_fields_witness :
  exists new,
    cache state_patched !! 1%nat = Some new
    /\ new !! "status" = Some (JStr Client.STATUS_WON)
    /\ new !! "stake_value" = Some (JNum 10)
    /\ new !! "added_date" = Some (JStr "01/01/2024")
    /\ cache state_patched !! 0%nat = Some record_8.
Proof.
  assert (H : Server.handle NaN_string None clock_2026_11_03 state_0
                (mkRequest (Some "betoff07") (PatchBet "7" patch_won))
              = (state_patched, Ok)) by (vm_compute; reflexivity).
  destruct (proj1 (patch_merges_fields NaN_string None)
              clock_2026_11_03 state_0 state_patched
              (Some "betoff07") "7" patch_won H)
    as (idx & old & new & F & Ho & _ & _ & Hn & Hkeep & Hdate & Htake & _
        & Hrest & _).
  assert (F0 : Server.findIndex_id NaN_string "7" (cache state_0) = Some 1%nat)
    by (vm_compute; reflexivity).
  rewrite F0 in F. injection F as <-.
  assert (Ho0 : cache state_0 !! 1%nat = Some record_7)
    by (vm_compute; reflexivity).
  rewrite Ho0 in Ho. injection Ho as <-.
  exists new. split; [exact Hn|].
  split; [apply Htake; [vm_compute; reflexivity|discriminate]|].
  split.
  { rewrite Hkeep; [vm_compute; reflexivity|discriminate|vm_compute; reflexivity]. }
  split.
  { rewrite Hdate; vm_compute; reflexivity. }
  rewrite Hrest by discriminate. vm_compute. reflexivity.
Defined.

(** Deleting a bet that is not there is answered 404 and changes
    nothing. *)
Lemma error_changes_nothing_witness :
  fst (Server.handle NaN_string None clock_2026_11_03 state_0
         (mkRequest (Some "betoff07") (DeleteBet "9")))
  = state_0.
Proof.
  apply (error_changes_nothing NaN_string None clock_2026_11_03 state_0 _
           (mkRequest (Some "betoff07") (DeleteBet "9")) 404 "not found").
  vm_compute. reflexivity.
Defined.

(** C9, as the specification words it, fails on the older server: the
    bet of id 8, which has no date, is patched with new odds and has no
    date afterwards. *)
Lemma patch_legacy_leaves_undated :
  exists new,
    snd (Legacy.patch_api_bets_id NaN_string None clock_2026_11_03 state_0
           (Some "betoff07") "8" patch_coef) = Ok
    /\ cache (fst (Legacy.patch_api_bets_id NaN_string None clock_2026_11_03
                     state_0 (Some "betoff07") "8" patch_coef)) !! 0%nat
       = Some new
    /\ new !! "coef" = Some (JNum 3)
    /\ new !! "added_date" = None
    /\ truthy (new !! "added_date") <> true.
Proof.
  exists (Legacy.merge_patch record_8 patch_coef).
  split; [vm_compute; reflexivity|].
  split; [vm_compute; reflexivity|].
  split; [vm_compute; reflexivity|].
  split; [vm_compute; reflexivity|].
  vm_compute. discriminate.
Qed.

(** The patch of the bet of id 7 is in [bets.json], in a backup, and in
    the broadcast. *)
Lemma change_persisted_and_broadcast_witness :
  bets_file (disk state_patched) = Some (record_to_JSON <$> cache state_patched)
  /\ (exists t, backups (disk state_patched) !! t
                = Some (record_to_JSON <$> cache state_patched))
  /\ rate_file (disk state_patched) = rate_file (disk state_0)
  /\ rateCache state_patched = rateCache state_0
  /\ (exists t,
        emitted state_patched
        = emitted state_0
          ++ [BetsUpdate (record_to_JSON <$> cache state_patched) t]).
Proof.
  apply (change_persisted_and_broadcast NaN_string None clock_2026_11_03
           state_0 state_patched
           (mkRequest (Some "betoff07") (PatchBet "7" patch_won)) Ok).
  - discriminate.
  - discriminate.
  - vm_compute. reflexivity.
Defined.

(** Replacing the collection by the two sample records dates the one
    that had no date, with the day of the request. *)
Lemma put_sets_added_date_witness :
  ensureAddedDateOnArray_json clock_2026_11_03 [JNull; JObj record_8]
  = [JNull; JObj (<["added_date" := JStr "03/11/2026"]> record_8)]
  /\ exists x,
    cache (fst (Server.handle NaN_string None clock_2026_11_03 state_0
                  (mkRequest (Some "betoff07")
                     (PutBets (Some [record_8; record_7]))))) !! 0%nat
    = Some x
    /\ x !! "added_date" = Some (JStr "03/11/2026")
    /\ truthy (x !! "added_date") = true.
Proof.
  set (st' := fst (Server.handle NaN_string None clock_2026_11_03 state_0
                     (mkRequest (Some "betoff07")
                        (PutBets (Some [record_8; record_7]))))).
  assert (H : Server.handle NaN_string None clock_2026_11_03 state_0
                (mkRequest (Some "betoff07")
                   (PutBets (Some [record_8; record_7])))
              = (st', Ok)) by (vm_compute; reflexivity).
  destruct (proj2 (proj2 (put_sets_added_date NaN_string None))
              clock_2026_11_03 state_0 st'
              (Some "betoff07") [record_8; record_7] H) as (_ & Hd & _).
  assert (E : cache st' !! 0%nat
              = Some (<["added_date" := JStr "03/11/2026"]> record_8))
    by (vm_compute; reflexivity).
  split; [vm_compute; reflexivity|].
  eexists. split; [exact E|]. split.
  - vm_compute. reflexivity.
  - exact (Hd 0%nat _ E).
Defined.

End ServerFacts.

(** ** The admin page *)

Module AdminFacts.
Import JS JSFacts JSDate Client NormalizerFacts Window Admin Samples.

(** *** Numbers on their IEEE 754 form *)

Ltac on_spec_floats :=
  unfold through_JSON, or_zero, or_else, truthy, finite_positive,
         saveRubRate_sends, is_finite, is_infinity, is_nan in *;
  rewrite ?FloatAxioms.ltb_spec, ?FloatAxioms.leb_spec, ?FloatAxioms.eqb_spec,
          ?FloatAxioms.opp_spec, ?FloatAxioms.abs_spec in *;
  change (Prim2SF 0) with (S754_zero false) in *;
  change (Prim2SF infinity) with (S754_infinity false) in *.

Lemma SFeqb_finite_refl (s : bool) (m : positive) (e : Z) :
  SFeqb (S754_finite s m e) (S754_finite s m e) = true.
Proof.
  unfold SFeqb, SFcompare.
  rewrite Z.compare_refl, Pos.compare_cont_refl. now destruct s.
Qed.

(** The guard of the admin page on a rate is the guard of the server. *)
Lemma saveRubRate_guard (val : float) :
  saveRubRate_sends val = finite_positive val.
Proof.
  on_spec_floats.
  destruct (Prim2SF val) as [s|s| |s m e]; rewrite ?SFeqb_finite_refl;
    try destruct s; reflexivity.
Qed.

(** What [-Math.abs(stake)] is after the trip through JSON, for a
    coerced stake. *)
Lemma minus_abs_finite (x : float) :
  truthy x = true -> is_finite x = true ->
  through_JSON (- abs x) = (- abs x)%float
  /\ or_zero (- abs x) = (- abs x)%float
  /\ (- abs x <? 0)%float = true
  /\ (0 <? - abs x)%float = false.
Proof.
  intros T F.
  assert (E : exists s m e, Prim2SF x = S754_finite s m e).
  { revert T F. on_spec_floats.
    destruct (Prim2SF x) as [s|s| |s m e]; rewrite ?SFeqb_finite_refl;
      try destruct s; try discriminate.
    all: intros _ _; eauto. }
  destruct E as (s & m & e & E).
  unfold through_JSON, or_zero, or_else, truthy, is_finite, is_infinity, is_nan.
  rewrite ?FloatAxioms.ltb_spec, ?FloatAxioms.eqb_spec,
          ?FloatAxioms.abs_spec, ?FloatAxioms.opp_spec, ?FloatAxioms.abs_spec, E.
  change (Prim2SF 0) with (S754_zero false).
  change (Prim2SF infinity) with (S754_infinity false).
  cbn [SFopp SFabs negb]. rewrite SFeqb_finite_refl. cbn. repeat split.
Qed.

Lemma minus_abs_zero (x : float) :
  truthy x = false -> is_nan x = false ->
  through_JSON (- abs x) = 0%float.
Proof.
  intros T N.
  assert (E : exists s, Prim2SF x = S754_zero s).
  { revert T N. on_spec_floats.
    destruct (Prim2SF x) as [s|s| |s m e]; rewrite ?SFeqb_finite_refl;
      try destruct s; try discriminate.
    all: intros _ _; eauto. }
  destruct E as (s & E).
  unfold through_JSON, is_finite, is_infinity, is_nan.
  rewrite ?FloatAxioms.eqb_spec,
          ?FloatAxioms.abs_spec, ?FloatAxioms.opp_spec, ?FloatAxioms.abs_spec, E.
  change (Prim2SF 0) with (S754_zero false).
  change (Prim2SF infinity) with (S754_infinity false).
  reflexivity.
Qed.

Lemma or_zero_idempotent (x : float) : or_zero (or_zero x) = or_zero x.
Proof.
  unfold or_zero, or_else. destruct (truthy x) eqn:T.
  - now rewrite T.
  - reflexivity.
Qed.

Lemma str_or_nonempty (a b : string) : b <> "" -> str_or a b <> "".
Proof.
  intros H. unfold str_or.
  destruct (String.eqb_spec a ""); [exact H|assumption].
Qed.

Lemma str_or_of_nonempty (a b : string) : a <> "" -> str_or a b = a.
Proof.
  intros H. unfold str_or. apply String.eqb_neq in H. now rewrite H.
Qed.

Lemma digits_go_nonempty (fuel : nat) (n : Z) (acc : string) :
  digits_go fuel n acc <> "".
Proof.
  revert n acc. induction fuel as [|k IH]; intros n acc; cbn.
  - discriminate.
  - destruct (n <? 10)%Z; [discriminate|apply IH].
Qed.

Lemma string_of_int_nonempty (n : Z) : string_of_int n <> "".
Proof.
  unfold string_of_int. destruct (n <? 0)%Z.
  - discriminate.
  - apply digits_go_nonempty.
Qed.

Lemma fresh_id_nonempty (now : Z) (random : string) :
  string_of_int now +:+ random <> "".
Proof.
  pose proof (string_of_int_nonempty now) as H.
  destruct (string_of_int now); [now contradiction H|discriminate].
Qed.

Lemma known_status_cases (s : string) :
  known_status s = true ->
  s = STATUS_WON \/ s = STATUS_LOST \/ s = STATUS_PENDING.
Proof.
  unfold known_status. intros H.
  apply orb_true_iff in H as [H|H]; [apply orb_true_iff in H as [H|H]|];
    apply String.eqb_eq in H; tauto.
Qed.

Lemma todayDMY_nonempty (c : Clock) : todayDMY c <> "".
Proof.
  unfold todayDMY.
  destruct (ServerFacts.pad2_nonempty (getDate (tz c) (now c))) as (a & r & ->).
  discriminate.
Qed.

(** *** The quick status buttons *)

(** The bet after a quick status button, as the engine reads it: its
    status is one of the three; a target that is neither WON nor LOST
    sets PENDING, a result of 0 and a bet that is not counted; LOST on a
    finite stake gives minus the magnitude of the stake, so never a
    gain, whatever the sign of the stake; WON gives the rounded payout
    less the stake. *)
Theorem quickStatus_result (c : Clock) (b : Bet) (to : string) :
  known_status (status (patched c b (quickStatus b to))) = true
  /\ (to <> STATUS_WON -> to <> STATUS_LOST ->
      status (patched c b (quickStatus b to)) = STATUS_PENDING
      /\ normalizedWinValue (patched c b (quickStatus b to)) = 0%float
      /\ eligible [patched c b (quickStatus b to)] = [])
  /\ (to = STATUS_LOST -> is_finite (or_zero (stake_value b)) = true ->
      normalizedWinValue (patched c b (quickStatus b to))
      = (if truthy (or_zero (stake_value b))
         then (- abs (or_zero (stake_value b)))%float else 0%float)
      /\ (0 <? normalizedWinValue (patched c b (quickStatus b to)))%float = false)
  /\ (to = STATUS_WON ->
      normalizedWinValue (patched c b (quickStatus b to))
      = (or_zero (through_JSON
                    (round2 (or_zero (stake_value b) * or_zero (coef b))))
         - or_zero (stake_value b))%float).
Proof.
  split; [|split; [|split]].
  - unfold quickStatus.
    destruct (to =? STATUS_WON)%string; [reflexivity|].
    destruct (to =? STATUS_LOST)%string; reflexivity.
  - intros HW HL. unfold quickStatus.
    apply String.eqb_neq in HW. apply String.eqb_neq in HL. rewrite HW, HL.
    repeat split.
  - intros -> F. unfold quickStatus.
    change (STATUS_LOST =? STATUS_WON)%string with false.
    change (STATUS_LOST =? STATUS_LOST)%string with true.
    cbv iota. unfold normalizedWinValue, patched.
    cbn [status win_value stake_value patch_status patch_win_value].
    change (STATUS_LOST =? STATUS_LOST)%string with true. cbv iota.
    set (stake := or_zero (stake_value b)) in *.
    destruct (truthy stake) eqn:T.
    + destruct (minus_abs_finite stake T F) as (J & Z & L & P).
      now rewrite J, Z, L.
    + assert (N : is_nan stake = false) by apply or_zero_not_nan.
      rewrite (minus_abs_zero stake T N). split; reflexivity.
  - intros ->. unfold quickStatus.
    change (STATUS_WON =? STATUS_WON)%string with true. reflexivity.
Qed.

(** *** The unit of a bet *)

(** A quick status button and the import both fill an absent
    [stake_currency] with USDT, and the unit of a bet is read from
    [stake_currency] first: the unit after either is the stake currency,
    or USDT when there is none.  It is the unit the bet had unless the
    bet had no stake currency and a currency of the win other than USDT,
    which was its unit before and is not after. *)
Theorem unit_after_admin_action (c : Clock) (b : Bet) (to : string)
    (NumberToString : float -> string) (raw_id : option Server.json)
    (now : Z) (random : string) :
  betUnit (patched c b (quickStatus b to)) = str_or (stake_currency b) "USDT"
  /\ betUnit (normalizeImportedBet NumberToString raw_id now random b)
     = str_or (stake_currency b) "USDT"
  /\ (str_or (stake_currency b) "USDT" = betUnit b <->
      stake_currency b <> "" \/ win_currency b = ""
      \/ win_currency b = "USDT").
Proof.
  assert (Q : patch_stake_currency (quickStatus b to)
              = if (stake_currency b =? "")%string then Some "USDT" else None).
  { unfold quickStatus.
    destruct (to =? STATUS_WON)%string; [reflexivity|].
    destruct (to =? STATUS_LOST)%string; reflexivity. }
  split; [|split].
  - unfold betUnit, patched. cbn [stake_currency win_currency]. rewrite Q.
    unfold str_or at 2 3.
    destruct (String.eqb_spec (stake_currency b) "") as [E|E]; [reflexivity|].
    apply String.eqb_neq in E. unfold str_or. now rewrite E, E.
  - unfold betUnit, normalizeImportedBet. cbn [stake_currency win_currency].
    set (s := str_or (stake_currency b) "USDT").
    assert (N : s <> "") by (apply str_or_nonempty; discriminate).
    rewrite (str_or_of_nonempty s _ N). exact (str_or_of_nonempty s _ N).
  - unfold betUnit, str_or.
    destruct (stake_currency b =? "")%string eqn:E; cbv iota.
    + apply String.eqb_eq in E.
      destruct (String.eqb_spec (win_currency b) "") as [W|W].
      * split; [tauto|reflexivity].
      * split.
        -- intros H. right. right. now symmetry.
        -- intros [H|[H|H]]; [contradiction|contradiction|now symmetry].
    + rewrite E. apply String.eqb_neq in E. split; [tauto|reflexivity].
Qed.

(** A bet priced in RUB through the currency of its win alone is read
    in USDT after a status button, and after an import. *)
Lemma unit_after_admin_action_witness :
  betUnit rub_win_only = "RUB"
  /\ betUnit (patched clock_2026_11_03 rub_win_only
                (quickStatus rub_win_only STATUS_WON)) = "USDT"
  /\ betUnit (normalizeImportedBet NaN_string None 0 "" rub_win_only) = "USDT".
Proof.
  destruct (unit_after_admin_action clock_2026_11_03 rub_win_only STATUS_WON
              NaN_string None 0 "") as (P & I & _).
  rewrite P, I. repeat split.
Defined.

(** *** The import *)

(** An imported item: its status is one of the three, its stake and odds
    are Numbers, and it carries no date, whatever the file said, so that
    no window selects it before the server has dated it.  Its id is the
    [String] of the id of the file when that id is truthy, and a fresh
    id, which is not empty, otherwise.  Importing the item again changes
    nothing when its id is not empty.  An id of the file that is truthy
    and whose [String] is empty (an empty array) gives an empty id, and
    a second import replaces it by a fresh one. *)
Theorem normalizeImportedBet_normal (NumberToString : float -> string)
    (raw_id : option Server.json) (now now' : Z) (random random' : string)
    (b : Bet) :
  known_status (status (normalizeImportedBet NumberToString raw_id now random b))
  = true
  /\ is_nan (stake_value (normalizeImportedBet NumberToString raw_id now random b))
     = false
  /\ is_nan (coef (normalizeImportedBet NumberToString raw_id now random b))
     = false
  /\ added_date (normalizeImportedBet NumberToString raw_id now random b) = ""
  /\ (forall c p,
      filterBetsByAddedDate c
        [normalizeImportedBet NumberToString raw_id now random b] p = [])
  /\ (Server.truthy raw_id = true ->
      id (normalizeImportedBet NumberToString raw_id now random b)
      = Server.ToString NumberToString raw_id)
  /\ (Server.truthy raw_id = false ->
      id (normalizeImportedBet NumberToString raw_id now random b)
      = string_of_int now +:+ random
      /\ id (normalizeImportedBet NumberToString raw_id now random b) <> "")
  /\ (id (normalizeImportedBet NumberToString raw_id now random b) <> "" ->
      normalizeImportedBet NumberToString
        (Some (Server.JStr
                 (id (normalizeImportedBet NumberToString raw_id now random b))))
        now' random'
        (normalizeImportedBet NumberToString raw_id now random b)
      = normalizeImportedBet NumberToString raw_id now random b)
  /\ (id (normalizeImportedBet NumberToString raw_id now random b) = "" ->
      id (normalizeImportedBet NumberToString
            (Some (Server.JStr
                     (id (normalizeImportedBet NumberToString raw_id now
                            random b))))
            now' random'
            (normalizeImportedBet NumberToString raw_id now random b))
      = string_of_int now' +:+ random').
Proof.
  assert (K : known_status (if known_status (status b) then status b
                            else STATUS_PENDING) = true).
  { destruct (known_status (status b)) eqn:E; [exact E|reflexivity]. }
  split; [exact K|].
  split; [apply or_zero_not_nan|].
  split; [apply or_zero_not_nan|].
  split; [reflexivity|].
  split.
  { intros c p. unfold filterBetsByAddedDate, in_day, in_week, in_month.
    unfold normalizeImportedBet. cbn [added_date List.filter].
    change (trim "") with "". change (parseDMYtoMs (tz c) "") with (@None Z).
    pose proof (todayDMY_nonempty c) as T.
    destruct p; [|reflexivity|reflexivity].
    destruct (String.eqb_spec "" (todayDMY c)) as [E|E]; [|reflexivity].
    now contradiction T. }
  split.
  { intros T. unfold normalizeImportedBet. cbn [id]. now rewrite T. }
  split.
  { intros T. unfold normalizeImportedBet. cbn [id]. rewrite T.
    split; [reflexivity|apply fresh_id_nonempty]. }
  set (imp := normalizeImportedBet NumberToString raw_id now random b).
  split.
  - intros I.
    assert (T : Server.truthy (Some (Server.JStr (id imp))) = true)
      by (cbn; apply negb_true_iff; now apply String.eqb_neq).
    unfold normalizeImportedBet at 1. rewrite T.
    unfold imp, normalizeImportedBet.
    cbn [id status stake_value stake_currency coef win_value win_currency
         Server.ToString Server.ToString_json].
    rewrite K, !or_zero_idempotent.
    set (s := str_or (stake_currency b) "USDT").
    assert (N : s <> "") by (apply str_or_nonempty; discriminate).
    rewrite (str_or_of_nonempty s _ N).
    assert (W : str_or (win_currency b) s <> "") by now apply str_or_nonempty.
    rewrite (str_or_of_nonempty _ s W).
    f_equal.
    destruct (is_nan (win_value b)) eqn:E; [|now rewrite E].
    match goal with
    | |- (if is_nan ?w then _ else _) = _ => now destruct (is_nan w)
    end.
  - intros I. unfold normalizeImportedBet at 1. cbn [id]. now rewrite I.
Qed.

(** An id that is an empty array is truthy and reads as the empty
    string: the item gets an empty id at the first import and a fresh
    one at the second. *)
Lemma normalizeImportedBet_normal_witness :
  id (normalizeImportedBet NaN_string (Some (Server.JArr [])) 5 "ab"
        won_100_200) = ""
  /\ id (normalizeImportedBet NaN_string (Some (Server.JStr "")) 7 "cd"
           (normalizeImportedBet NaN_string (Some (Server.JArr [])) 5 "ab"
              won_100_200)) = "7cd"
  /\ id (normalizeImportedBet NaN_string (Some (Server.JStr "1")) 5 "ab"
           won_100_200) = "1".
Proof.
  destruct (normalizeImportedBet_normal NaN_string (Some (Server.JArr []))
              5 7 "ab" "cd" won_100_200) as (_ & _ & _ & _ & _ & _ & _ & _ & E).
  split; [reflexivity|]. split; [|reflexivity].
  exact (E eq_refl).
Defined.

(** The lost bet with a negative stake, which the normaliser reads as a
    gain of 5, reads as a loss of 5 once the LOST button has been
    pressed on it. *)
Lemma quickStatus_result_witness :
  normalizedWinValue lost_negative_stake = 5%float
  /\ normalizedWinValue
       (patched clock_2026_11_03 lost_negative_stake
          (quickStatus lost_negative_stake STATUS_LOST))
     = (-5)%float.
Proof.
  split; [reflexivity|].
  destruct (quickStatus_result clock_2026_11_03 lost_negative_stake STATUS_LOST)
    as (_ & _ & H & _).
  destruct (H eq_refl eq_refl) as [E _].
  rewrite E. reflexivity.
Defined.

(** *** The collection on the admin page *)

(** The handler of the admin page is idempotent on what the page holds,
    for every payload.  It holds the collection that the public page
    holds after the same payload, except for a payload that is neither
    an array nor an object, which empties the list of the admin page and
    leaves that of the public page as it was.  The text of the editor is
    cleared unless a bet is being edited. *)
Theorem admin_update_idempotent (p : Sync.payload) (st : Admin.state)
    (now : float) (pub : Sync.state) :
  Admin.on_bets_update p (Admin.on_bets_update p st) = Admin.on_bets_update p st
  /\ (p <> Sync.POther ->
      Admin.bets (Admin.on_bets_update p st)
      = Sync.bets (Sync.on_bets_update now p pub))
  /\ Admin.bets (Admin.on_bets_update Sync.POther st) = []
  /\ Sync.bets (Sync.on_bets_update now Sync.POther pub) = Sync.bets pub
  /\ editingId (Admin.on_bets_update p st) = editingId st
  /\ (editingId st <> "" ->
      jsonText (Admin.on_bets_update p st) = jsonText st)
  /\ (editingId st = "" -> jsonText (Admin.on_bets_update p st) = "").
Proof.
  split; [|split; [|repeat split]].
  - unfold Admin.on_bets_update. cbn [editingId jsonText].
    destruct (editingId st =? "")%string; reflexivity.
  - intros H. destruct p as [items|[items|] u|]; try reflexivity.
    now contradiction H.
  - intros H. unfold Admin.on_bets_update. cbn [jsonText].
    apply String.eqb_neq in H. now rewrite H.
  - intros H. unfold Admin.on_bets_update. cbn [jsonText]. now rewrite H.
Qed.

End AdminFacts.

(** ** The server: look-ups, POST and DELETE, the login check, restart *)

Module ServerLifeFacts.
Import JS JSFacts JSDate Server Spec ServerFacts Samples.

Section WithBuiltins.
Variable NumberToString : float -> string.
Variable env : option string.

Local Abbreviation handle := (Server.handle NumberToString env).
Local Abbreviation findIndex_id := (Server.findIndex_id NumberToString).
Local Abbreviation run := (Server.run NumberToString env).
Local Abbreviation serve := (Server.serve NumberToString env).
Local Abbreviation other_id id :=
  (fun x : record => negb (ToString NumberToString (x !! "id") =? id)%string).

(** *** Looking a record up by its id *)

Lemma findIndex_id_None (id : string) (l : list record) :
  findIndex_id id l = None <->
  forall x, In x l -> ToString NumberToString (x !! "id") <> id.
Proof.
  induction l as [|y l IH]; cbn.
  - split; [intros _ x []|reflexivity].
  - destruct (String.eqb_spec (ToString NumberToString (y !! "id")) id) as [E|E].
    + split; [discriminate|]. intros H. now contradiction (H y (or_introl eq_refl)).
    + destruct (Server.findIndex_id NumberToString id l) as [j|]; cbn.
      * split; [discriminate|]. intros H.
        assert (X : Some j = None)
          by (apply IH; intros x I; apply H; now right).
        discriminate X.
      * split; [|reflexivity]. intros _ x [<-|I]; [exact E|].
        now apply (proj1 IH eq_refl).
Qed.


Lemma filter_other_id_length (id : string) (l : list record) :
  length (List.filter (other_id id) l) = length l <->
  forall x, In x l -> ToString NumberToString (x !! "id") <> id.
Proof.
  split.
  - intros H x I. apply filter_same_length in H. rewrite <- H in I.
    apply List.filter_In in I as [_ I].
    apply negb_true_iff in I. now apply String.eqb_neq.
  - intros H. f_equal. induction l as [|y l IH]; [reflexivity|]. cbn.
    assert (E : ToString NumberToString (y !! "id") <> id)
      by (apply H; now left).
    apply String.eqb_neq in E. rewrite E. cbn. f_equal.
    apply IH. intros x I. apply H. now right.
Qed.

Lemma filter_sublist {A : Type} (f : A -> bool) (l : list A) :
  sublist (List.filter f l) l.
Proof.
  induction l as [|x l IH]; cbn; [constructor|].
  destruct (f x); [now apply sublist_skip|now apply sublist_cons].
Qed.


(** *** DELETE *)

(** A DELETE that succeeds has removed every record that has the id, and
    nothing else: the records left are those with another id, in their
    order; at least one record is gone; and no record has the id any
    more. *)
Theorem delete_removes_every_match (c : Clock) (st st' : state)
    (pw : option string) (id : string) :
  handle c st (mkRequest pw (DeleteBet id)) = (st', Ok) ->
  cache st' = List.filter (other_id id) (cache st)
  /\ (forall x, In x (cache st') <->
                In x (cache st) /\ ToString NumberToString (x !! "id") <> id)
  /\ sublist (cache st') (cache st)
  /\ (length (cache st') < length (cache st))%nat
  /\ (exists x, In x (cache st) /\ ToString NumberToString (x !! "id") = id)
  /\ findIndex_id id (cache st') = None.
Proof.
  unfold Server.handle, delete_api_bets_id. cbn [target x_admin_password].
  destruct (authorized env pw); cbn [negb]; [|discriminate].
  destruct (Nat.eqb_spec (length (List.filter (other_id id) (cache st)))
                         (length (cache st))) as [E|E]; [discriminate|].
  intros [= <-]. cbn [cache committed].
  assert (M : forall x, In x (List.filter (other_id id) (cache st)) <->
                        In x (cache st)
                        /\ ToString NumberToString (x !! "id") <> id).
  { intros x. rewrite List.filter_In, negb_true_iff.
    now rewrite String.eqb_neq. }
  split; [reflexivity|]. split; [exact M|]. split; [|split; [|split]].
  - apply filter_sublist.
  - pose proof (List.filter_length_le (other_id id) (cache st)). lia.
  - destruct (Server.findIndex_id NumberToString id (cache st)) as [idx|] eqn:F.
    + destruct (findIndex_id_Some NumberToString id (cache st) idx F)
        as (old & Hold & Hid).
      exists old. split; [|exact Hid].
      apply list_elem_of_In. now apply list_elem_of_lookup_2 in Hold.
    + pose proof (proj1 (findIndex_id_None id (cache st)) F) as N.
      now contradiction (proj2 (filter_other_id_length id (cache st)) N).
  - apply findIndex_id_None. intros x I. now apply M in I.
Qed.

(** *** POST *)

Lemma string_of_int_truthy (n : Z) :
  truthy (Some (JStr (string_of_int n))) = true.
Proof.
  apply negb_true_iff, String.eqb_neq, AdminFacts.string_of_int_nonempty.
Qed.


(** POST checks nothing but the password: the record is put in front of
    the collection, which is otherwise kept as it is, records with the
    same id included.  The record is the body, with an [id] made from
    the clock when the body has none and the date of today when it has
    no [added_date]; the answer carries its id, and it is the record that
    a look-up by that id finds. *)
Theorem post_prepends (c : Clock) (st : state) (pw : option string)
    (body : record) :
  authorized env pw = true ->
  exists obj,
    handle c st (mkRequest pw (PostBet body))
    = (committed c st (obj :: cache st), OkId (obj !! "id"))
    /\ truthy (obj !! "id") = true
    /\ truthy (obj !! "added_date") = true
    /\ (truthy (body !! "id") = true -> obj !! "id" = body !! "id")
    /\ (truthy (body !! "id") = false ->
        obj !! "id" = Some (JStr (string_of_int (now c))))
    /\ (truthy (body !! "added_date") = true ->
        obj !! "added_date" = body !! "added_date")
    /\ (forall k, k <> "id" -> k <> "added_date" -> obj !! k = body !! k)
    /\ findIndex_id (ToString NumberToString (obj !! "id")) (obj :: cache st)
       = Some 0%nat.
Proof.
  intros A. unfold Server.handle, post_api_bets.
  cbn [target x_admin_password]. rewrite A. cbn [negb].
  set (obj1 := if negb (truthy (body !! "id"))
               then <["id" := JStr (string_of_int (now c))]> body else body).
  set (obj := if negb (truthy (obj1 !! "added_date"))
              then <["added_date" := JStr (formatDMY c)]> obj1 else obj1).
  assert (I1 : truthy (obj1 !! "id") = true).
  { unfold obj1. destruct (truthy (body !! "id")) eqn:T; cbn [negb]; [exact T|].
    rewrite lookup_insert_eq. apply string_of_int_truthy. }
  assert (D1 : obj1 !! "added_date" = body !! "added_date").
  { unfold obj1. destruct (truthy (body !! "id")); cbn [negb]; [reflexivity|].
    now rewrite lookup_insert_ne. }
  assert (I : obj !! "id" = obj1 !! "id").
  { unfold obj. destruct (truthy (obj1 !! "added_date")); cbn [negb];
      [reflexivity|]. now rewrite lookup_insert_ne. }
  exists obj. split; [reflexivity|]. repeat split.
  - now rewrite I.
  - unfold obj. destruct (truthy (obj1 !! "added_date")) eqn:T; cbn [negb];
      [exact T|]. rewrite lookup_insert_eq. apply formatDMY_truthy.
  - intros T. rewrite I. unfold obj1. now rewrite T.
  - intros T. rewrite I. unfold obj1. rewrite T. cbn [negb].
    apply lookup_insert_eq.
  - intros T. unfold obj. rewrite D1, T. cbn [negb]. exact D1.
  - intros k K1 K2.
    assert (E : obj !! k = obj1 !! k).
    { unfold obj. destruct (truthy (obj1 !! "added_date")); cbn [negb];
        [reflexivity|]. rewrite lookup_insert_ne; [reflexivity|congruence]. }
    rewrite E. unfold obj1. destruct (truthy (body !! "id")); cbn [negb];
      [reflexivity|]. rewrite lookup_insert_ne; [reflexivity|congruence].
  - cbn. now rewrite String.eqb_refl.
Qed.


(** *** The login check *)

(** The login check accepts exactly the passwords that the mutating
    routes accept: it answers 200 when no mutating request with that
    header is ever answered 401, and 401 when every one is. *)
Theorem auth_check_agrees (pw : option string) :
  (get_api_auth_check env pw = 200%Z \/ get_api_auth_check env pw = 401%Z)
  /\ (get_api_auth_check env pw = 200%Z <->
      forall c st t, snd (handle c st (mkRequest pw t)) <> Error 401 "auth")
  /\ (get_api_auth_check env pw = 401%Z <->
      forall c st t, handle c st (mkRequest pw t) = (st, Error 401 "auth")).
Proof.
  assert (G : get_api_auth_check env pw
              = if authorized env pw then 200%Z else 401%Z) by reflexivity.
  assert (N : authorized env pw = true ->
              forall c st t, snd (handle c st (mkRequest pw t))
                             <> Error 401 "auth").
  { intros A c st t. unfold Server.handle. cbv zeta.
    cbn [target x_admin_password].
    destruct t as [val|[body|]|body|id patch|id];
      [unfold put_api_rate|unfold put_api_bets|unfold put_api_bets
      |unfold post_api_bets|unfold patch_api_bets_id|unfold delete_api_bets_id];
      rewrite A; cbn [negb]; try discriminate.
    - destruct (finite_positive val); cbn [negb]; [|discriminate].
      destruct (writeRate c val (disk st)). discriminate.
    - destruct (Server.findIndex_id NumberToString id (cache st)) as [idx|];
        [|discriminate].
      destruct (cache st !! idx); discriminate.
    - destruct (_ =? _)%nat; discriminate. }
  assert (U : authorized env pw = false ->
              forall c st t, handle c st (mkRequest pw t)
                             = (st, Error 401 "auth"))
    by (intros A c st t; now apply unauthorized_route).
  rewrite G. destruct (authorized env pw) eqn:A.
  - split; [now left|]. split.
    + split; [intros _; now apply N|reflexivity].
    + split; [discriminate|]. intros H.
      specialize (N eq_refl (mkClock 0 0) (boot (mkFiles None ∅ None))
                    (DeleteBet "")).
      rewrite H in N. now contradiction N.
  - split; [now right|]. split.
    + split; [discriminate|]. intros H.
      specialize (H (mkClock 0 0) (boot (mkFiles None ∅ None)) (DeleteBet "")).
      rewrite (U eq_refl) in H. now contradiction H.
    + split; [intros _; now apply U|reflexivity].
Qed.

(** *** Restart *)

Lemma listen_cache (d : files) : cache (listen d) = readBets d.
Proof. unfold listen. now destruct (rate_file d). Qed.

Lemma listen_rateCache (d : files) : rateCache (listen d) = readRate d.
Proof. unfold listen. now destruct (rate_file d). Qed.

Lemma readRate_valid (d : files) :
  finite_positive (rubPerUsdt (readRate d)) = true.
Proof.
  unfold readRate. destruct (rate_file d) as [r|]; [|reflexivity].
  destruct (finite_positive (rubPerUsdt r)) eqn:F; [exact F|reflexivity].
Qed.

(** Writing a value as JSON twice is writing it once. *)
Lemma json_size_elem (x : json) (l : list json) :
  In x l -> (json_size x < json_size (JArr l))%nat.
Proof.
  change (json_size (JArr l)) with (S (list_sum (List.map json_size l))).
  induction l as [|y l IH]; [intros []|].
  change (List.map json_size (y :: l)) with (json_size y :: List.map json_size l).
  change (list_sum (json_size y :: List.map json_size l))
    with (json_size y + list_sum (List.map json_size l))%nat.
  intros [->|I]; [lia|]. specialize (IH I). lia.
Qed.

Lemma json_size_field (m : gmap string json) (k : string) (x : json) :
  m !! k = Some x -> (json_size x < json_size (JObj m))%nat.
Proof.
  intros H.
  change (json_size (JObj m))
    with (S (map_fold (fun _ x n => json_size x + n)%nat 0%nat m)).
  rewrite (map_fold_delete_L _ _ k x m); [lia| |exact H].
  intros. lia.
Qed.

Lemma to_JSON_idempotent (v : json) : to_JSON (to_JSON v) = to_JSON v.
Proof.
  remember (json_size v) as n eqn:E. revert v E.
  induction n as [n IH] using lt_wf_ind. intros v ->.
  destruct v as [|b|x|s|l|m]; try reflexivity.
  - cbn [to_JSON]. destruct (is_finite x) eqn:F; [|reflexivity].
    destruct (x =? 0)%float eqn:Z; [reflexivity|].
    cbn [to_JSON]. now rewrite F, Z.
  - cbn [to_JSON]. f_equal. rewrite List.map_map.
    apply List.map_ext_in. intros x I.
    exact (IH _ (json_size_elem x l I) x eq_refl).
  - cbn [to_JSON]. f_equal. rewrite <- map_fmap_compose.
    apply map_fmap_ext. intros k x H.
    exact (IH _ (json_size_field m k x H) x eq_refl).
Qed.

Lemma written_twice (l : list record) :
  record_to_JSON <$> (record_to_JSON <$> l) = record_to_JSON <$> l.
Proof.
  rewrite <- list_fmap_compose. apply list_fmap_ext. intros _ x _.
  unfold compose, record_to_JSON. rewrite <- map_fmap_compose.
  apply map_fmap_ext. intros k v _. apply to_JSON_idempotent.
Qed.

(** Each call leaves the memory of the server in step with its files:
    the collection it holds and the collection in [bets.json] are written
    as the same JSON. *)
Lemma serve_in_step (st : state) (k : call) :
  record_to_JSON <$> readBets (disk st) = record_to_JSON <$> cache st
  /\ rubPerUsdt (readRate (disk st)) = rubPerUsdt (rateCache st)
  /\ rate_file (disk st) <> None ->
  record_to_JSON <$> readBets (disk (serve st k))
  = record_to_JSON <$> cache (serve st k)
  /\ rubPerUsdt (readRate (disk (serve st k)))
     = rubPerUsdt (rateCache (serve st k))
  /\ rate_file (disk (serve st k)) <> None.
Proof.
  intros (B & R & F).
  assert (K : forall c l,
              record_to_JSON <$> readBets (disk (committed c st l))
              = record_to_JSON <$> cache (committed c st l)
              /\ rubPerUsdt (readRate (disk (committed c st l)))
                 = rubPerUsdt (rateCache (committed c st l))
              /\ rate_file (disk (committed c st l)) <> None).
  { intros c l. split; [apply written_twice|]. split; [exact R|exact F]. }
  destruct k as [c r|]; [|now repeat split].
  unfold Server.serve, Server.handle. cbv zeta.
  destruct (target r) as [val|[body|]|body|id patch|id];
    [unfold put_api_rate|unfold put_api_bets|unfold put_api_bets
    |unfold post_api_bets|unfold patch_api_bets_id|unfold delete_api_bets_id];
    (destruct (authorized env (x_admin_password r)); cbn [negb fst];
     [|now repeat split]).
  - destruct (finite_positive val) eqn:V; cbn [negb fst]; [|now repeat split].
    unfold writeRate. rewrite V. cbn. unfold readRate. cbn. rewrite V.
    repeat split; [exact B|discriminate].
  - apply K.
  - now repeat split.
  - apply K.
  - destruct (Server.findIndex_id NumberToString id (cache st)) as [idx|];
      [|now repeat split].
    destruct (cache st !! idx); [apply K|now repeat split].
  - destruct (Nat.eqb_spec
                (length (List.filter
                   (fun x : record =>
                      negb (ToString NumberToString (x !! "id") =? id)%string)
                   (cache st)))
                (length (cache st))) as [E|_]; [|apply K].
    cbn [fst cache disk rateCache]. rewrite (filter_same_length _ _ E).
    now repeat split.
Qed.

(** A restart loses nothing that a client can read: after the start and
    any sequence of calls, the server started again on its files answers
    the same collection and the same rate as before, and leaves the
    files as they are.  (The collection is answered as JSON writes it;
    the memory may hold a Number that is not finite, which is [null] in
    the file and in both answers.)  The rate that is answered, which
    [readRate] takes from [rate.json] when the file holds a finite
    positive rate and which is the default otherwise, is the rate held
    in memory, and it is finite and positive. *)
Theorem restart_restores (d : files) (calls : list call) :
  get_api_bets (listen (disk (run d calls))) = get_api_bets (run d calls)
  /\ snd (get_api_rate (listen (disk (run d calls))))
     = snd (get_api_rate (run d calls))
  /\ snd (get_api_rate (run d calls))
     = OkRate (rubPerUsdt (rateCache (run d calls)))
  /\ rubPerUsdt (rateCache (listen (disk (run d calls))))
     = rubPerUsdt (rateCache (run d calls))
  /\ disk (listen (disk (run d calls))) = disk (run d calls)
  /\ finite_positive (rubPerUsdt (rateCache (run d calls))) = true.
Proof.
  assert (I : record_to_JSON <$> readBets (disk (run d calls))
              = record_to_JSON <$> cache (run d calls)
              /\ rubPerUsdt (readRate (disk (run d calls)))
                 = rubPerUsdt (rateCache (run d calls))
              /\ rate_file (disk (run d calls)) <> None).
  { unfold Server.run.
    assert (I0 : record_to_JSON <$> readBets (disk (listen d))
                 = record_to_JSON <$> cache (listen d)
                 /\ rubPerUsdt (readRate (disk (listen d)))
                    = rubPerUsdt (rateCache (listen d))
                 /\ rate_file (disk (listen d)) <> None).
    { unfold listen, boot, readRate, readBets.
      destruct (rate_file d) as [r|] eqn:E; cbn; rewrite ?E.
      - repeat split. discriminate.
      - repeat split. discriminate. }
    revert I0. generalize (listen d) as st.
    induction calls as [|k calls IH]; intros st I0; [exact I0|].
    cbn [fold_left]. apply IH. now apply serve_in_step. }
  destruct I as (B & R & F).
  assert (D : disk (listen (disk (run d calls))) = disk (run d calls)).
  { unfold listen. destruct (rate_file (disk (run d calls))); [reflexivity|].
    now contradiction F. }
  unfold get_api_bets, get_api_rate. cbn [snd].
  rewrite D, listen_cache, listen_rateCache, R.
  split; [exact B|]. split; [reflexivity|]. split; [reflexivity|].
  split; [reflexivity|]. split; [reflexivity|].
  rewrite <- R. apply readRate_valid.
Qed.

(** *** A rate from the admin page to the statistics *)

(** A rate that the admin page lets through is accepted by the server:
    it is answered back, stored, broadcast, taken by a client that hears
    the broadcast and by one that asks for the rate, and read again at a
    restart; the collection is not touched. *)
Theorem rate_saved_end_to_end (c : Clock) (st : state) (val held : float) :
  Admin.saveRubRate_sends val = true ->
  exists st',
    handle c st (mkRequest (Some (ADMIN_PASSWORD env)) (PutRate val))
    = (st', OkRate val)
    /\ cache st' = cache st
    /\ bets_file (disk st') = bets_file (disk st)
    /\ emitted st' = emitted st ++ [RateUpdate val]
    /\ Client.on_rate_update held val = val
    /\ snd (get_api_rate st') = OkRate val
    /\ Client.fetchRate (Some val) = val
    /\ rubPerUsdt (rateCache (listen (disk st'))) = val.
Proof.
  intros S. rewrite AdminFacts.saveRubRate_guard in S.
  unfold Server.handle, put_api_rate, authorized, writeRate, get_api_rate.
  cbn [target x_admin_password]. rewrite String.eqb_refl, S. cbn [negb].
  eexists. split; [reflexivity|].
  unfold Client.on_rate_update, Client.fetchRate, listen, boot, readRate.
  cbn. rewrite S. cbn. repeat split.
Qed.

(** *** Dates and backups over the life of the server *)

Lemma ensureAddedDateOnArray_dated (c : Clock) (arr : list record) :
  Forall (fun x : record => truthy (x !! "added_date") = true)
         (ensureAddedDateOnArray c arr).
Proof.
  unfold ensureAddedDateOnArray. apply List.Forall_forall. intros x I.
  apply List.in_map_iff in I as (y & <- & _).
  destruct (truthy (y !! "added_date")) eqn:T; cbn [negb]; [exact T|].
  rewrite lookup_insert_eq. apply formatDMY_truthy.
Qed.

(** On a collection of JSON objects: once every record has its
    [added_date] set, it stays so whatever is served next, a PUT of an
    array of JSON objects included. *)
Theorem dates_stay (st : state) (k : call) :
  Forall (fun x : record => truthy (x !! "added_date") = true) (cache st) ->
  Forall (fun x : record => truthy (x !! "added_date") = true)
         (cache (serve st k)).
Proof.
  intros D.
  destruct k as [c r|]; [|exact D].
  unfold Server.serve, Server.handle. cbv zeta.
  destruct (target r) as [val|[body|]|body|id patch|id];
    [unfold put_api_rate|unfold put_api_bets|unfold put_api_bets
    |unfold post_api_bets|unfold patch_api_bets_id|unfold delete_api_bets_id];
    (destruct (authorized env (x_admin_password r)); cbn [negb fst];
     [|exact D]).
  - destruct (finite_positive val); cbn [negb fst]; [|exact D].
    destruct (writeRate c val (disk st)). exact D.
  - apply ensureAddedDateOnArray_dated.
  - exact D.
  - cbn [cache committed]. constructor; [|exact D].
    match goal with
    | |- truthy ((if negb (truthy (?o !! "added_date")) then _ else _)
                 !! "added_date") = true =>
        destruct (truthy (o !! "added_date")) eqn:T; cbn [negb]; [exact T|]
    end.
    rewrite lookup_insert_eq. apply formatDMY_truthy.
  - destruct (Server.findIndex_id NumberToString id (cache st)) as [idx|];
      [|exact D].
    destruct (cache st !! idx) as [old|]; [|exact D].
    cbn [fst cache committed]. apply Forall_insert; [exact D|].
    apply (merge_patch_spec c old patch).
  - assert (F : Forall (fun x : record => truthy (x !! "added_date") = true)
                  (List.filter
                     (fun x : record =>
                        negb (ToString NumberToString (x !! "id") =? id)%string)
                     (cache st))).
    { apply List.Forall_forall. intros x I.
      apply List.filter_In in I as [I _].
      now apply (proj1 (List.Forall_forall _ _) D). }
    destruct (_ =? _)%nat; exact F.
Qed.

(** The server never removes a backup: a backup that exists still exists
    after every call, and holds what it held unless a change of the
    collection is served at the very instant it is stamped with. *)
Theorem backups_only_grow (st : state) (k : call) (t : Z) (l : list record) :
  backups (disk st) !! t = Some l ->
  is_Some (backups (disk (serve st k)) !! t)
  /\ ((forall c r, k = Mutate c r -> now c <> t) ->
      backups (disk (serve st k)) !! t = Some l).
Proof.
  intros B.
  assert (K : forall c cache',
              is_Some (backups (disk (committed c st cache')) !! t)
              /\ (now c <> t ->
                  backups (disk (committed c st cache')) !! t = Some l)).
  { intros c cache'. cbn [disk committed writeBets backups].
    destruct (decide (now c = t)) as [->|N].
    - rewrite lookup_insert_eq. split; [eauto|]. intros H. now contradiction H.
    - rewrite lookup_insert_ne by exact N. split; [eauto|now intros _]. }
  assert (S : is_Some (backups (disk st) !! t)
              /\ ((forall c r, k = Mutate c r -> now c <> t) ->
                  backups (disk st) !! t = Some l)) by (split; [eauto|now intros _]).
  destruct k as [c r|]; [|exact S].
  assert (K' : forall cache',
              is_Some (backups (disk (committed c st cache')) !! t)
              /\ ((forall c0 r0, Mutate c r = Mutate c0 r0 -> now c0 <> t) ->
                  backups (disk (committed c st cache')) !! t = Some l)).
  { intros cache'. destruct (K c cache') as [K1 K2]. split; [exact K1|].
    intros H. apply K2. now apply (H c r). }
  unfold Server.serve, Server.handle. cbv zeta.
  destruct (target r) as [val|[body|]|body|id patch|id];
    [unfold put_api_rate|unfold put_api_bets|unfold put_api_bets
    |unfold post_api_bets|unfold patch_api_bets_id|unfold delete_api_bets_id];
    (destruct (authorized env (x_admin_password r)); cbn [negb fst];
     [|exact S]).
  - destruct (finite_positive val); cbn [negb fst]; [|exact S]. exact S.
  - apply K'.
  - exact S.
  - apply K'.
  - destruct (Server.findIndex_id NumberToString id (cache st)) as [idx|];
      [|exact S].
    destruct (cache st !! idx); [apply K'|exact S].
  - destruct (_ =? _)%nat; [exact S|apply K'].
Qed.

End WithBuiltins.

(** *** Examples *)


(** Deleting the bet of id 7 leaves the bet of id 8. *)
Lemma delete_removes_every_match_witness :
  exists st',
    Server.handle NaN_string None clock_2026_11_03 state_0
      (mkRequest (Some "betoff07") (DeleteBet "7")) = (st', Ok)
    /\ cache st' = [record_8]
    /\ Server.findIndex_id NaN_string "7" (cache st') = None.
Proof.
  set (st' := fst (Server.handle NaN_string None clock_2026_11_03 state_0
                     (mkRequest (Some "betoff07") (DeleteBet "7")))).
  assert (H : Server.handle NaN_string None clock_2026_11_03 state_0
                (mkRequest (Some "betoff07") (DeleteBet "7"))
              = (st', Ok)) by (vm_compute; reflexivity).
  destruct (delete_removes_every_match NaN_string None clock_2026_11_03
              state_0 st' (Some "betoff07") "7" H) as (E & _ & _ & _ & _ & F).
  exists st'. split; [exact H|]. split; [|exact F].
  rewrite E. vm_compute. reflexivity.
Defined.

(** A bet posted with the id 7, which the collection already has, is put
    in front of it; a bet posted without an id gets the clock as id. *)
Lemma post_prepends_witness :
  exists obj,
    cache (fst (Server.handle NaN_string None clock_2026_11_03 state_0
                  (mkRequest (Some "betoff07") (PostBet record_7))))
    = [obj; record_8; record_7]
    /\ obj !! "id" = Some (JStr "7").
Proof.
  destruct (post_prepends NaN_string None clock_2026_11_03 state_0
              (Some "betoff07") record_7 eq_refl)
    as (obj & H & _ & _ & I & _).
  exists obj. rewrite H. split; [reflexivity|].
  rewrite I; vm_compute; reflexivity.
Defined.


Lemma rate_saved_end_to_end_witness :
  exists st',
    Server.handle NaN_string None clock_2026_11_03 state_0
      (mkRequest (Some "betoff07") (PutRate 90))
    = (st', OkRate 90)
    /\ cache st' = [record_8; record_7]
    /\ Client.on_rate_update Client.DEFAULT_RUB_RATE 90 = 90%float.
Proof.
  destruct (rate_saved_end_to_end NaN_string None clock_2026_11_03 state_0
              90 Client.DEFAULT_RUB_RATE eq_refl)
    as (st' & H & C & _ & _ & U & _).
  exists st'. split; [exact H|]. split; [exact C|exact U].
Defined.

(** The two samples, once the collection has been replaced by them, are
    dated, and what a deletion leaves is dated. *)
Lemma dates_stay_witness :
  Forall (fun x : record => truthy (x !! "added_date") = true)
    (cache (Server.serve NaN_string None
              (fst (Server.handle NaN_string None clock_2026_11_03 state_0
                      (mkRequest (Some "betoff07")
                         (PutBets (Some [record_8; record_7])))))
              (Mutate clock_2026_11_03
                 (mkRequest (Some "betoff07") (DeleteBet "7"))))).
Proof.
  apply (dates_stay NaN_string None).
  assert (E : cache (fst (Server.handle NaN_string None clock_2026_11_03 state_0
                            (mkRequest (Some "betoff07")
                               (PutBets (Some [record_8; record_7])))))
              = [<["added_date" := JStr "03/11/2026"]> record_8; record_7])
    by (vm_compute; reflexivity).
  rewrite E. repeat constructor; vm_compute; reflexivity.
Defined.

(** The backup written when the bet of id 7 was patched is still there
    after the bet of id 8 has been deleted a second later. *)
Lemma backups_only_grow_witness :
  backups (disk (Server.serve NaN_string None state_patched
                   (Mutate (mkClock 1793700001000 10800000)
                      (mkRequest (Some "betoff07") (DeleteBet "8")))))
    !! 1793700000000%Z
  = Some (cache state_patched).
Proof.
  apply (backups_only_grow NaN_string None state_patched).
  - vm_compute. reflexivity.
  - intros c r [= <- _]. discriminate.
Defined.

End ServerLifeFacts.

(** ** The older copies *)

Module LegacyFacts.
Import JS Client.

(** The older normaliser returns the payout of a decided bet that is not
    lost as it is stored, where the current one subtracts the stake;
    on lost and pending bets the two agree. *)
Theorem legacy_normalizedWinValue (b : Bet) :
  (status b <> STATUS_LOST -> status b <> STATUS_PENDING ->
   Legacy.normalizedWinValue b = or_zero (win_value b)
   /\ normalizedWinValue b
      = (Legacy.normalizedWinValue b - or_zero (stake_value b))%float)
  /\ (status b = STATUS_LOST \/ status b = STATUS_PENDING ->
      Legacy.normalizedWinValue b = normalizedWinValue b).
Proof.
  unfold Legacy.normalizedWinValue, normalizedWinValue. split.
  - intros HL HP. apply String.eqb_neq in HL, HP. now rewrite HL, HP.
  - intros [H|H]; rewrite H.
    + now rewrite String.eqb_refl.
    + now rewrite NormalizerFacts.LOST_not_PENDING_sym, String.eqb_refl.
Qed.

(** The older streak is the current one on the first fifteen entries. *)
Theorem legacy_calcStreak (all : list Bet) :
  Legacy.calcStreak all = calcStreak (firstn 15 all).
Proof.
  unfold Legacy.calcStreak, calcStreak.
  destruct (firstn 15 all) as [|b l] eqn:E; reflexivity.
Qed.

End LegacyFacts.
